(** * JSONFrameSerializer: a shallow embedding of the JSON frame codec

    The development follows the TypeScript class [JSONFrameSerializer]
    (serialize, deserialize, serializeAudio, serializeMessage and their
    private helpers).  JavaScript values are an inductive type, exceptions
    are an error monad, the promise returned by [deserialize] is a small
    inductive, and the host functions the class calls ([JSON.stringify],
    [JSON.parse], [btoa], [atob], [String]) are executable definitions that
    follow ECMA-262 and the WHATWG forgiving-base64 algorithm.

    Two behaviours of the host are part of the model because the class
    depends on them.  Spreading a typed array into a call
    ([String.fromCharCode(...bytes)]) is a RangeError when the array has
    more elements than the engine accepts as arguments; the bound is a
    parameter ([Engine]), and the statements hold for every engine.
    Converting a value to a string, as a template literal and [atob] do, is
    a TypeError on an object that has no usable [toString]; the [catch]
    handlers of [serialize] and [_dictToFrame] build their message with
    such a conversion, so they can throw in turn.

    The model stops at: numbers that are not integers; strings with code
    units above 255; user code run by a conversion or a property access
    (an own [toString], [valueOf] or [toJSON] that is a function, a getter,
    a proxy); the place JavaScript gives to keys that look like array
    indices when it lists the properties of an object; the change of
    prototype that an assignment to [__proto__] makes; what the console
    prints; and the limits of an engine on stack depth and string
    length. *)

From Stdlib Require Import ZArith NArith List Bool Lia.
From Stdlib.Strings Require Import String Ascii Byte.
From Stdlib Require Decimal DecimalString DecimalFacts DecimalPos DecimalZ.
Import ListNotations.
Local Open Scope list_scope.
Local Open Scope string_scope.

Set Implicit Arguments.
Set Warnings "-register-all".

(** ** Exceptions *)

Inductive error : Type :=
| SyntaxError
| TypeError
| RangeError
| InvalidCharacterError.

Inductive result (A : Type) : Type :=
| Ok (a : A)
| Throw (e : error).

Arguments Ok {A} a.
Arguments Throw {A} e.

Definition bind {A B : Type} (r : result A) (k : A -> result B) : result B :=
  match r with
  | Ok a => k a
  | Throw e => Throw e
  end.

Notation "x <- r ;; k" := (bind r (fun x => k))
  (at level 61, r at next level, right associativity).

(** ** JavaScript values

    Numbers are the integer-valued doubles together with NaN and the two
    infinities (which [JSON.stringify] prints as [null]).  Strings are
    sequences of 8-bit code units, which is what [btoa] and [atob] work on.
    An array carries its [__isTuple__] property as a flag; an object carries
    the name of the class that made it ([Some "Object"] for a literal or a
    parsed object, [None] for an object without prototype) and its own
    enumerable properties in insertion order.  Functions are opaque: a name
    and the source text that [String] returns. *)

Inductive number : Type :=
| Finite (z : Z)
| NaN
| Infinity (negative : bool).

Inductive value : Type :=
| VUndefined
| VNull
| VBool (b : bool)
| VNum (n : number)
| VStr (s : string)
| VBytes (bytes : list byte)
| VArr (isTuple : bool) (items : list value)
| VObj (cls : option string) (props : list (string * value))
| VFun (name : string) (src : string).

Definition props := list (string * value).

Definition plain (ps : props) : value := VObj (Some "Object") ps.

Definition num (z : Z) : value := VNum (Finite z).

(** *** Property lists *)

Fixpoint lookup (ps : props) (k : string) : option value :=
  match ps with
  | [] => None
  | (k', v) :: rest => if String.eqb k' k then Some v else lookup rest k
  end.

Definition has_key (ps : props) (k : string) : bool :=
  match lookup ps k with Some _ => true | None => false end.

Definition keys (ps : props) : list string := map fst ps.

(** [o[k] = v] on own data properties: an existing key keeps its place. *)
Fixpoint obj_set (ps : props) (k : string) (v : value) : props :=
  match ps with
  | [] => [(k, v)]
  | (k', v') :: rest =>
      if String.eqb k' k then (k', v) :: rest else (k', v') :: obj_set rest k v
  end.

(** *** Numbers and strings *)

Definition string_of_Z (z : Z) : string := DecimalString.NilZero.string_of_int (Z.to_int z).

Definition string_of_nat (n : nat) : string := string_of_Z (Z.of_nat n).

(** Number::toString, radix 10. *)
Definition Number_toString (n : number) : string :=
  match n with
  | Finite z => string_of_Z z
  | NaN => "NaN"
  | Infinity false => "Infinity"
  | Infinity true => "-Infinity"
  end.

Fixpoint join (sep : string) (l : list string) : string :=
  match l with
  | [] => ""
  | [s] => s
  | s :: rest => s ++ sep ++ join sep rest
  end.

(** [key.startsWith(prefix)] *)
Fixpoint startsWith (s pre : string) {struct pre} : bool :=
  match pre with
  | EmptyString => true
  | String p pre' =>
      match s with
      | String c s' => Ascii.eqb c p && startsWith s' pre'
      | EmptyString => false
      end
  end.

Definition byte_value (b : byte) : value := num (Z.of_N (Byte.to_N b)).

(** The binary string of a sequence of octets, one code unit for each, and
    the [charCodeAt] loop that fills a fresh [Uint8Array] from a binary
    string. *)
Definition binary_string (bs : list byte) : string := string_of_list_byte bs.

Definition charCodes (s : string) : list byte := list_byte_of_string s.

(** The engine.  A call takes a bounded number of arguments: past the
    bound, spreading a sequence into a call is a RangeError.  The bound
    depends on the engine, so it is a parameter of the development. *)
Class Engine : Type := { max_arguments : N }.

(** [String.fromCharCode(...bytes)]: the spread passes one argument for
    each octet. *)
Definition fromCharCode {E : Engine} (bs : list byte) : result string :=
  if (N.of_nat (List.length bs) <=? max_arguments)%N then Ok (binary_string bs)
  else Throw RangeError.

(** The text of a value whose conversion runs no code of the value: what
    ToString gives for a primitive and for a function, and what the
    built-in [toString] methods give for a typed array, an array of such
    values and an ordinary object. *)
Fixpoint text_of (v : value) : string :=
  match v with
  | VUndefined => "undefined"
  | VNull => "null"
  | VBool true => "true"
  | VBool false => "false"
  | VNum n => Number_toString n
  | VStr s => s
  | VBytes bs => join "," (map (fun b => string_of_Z (Z.of_N (Byte.to_N b))) bs)
  | VArr _ items =>
      join "," (map (fun i => match i with
                              | VUndefined | VNull => ""
                              | _ => text_of i
                              end) items)
  | VObj _ _ => "[object Object]"
  | VFun _ src => src
  end.

(** ToString, as applied by [String(value)], by a template literal and by
    the host functions that take a string argument.  An object is
    converted by its [toString] method and then by its [valueOf] method.
    A property of that name that is no function is passed over; the
    inherited [toString] prints ["[object Object]"]; the inherited
    [valueOf] returns the object itself, which is no primitive; and when
    no method gives a primitive the conversion is a TypeError.  So an
    object converts when it inherits [toString] and has no own property of
    that name.  An own [toString] or [valueOf] that is a function would be
    called: functions are opaque here, the conversion of such an object is
    not followed (it is given as the TypeError), and no statement below
    rests on it.  An array joins the conversions of its items. *)
Fixpoint ToString (v : value) : result string :=
  match v with
  | VArr _ items =>
      texts <- (fix each (l : list value) : result (list string) :=
                  match l with
                  | [] => Ok []
                  | i :: rest =>
                      t <- match i with
                           | VUndefined | VNull => Ok ""
                           | _ => ToString i
                           end ;;
                      ts <- each rest ;;
                      Ok (t :: ts)
                  end) items ;;
      Ok (join "," texts)
  | VObj cls ps =>
      match lookup ps "toString", cls with
      | None, Some _ => Ok "[object Object]"
      | _, _ => Throw TypeError
      end
  | _ => Ok (text_of v)
  end.

(** ToBoolean *)
Definition truthy (v : value) : bool :=
  match v with
  | VUndefined | VNull => false
  | VBool b => b
  | VNum (Finite z) => negb (Z.eqb z 0)
  | VNum NaN => false
  | VNum (Infinity _) => true
  | VStr s => negb (String.eqb s "")
  | VBytes _ | VArr _ _ | VObj _ _ | VFun _ _ => true
  end.

(** *** Property access *)

(** The names every ordinary object inherits from [Object.prototype]. *)
Definition Object_prototype_keys : list string :=
  [ "constructor"; "__defineGetter__"; "__defineSetter__"; "hasOwnProperty";
    "__lookupGetter__"; "__lookupSetter__"; "isPrototypeOf";
    "propertyIsEnumerable"; "toString"; "valueOf"; "__proto__";
    "toLocaleString" ].

Definition mem_string (k : string) (l : list string) : bool :=
  existsb (String.eqb k) l.

Fixpoint indexed_from (n : nat) (l : list value) : props :=
  match l with
  | [] => []
  | v :: rest => (string_of_nat n, v) :: indexed_from (S n) rest
  end.

Definition char_values (s : string) : list value :=
  map (fun c => VStr (String c "")) (list_ascii_of_string s).

(** The own enumerable string-keyed properties, in [for ... in] order. *)
Definition own_enumerable (v : value) : props :=
  match v with
  | VObj _ ps => ps
  | VArr t items =>
      indexed_from 0 items ++ (if t then [("__isTuple__", VBool true)] else [])
  | VBytes bs => indexed_from 0 (map byte_value bs)
  | VStr s => indexed_from 0 (char_values s)
  | _ => []
  end%list.

(** The own properties that are not enumerable. *)
Definition own_hidden (v : value) : props :=
  match v with
  | VArr _ items => [("length", num (Z.of_nat (List.length items)))]
  | VStr s => [("length", num (Z.of_nat (String.length s)))]
  | VFun name _ => [("name", VStr name)]
  | _ => []
  end.

(** [Object.prototype.hasOwnProperty.call(v, k)] *)
Definition hasOwnProperty (v : value) (k : string) : bool :=
  has_key (own_enumerable v) k || has_key (own_hidden v) k.

(** The name of the built-in constructor of a value that is not an object
    literal or a class instance. *)
Definition builtin_class (v : value) : option string :=
  match v with
  | VUndefined | VNull => None
  | VBool _ => Some "Boolean"
  | VNum _ => Some "Number"
  | VStr _ => Some "String"
  | VBytes _ => Some "Uint8Array"
  | VArr _ _ => Some "Array"
  | VObj cls _ => cls
  | VFun _ _ => Some "Function"
  end.

Definition class_function (name : string) : value :=
  VFun name ("function " ++ name ++ "() { [native code] }").

(** [v[k]]: own properties first, then the inherited [constructor]; reading
    a property of [undefined] or [null] throws. *)
Definition get (v : value) (k : string) : result value :=
  match v with
  | VUndefined | VNull => Throw TypeError
  | _ =>
      match lookup (own_enumerable v) k with
      | Some x => Ok x
      | None =>
          match lookup (own_hidden v) k with
          | Some x => Ok x
          | None =>
              if String.eqb k "constructor" then
                match builtin_class v with
                | Some c => Ok (class_function c)
                | None => Ok VUndefined
                end
              else if String.eqb k "length" then
                match v with
                | VBytes bs => Ok (num (Z.of_nat (List.length bs)))
                | _ => Ok VUndefined
                end
              else Ok VUndefined
          end
      end
  end.

(** [k in v]: own or inherited; the operator throws on a primitive. *)
Definition js_in (k : string) (v : value) : result bool :=
  match v with
  | VObj cls ps =>
      Ok (has_key ps k ||
          match cls with
          | Some _ => mem_string k Object_prototype_keys
          | None => false
          end)
  | VArr _ _ | VBytes _ | VFun _ _ =>
      Ok (hasOwnProperty v k || mem_string k Object_prototype_keys
          || String.eqb k "length")
  | _ => Throw TypeError
  end.

(** [o[k] = v] on a plain object built by the codec: [__proto__] is an
    accessor of [Object.prototype], so assigning it creates no own property. *)
Definition assign (ps : props) (k : string) (v : value) : props :=
  if String.eqb k "__proto__" then ps else obj_set ps k v.

(** ** Base64: [btoa] and [atob] *)

Module Base64.

Local Open Scope N_scope.

Definition alphabet : string :=
  "ABCDEFGHIJKLMNOPQRSTUVWXYZabcdefghijklmnopqrstuvwxyz0123456789+/".

Definition char_of_sextet (n : N) : ascii :=
  match String.get (N.to_nat n) alphabet with
  | Some c => c
  | None => "="%char
  end.

Definition sextet_of_char (c : ascii) : option N :=
  let n := N_of_ascii c in
  if (65 <=? n) && (n <=? 90) then Some (n - 65)
  else if (97 <=? n) && (n <=? 122) then Some (n - 71)
  else if (48 <=? n) && (n <=? 57) then Some (n + 4)
  else if n =? 43 then Some 62
  else if n =? 47 then Some 63
  else None.

(** Three octets make four sextets; one or two trailing octets make two or
    three sextets. *)
Fixpoint sextets (l : list N) : list N :=
  match l with
  | a :: b :: c :: rest =>
      a / 4 :: (a mod 4) * 16 + b / 16 :: (b mod 16) * 4 + c / 64 :: c mod 64
        :: sextets rest
  | [a; b] => [a / 4; (a mod 4) * 16 + b / 16; (b mod 16) * 4]
  | [a] => [a / 4; (a mod 4) * 16]
  | [] => []
  end.

(** One octet left over is padded with two [=] signs, two with one. *)
Fixpoint padding (n : nat) : list ascii :=
  match n with
  | 0%nat => []
  | 1%nat => ["="; "="]%char
  | 2%nat => ["="]%char
  | S (S (S n')) => padding n'
  end.

(** [btoa(s)]: every code unit of a string of the model is below 256, so
    the InvalidCharacterError of [btoa] cannot arise. *)
Definition btoa (s : string) : string :=
  let octets := map N_of_ascii (list_ascii_of_string s) in
  string_of_list_ascii
    (map char_of_sextet (sextets octets) ++ padding (List.length octets))%list.

Definition is_ascii_whitespace (c : ascii) : bool :=
  let n := N_of_ascii c in
  (n =? 9) || (n =? 10) || (n =? 12) || (n =? 13) || (n =? 32).

Definition is_eq_sign (c : ascii) : bool := N_of_ascii c =? 61.

(** Remove one or two trailing [=] signs. *)
Fixpoint strip_padding (l : list ascii) : list ascii :=
  match l with
  | [] => []
  | [c1] => if is_eq_sign c1 then [] else l
  | [c1; c2] =>
      if is_eq_sign c2 then (if is_eq_sign c1 then [] else [c1]) else l
  | c :: rest => c :: strip_padding rest
  end.

Fixpoint all_sextets (l : list ascii) : option (list N) :=
  match l with
  | [] => Some []
  | c :: rest =>
      match sextet_of_char c, all_sextets rest with
      | Some n, Some ns => Some (n :: ns)
      | _, _ => None
      end
  end.

(** Four sextets make three octets; a tail of two or three sextets makes one
    or two octets, the spare low bits being dropped. *)
Fixpoint octets (l : list N) : list N :=
  match l with
  | a :: b :: c :: d :: rest =>
      a * 4 + b / 16 :: (b mod 16) * 16 + c / 4 :: (c mod 4) * 64 + d
        :: octets rest
  | [a; b; c] => [a * 4 + b / 16; (b mod 16) * 16 + c / 4]
  | [a; b] => [a * 4 + b / 16]
  | _ => []
  end.

(** [atob(s)]: the forgiving-base64 decode. *)
Definition atob (s : string) : result string :=
  let data := List.filter (fun c => negb (is_ascii_whitespace c))
                     (list_ascii_of_string s) in
  let data :=
    if Nat.eqb (Nat.modulo (List.length data) 4) 0
    then strip_padding data else data in
  if Nat.eqb (Nat.modulo (List.length data) 4) 1 then Throw InvalidCharacterError
  else
    match all_sextets data with
    | None => Throw InvalidCharacterError
    | Some ns => Ok (string_of_list_ascii (map ascii_of_N (octets ns)))
    end.

End Base64.

Definition btoa := Base64.btoa.
Definition atob (v : value) : result string :=
  s <- ToString v ;; Base64.atob s.

(** ** JSON text: [JSON.stringify] and [JSON.parse] *)

Module JSON.

Definition hex_digit (n : N) : ascii :=
  match String.get (N.to_nat n) "0123456789abcdef" with
  | Some c => c
  | None => "0"%char
  end.

Definition backslash : ascii := ascii_of_N 92.
Definition dquote : ascii := ascii_of_N 34.

Definition quote_char (c : ascii) (rest : string) : string :=
  let n := N_of_ascii c in
  if (n =? 8)%N then String backslash (String "b" rest)
  else if (n =? 9)%N then String backslash (String "t" rest)
  else if (n =? 10)%N then String backslash (String "n" rest)
  else if (n =? 12)%N then String backslash (String "f" rest)
  else if (n =? 13)%N then String backslash (String "r" rest)
  else if (n =? 34)%N then String backslash (String c rest)
  else if (n =? 92)%N then String backslash (String c rest)
  else if (n <? 32)%N then
    String backslash (String "u" (String "0" (String "0"
      (String (hex_digit (n / 16)) (String (hex_digit (n mod 16)) rest)))))
  else String c rest.

Fixpoint quote_body (s : string) : string :=
  match s with
  | EmptyString => String dquote EmptyString
  | String c r => quote_char c (quote_body r)
  end.

(** QuoteJSONString *)
Definition quote (s : string) : string := String dquote (quote_body s).

(** SerializeJSONProperty without a replacer or indentation: [None] is the
    [undefined] result of a value that has no JSON form.  A typed array is
    an object whose keys are its indices; the extra properties of an array
    are not printed. *)
Fixpoint stringify_value (v : value) : option string :=
  match v with
  | VUndefined | VFun _ _ => None
  | VNull => Some "null"
  | VBool true => Some "true"
  | VBool false => Some "false"
  | VNum (Finite z) => Some (string_of_Z z)
  | VNum _ => Some "null"
  | VStr s => Some (quote s)
  | VBytes bs =>
      Some ("{" ++ join ","
              (map (fun kv => quote (fst kv) ++ ":" ++ text_of (snd kv))
                   (indexed_from 0 (map byte_value bs))) ++ "}")
  | VArr _ items =>
      Some ("[" ++ join ","
              (map (fun i => match stringify_value i with
                             | Some t => t
                             | None => "null"
                             end) items) ++ "]")
  | VObj _ ps =>
      Some ("{" ++ join ","
              ((fix members (l : list (string * value)) : list string :=
                  match l with
                  | [] => []
                  | (k, x) :: rest =>
                      match stringify_value x with
                      | Some t => (quote k ++ ":" ++ t) :: members rest
                      | None => members rest
                      end
                  end) ps) ++ "}")
  end.

(** [JSON.stringify(v)] *)
Definition stringify (v : value) : value :=
  match stringify_value v with
  | Some t => VStr t
  | None => VUndefined
  end.

(** *** Parsing *)

Inductive parsed (A : Type) : Type :=
| Parsed (a : A) (rest : string)
| Invalid
| Exhausted.

Arguments Parsed {A} a rest.
Arguments Invalid {A}.
Arguments Exhausted {A}.

Definition is_ws (c : ascii) : bool :=
  let n := N_of_ascii c in
  ((n =? 9) || (n =? 10) || (n =? 13) || (n =? 32))%N.

Fixpoint skip_ws (s : string) : string :=
  match s with
  | String c r => if is_ws c then skip_ws r else s
  | EmptyString => s
  end.

Definition hex_value (c : ascii) : option N :=
  let n := N_of_ascii c in
  if ((48 <=? n) && (n <=? 57))%N then Some (n - 48)%N
  else if ((97 <=? n) && (n <=? 102))%N then Some (n - 87)%N
  else if ((65 <=? n) && (n <=? 70))%N then Some (n - 55)%N
  else None.

Definition unescape (c : ascii) : option ascii :=
  let n := N_of_ascii c in
  if (n =? 34)%N then Some c
  else if (n =? 92)%N then Some c
  else if (n =? 47)%N then Some c
  else if (n =? 98)%N then Some (ascii_of_N 8)
  else if (n =? 102)%N then Some (ascii_of_N 12)
  else if (n =? 110)%N then Some (ascii_of_N 10)
  else if (n =? 114)%N then Some (ascii_of_N 13)
  else if (n =? 116)%N then Some (ascii_of_N 9)
  else None.

(** The characters of a string literal after its opening quote, and the
    text after its closing quote.  An escape [\uXXXX] above 00ff names a code
    unit outside the 8-bit strings of the model and is not accepted. *)
Fixpoint parse_string (s : string) : option (string * string) :=
  match s with
  | EmptyString => None
  | String c r =>
      let n := N_of_ascii c in
      if (n =? 34)%N then Some (EmptyString, r)
      else if (n =? 92)%N then
        match r with
        | EmptyString => None
        | String e r1 =>
            if (N_of_ascii e =? 117)%N then
              match r1 with
              | String h1 (String h2 (String h3 (String h4 r2))) =>
                  match hex_value h1, hex_value h2, hex_value h3, hex_value h4 with
                  | Some 0%N, Some 0%N, Some a, Some b =>
                      match parse_string r2 with
                      | Some (str, rest) =>
                          Some (String (ascii_of_N (a * 16 + b)) str, rest)
                      | None => None
                      end
                  | _, _, _, _ => None
                  end
              | _ => None
              end
            else
              match unescape e with
              | Some c' =>
                  match parse_string r1 with
                  | Some (str, rest) => Some (String c' str, rest)
                  | None => None
                  end
              | None => None
              end
        end
      else if (n <? 32)%N then None
      else
        match parse_string r with
        | Some (str, rest) => Some (String c str, rest)
        | None => None
        end
  end.

Definition digit_of_char (c : ascii) : option (Decimal.uint -> Decimal.uint) :=
  let n := N_of_ascii c in
  if (n =? 48)%N then Some Decimal.D0
  else if (n =? 49)%N then Some Decimal.D1
  else if (n =? 50)%N then Some Decimal.D2
  else if (n =? 51)%N then Some Decimal.D3
  else if (n =? 52)%N then Some Decimal.D4
  else if (n =? 53)%N then Some Decimal.D5
  else if (n =? 54)%N then Some Decimal.D6
  else if (n =? 55)%N then Some Decimal.D7
  else if (n =? 56)%N then Some Decimal.D8
  else if (n =? 57)%N then Some Decimal.D9
  else None.

(** The longest prefix of decimal digits. *)
Fixpoint scan_digits (s : string) : Decimal.uint * string :=
  match s with
  | EmptyString => (Decimal.Nil, s)
  | String c r =>
      match digit_of_char c with
      | Some d => let (u, rest) := scan_digits r in (d u, rest)
      | None => (Decimal.Nil, s)
      end
  end.

(** A fraction or an exponent would follow. *)
Definition continues_number (s : string) : bool :=
  match s with
  | String c _ =>
      let n := N_of_ascii c in ((n =? 46) || (n =? 101) || (n =? 69))%N
  | EmptyString => false
  end.

(** An integer literal: an optional minus sign, then [0] or a digit string
    without leading zero.  Literals with a fraction or an exponent denote
    doubles outside the integer-valued numbers of the model and are not
    accepted. *)
Definition parse_number (s : string) : parsed value :=
  let (negative, s1) :=
    match s with
    | String c r => if (N_of_ascii c =? 45)%N then (true, r) else (false, s)
    | EmptyString => (false, s)
    end in
  let (u, rest) := scan_digits s1 in
  if Decimal.uint_beq (Decimal.unorm u) u && negb (continues_number rest) then
    Parsed (num (Z.of_int (if negative then Decimal.Neg u else Decimal.Pos u)))
           rest
  else Invalid.

Fixpoint strip_prefix (word s : string) {struct word} : option string :=
  match word with
  | EmptyString => Some s
  | String w word' =>
      match s with
      | String c r => if Ascii.eqb c w then strip_prefix word' r else None
      | EmptyString => None
      end
  end.

Definition parse_literal (word : string) (v : value) (s : string) : parsed value :=
  match strip_prefix word s with
  | Some rest => Parsed v rest
  | None => Invalid
  end.

Fixpoint parse_value (fuel : nat) (s : string) : parsed value :=
  match fuel with
  | O => Exhausted
  | S fuel' =>
      match skip_ws s with
      | EmptyString => Invalid
      | String c r =>
          let n := N_of_ascii c in
          if (n =? 123)%N then
            match skip_ws r with
            | String c' r' =>
                if (N_of_ascii c' =? 125)%N then Parsed (plain []) r'
                else parse_members fuel' r []
            | EmptyString => Invalid
            end
          else if (n =? 91)%N then
            match skip_ws r with
            | String c' r' =>
                if (N_of_ascii c' =? 93)%N then Parsed (VArr false []) r'
                else
                  match parse_elements fuel' r with
                  | Parsed items rest => Parsed (VArr false items) rest
                  | Invalid => Invalid
                  | Exhausted => Exhausted
                  end
            | EmptyString => Invalid
            end
          else if (n =? 34)%N then
            match parse_string r with
            | Some (str, rest) => Parsed (VStr str) rest
            | None => Invalid
            end
          else if (n =? 116)%N then parse_literal "true" (VBool true) (String c r)
          else if (n =? 102)%N then parse_literal "false" (VBool false) (String c r)
          else if (n =? 110)%N then parse_literal "null" VNull (String c r)
          else parse_number (String c r)
      end
  end

with parse_elements (fuel : nat) (s : string) : parsed (list value) :=
  match fuel with
  | O => Exhausted
  | S fuel' =>
      match parse_value fuel' s with
      | Parsed v r =>
          match skip_ws r with
          | String c r' =>
              if (N_of_ascii c =? 44)%N then
                match parse_elements fuel' r' with
                | Parsed items rest => Parsed (v :: items) rest
                | Invalid => Invalid
                | Exhausted => Exhausted
                end
              else if (N_of_ascii c =? 93)%N then Parsed [v] r'
              else Invalid
          | EmptyString => Invalid
          end
      | Invalid => Invalid
      | Exhausted => Exhausted
      end
  end

with parse_members (fuel : nat) (s : string) (acc : props) : parsed value :=
  match fuel with
  | O => Exhausted
  | S fuel' =>
      match skip_ws s with
      | String q r =>
          if (N_of_ascii q =? 34)%N then
            match parse_string r with
            | Some (k, r1) =>
                match skip_ws r1 with
                | String colon r2 =>
                    if (N_of_ascii colon =? 58)%N then
                      match parse_value fuel' r2 with
                      | Parsed v r3 =>
                          match skip_ws r3 with
                          | String c r4 =>
                              if (N_of_ascii c =? 44)%N
                              then parse_members fuel' r4 (obj_set acc k v)
                              else if (N_of_ascii c =? 125)%N
                              then Parsed (plain (obj_set acc k v)) r4
                              else Invalid
                          | EmptyString => Invalid
                          end
                      | Invalid => Invalid
                      | Exhausted => Exhausted
                      end
                    else Invalid
                | EmptyString => Invalid
                end
            | None => Invalid
            end
          else Invalid
      | EmptyString => Invalid
      end
  end.

(** [JSON.parse(text)]: one value, then only white space.  The parser
    spends at most two units of fuel for each character it consumes, so
    the fuel given here is never used up (see [parse_value_fuel]). *)
Definition parse (text : string) : result value :=
  match parse_value (2 * String.length text + 2) text with
  | Parsed v rest =>
      match skip_ws rest with
      | EmptyString => Ok v
      | String _ _ => Throw SyntaxError
      end
  | Invalid | Exhausted => Throw SyntaxError
  end.

End JSON.

(** ** The class [JSONFrameSerializer] *)

Definition base_fields : list string :=
  [ "id"; "name"; "pts"; "metadata"; "transport_source";
    "transport_destination" ].

Definition bytes_marker (key : string) : string := "__" ++ key ++ "_is_bytes__".
Definition tuple_marker (key : string) : string := "__" ++ key ++ "_is_tuple__".

(** [frame.constructor.name] *)
Definition constructor_name (frame : value) : result value :=
  c <- get frame "constructor" ;; get c "name".

(** [value instanceof Uint8Array] *)
Definition is_Uint8Array (v : value) : bool :=
  match v with VBytes _ => true | _ => false end.

(** [Array.isArray(value) && value.__isTuple__] *)
Definition is_tuple_array (v : value) : bool :=
  match v with VArr t _ => t | _ => false end.

(** [key in frameDict], for the plain object under construction. *)
Definition in_plain (key : string) (d : props) : bool :=
  has_key d key || mem_string key Object_prototype_keys.

(** [if (hasOwnProperty.call(frame, k)) frameDict[k] = frame[k];] *)
Definition copy_own (frame : value) (k : string) (d : props) : result props :=
  if hasOwnProperty frame k then x <- get frame k ;; Ok (assign d k x)
  else Ok d.

Section FrameToDict.

Variable serializeValue : value -> result value.

(** The body of the loop over the own properties of the frame. *)
Definition frameToDict_field (d : props) (key : string) (v : value)
  : result props :=
  if in_plain key d || startsWith key "___" || startsWith key "__" then Ok d
  else
    let d1 := if is_Uint8Array v then assign d (bytes_marker key) (VBool true)
              else d in
    let d2 := if is_tuple_array v then assign d1 (tuple_marker key) (VBool true)
              else d1 in
    sv <- serializeValue v ;;
    Ok (assign d2 key sv).

Fixpoint frameToDict_fields (ps : props) (d : props) : result props :=
  match ps with
  | [] => Ok d
  | (key, v) :: rest =>
      d' <- frameToDict_field d key v ;; frameToDict_fields rest d'
  end.

Definition frameToDict_with (frame : value) : result value :=
  name <- constructor_name frame ;;
  d <- copy_own frame "id" [("___frame___", name)] ;;
  d <- copy_own frame "name" d ;;
  d <- copy_own frame "pts" d ;;
  d <- copy_own frame "metadata" d ;;
  d <- copy_own frame "transport_source" d ;;
  d <- copy_own frame "transport_destination" d ;;
  d <- frameToDict_fields (own_enumerable frame) d ;;
  Ok (plain d).

(** [for (const key in value) result[key] = serializeValue(value[key])] *)
Fixpoint serialize_props (ps : props) (acc : props) : result props :=
  match ps with
  | [] => Ok acc
  | (key, v) :: rest =>
      sv <- serializeValue v ;; serialize_props rest (assign acc key sv)
  end.

Fixpoint serialize_items (items : list value) : result (list value) :=
  match items with
  | [] => Ok []
  | item :: rest =>
      x <- serializeValue item ;;
      xs <- serialize_items rest ;;
      Ok (x :: xs)
  end.

End FrameToDict.

Fixpoint _serializeValue {E : Engine} (v : value) : result value :=
  match v with
  | VNull => Ok VNull
  | VStr _ | VNum _ | VBool _ => Ok v
  | VBytes bs => s <- fromCharCode bs ;; Ok (VStr (btoa s))
  | VArr _ items =>
      xs <- serialize_items _serializeValue items ;; Ok (VArr false xs)
  | VObj cls ps =>
      is_frame <- js_in "___frame___" (VObj cls ps) ;;
      if (is_frame : bool) then frameToDict_with _serializeValue (VObj cls ps)
      else
        r <- serialize_props _serializeValue ps [] ;; Ok (plain r)
  | VUndefined | VFun _ _ => s <- ToString v ;; Ok (VStr s)
  end.

Definition _frameToDict {E : Engine} (frame : value) : result value :=
  frameToDict_with _serializeValue frame.

(** [if (k in frameDict) frame[k] = frameDict[k];] *)
Definition copy_in (frameDict : value) (k : string) (frame : props)
  : result props :=
  present <- js_in k frameDict ;;
  if (present : bool) then x <- get frameDict k ;; Ok (assign frame k x)
  else Ok frame.

(** [try { ... } catch (e) { handler }] *)
Definition try_catch {A : Type} (body : result A) (handler : error -> result A)
  : result A :=
  match body with
  | Ok a => Ok a
  | Throw e => handler e
  end.

Section DictToFrame.

Variable deserializeValue : value -> bool -> bool -> result value.

Definition dictToFrame_field (frameDict : value) (args : props)
           (key : string) (v : value) : result props :=
  if String.eqb key "___frame___" || startsWith key "___" || startsWith key "__"
  then Ok args
  else if mem_string key base_fields then Ok args
  else
    isBytesMarker <- get frameDict (bytes_marker key) ;;
    isTupleMarker <- get frameDict (tuple_marker key) ;;
    x <- deserializeValue v (truthy isBytesMarker) (truthy isTupleMarker) ;;
    Ok (assign args key x).

Fixpoint dictToFrame_fields (frameDict : value) (ps : props) (args : props)
  : result props :=
  match ps with
  | [] => Ok args
  | (key, v) :: rest =>
      args' <- dictToFrame_field frameDict args key v ;;
      dictToFrame_fields frameDict rest args'
  end.

Definition dictToFrame_with (frameDict : value) : result value :=
  frameTypeName <- get frameDict "___frame___" ;;
  if negb (truthy frameTypeName) then Ok VNull
  else
    try_catch
      (args <- dictToFrame_fields frameDict (own_enumerable frameDict) [] ;;
       let frame :=
         obj_set args "constructor" (plain [("name", frameTypeName)]) in
       frame <- copy_in frameDict "id" frame ;;
       frame <- copy_in frameDict "name" frame ;;
       frame <- copy_in frameDict "pts" frame ;;
       frame <- copy_in frameDict "metadata" frame ;;
       frame <- copy_in frameDict "transport_source" frame ;;
       frame <- copy_in frameDict "transport_destination" frame ;;
       Ok (plain frame))
      (fun _ => _ <- ToString frameTypeName ;; Ok VNull).

(** [for (const key in value) result[key] = deserializeValue(value[key])] *)
Fixpoint deserialize_props (ps : props) (acc : props) : result props :=
  match ps with
  | [] => Ok acc
  | (key, v) :: rest =>
      x <- deserializeValue v false false ;;
      deserialize_props rest (assign acc key x)
  end.

(** [for (const item of value) deserializedList.push(...)] *)
Fixpoint deserialize_items (items : list value) : result (list value) :=
  match items with
  | [] => Ok []
  | item :: rest =>
      x <- match item with
           | VObj cls ps =>
               is_frame <- js_in "___frame___" (VObj cls ps) ;;
               if (is_frame : bool) then dictToFrame_with (VObj cls ps)
               else deserializeValue item false false
           | _ => deserializeValue item false false
           end ;;
      xs <- deserialize_items rest ;;
      Ok (x :: xs)
  end.

End DictToFrame.

(** In the model an array or a typed array has no property [___frame___],
    so among the values whose [typeof] is ["object"] only an object can take
    the [_dictToFrame] branches. *)
Fixpoint _deserializeValue (v : value) (isBytes isTuple : bool) : result value :=
  match v with
  | VNull => Ok VNull
  | VStr _ =>
      if isBytes then
        binaryString <- atob v ;; Ok (VBytes (charCodes binaryString))
      else Ok v
  | VNum _ | VBool _ => Ok v
  | VArr _ items =>
      xs <- deserialize_items _deserializeValue items ;;
      Ok (VArr isTuple xs)
  | VObj cls ps =>
      is_frame <- js_in "___frame___" (VObj cls ps) ;;
      if (is_frame : bool) then dictToFrame_with _deserializeValue (VObj cls ps)
      else
        r <- deserialize_props _deserializeValue ps [] ;; Ok (plain r)
  | VBytes bs => Ok (plain (indexed_from 0 (map byte_value bs)))
  | VUndefined | VFun _ _ => Ok v
  end.

Definition _dictToFrame (frameDict : value) : result value :=
  dictToFrame_with _deserializeValue frameDict.

(** [new Int16Array(bytes.buffer)]: pairs of octets, low octet first, read
    in two's complement; a buffer of odd length is a RangeError. *)
Definition int16 (lo hi : byte) : Z :=
  let u := (Z.of_N (Byte.to_N lo) + 256 * Z.of_N (Byte.to_N hi))%Z in
  if (u <? 32768)%Z then u else (u - 65536)%Z.

Fixpoint Int16Array (bytes : list byte) : result (list Z) :=
  match bytes with
  | [] => Ok []
  | lo :: hi :: rest => xs <- Int16Array rest ;; Ok (int16 lo hi :: xs)
  | [_] => Throw RangeError
  end.

Record audio_frame : Type := {
  audio : list Z;
  sampleRate : value;
  numChannels : value
}.

Definition _deserializeAudio (frameDict : value) : result audio_frame :=
  a <- get frameDict "audio" ;;
  binaryString <- atob a ;;
  let bytes := charCodes binaryString in
  int16Array <- Int16Array bytes ;;
  sr <- get frameDict "sampleRate" ;;
  nc <- get frameDict "numChannels" ;;
  Ok {| audio := int16Array; sampleRate := sr; numChannels := nc |}.

Definition serialize {E : Engine} (frame : value) : result value :=
  match frame with
  | VNull => Ok VNull
  | _ =>
      try_catch
        (frameData <- _frameToDict frame ;; Ok (JSON.stringify frameData))
        (fun _ =>
           name <- constructor_name frame ;; _ <- ToString name ;; Ok VNull)
  end.

Definition serializeAudio {E : Engine} (data : list byte)
           (sample_rate num_channels : number) : result value :=
  binaryString <- fromCharCode data ;;
  let audioBase64 := btoa binaryString in
  Ok (JSON.stringify
        (plain [ ("___type___", VStr "audio"); ("audio", VStr audioBase64);
                 ("sample_rate", VNum sample_rate);
                 ("num_channels", VNum num_channels) ])).

Definition serializeMessage (msg : value) : value :=
  JSON.stringify (plain [ ("___type___", VStr "message"); ("message", msg) ]).

(** The three shapes of a decoded payload. *)
Inductive deserialized : Type :=
| Audio (samples : list Z)
| Message (message : value)
| Raw (message : value).

(** A promise after its executor has run. *)
Inductive promise (A : Type) : Type :=
| Resolved (a : A)
| Rejected (e : error)
| Pending.

Arguments Resolved {A} a.
Arguments Rejected {A} e.
Arguments Pending {A}.

(** [new Promise((resolve) => { ... })]: the executor either calls
    [resolve] with a value, returns without calling it, or throws. *)
Definition new_Promise {A : Type} (executor : result (option A)) : promise A :=
  match executor with
  | Ok (Some a) => Resolved a
  | Ok None => Pending
  | Throw e => Rejected e
  end.

Definition value_eqb_string (v : value) (s : string) : bool :=
  match v with VStr s' => String.eqb s' s | _ => false end.

(** [typeof data === 'string' ? JSON.parse(data) : data] *)
Definition payload_of (data : value) : result value :=
  match data with
  | VStr text => JSON.parse text
  | _ => Ok data
  end.

(** The [try] block of [deserialize]. *)
Definition deserialize_try (data : value) : result (option deserialized) :=
  frameDict <- payload_of data ;;
  frameType <- get frameDict "___type___" ;;
  if value_eqb_string frameType "audio" then
    d <- _deserializeAudio frameDict ;; Ok (Some (Audio (audio d)))
  else if value_eqb_string frameType "message" then
    m <- get frameDict "message" ;; Ok (Some (Message m))
  else
    frame <- _dictToFrame frameDict ;; Ok (Some (Raw frame)).

Definition deserialize (data : value) : promise deserialized :=
  new_Promise
    (try_catch (deserialize_try data) (fun _ => Ok (Some (Raw VNull)))).

(** ** The values of the data model

    [json_compatible] holds of the values that JSON text can carry as they
    are: null, booleans, finite numbers, strings, arrays without the tuple
    flag and plain objects without repeated keys. *)

Fixpoint nodup_keys (ps : props) : bool :=
  match ps with
  | [] => true
  | (k, _) :: rest => negb (has_key rest k) && nodup_keys rest
  end.

Definition is_plain_class (cls : option string) : bool :=
  match cls with
  | Some c => String.eqb c "Object"
  | None => false
  end.

Fixpoint json_compatible (v : value) : bool :=
  match v with
  | VNull | VBool _ | VStr _ | VNum (Finite _) => true
  | VArr t items => negb t && forallb json_compatible items
  | VObj cls ps =>
      is_plain_class cls && nodup_keys ps
      && (fix all (l : list (string * value)) : bool :=
            match l with
            | [] => true
            | (_, x) :: rest => json_compatible x && all rest
            end) ps
  | _ => false
  end.

Definition all_values (p : value -> bool) : props -> bool :=
  fix all (l : props) : bool :=
    match l with
    | [] => true
    | (_, x) :: rest => p x && all rest
    end.

Definition map_values (f : value -> value) : props -> props :=
  fix go (l : props) : props :=
    match l with
    | [] => []
    | (k, x) :: rest => (k, f x) :: go rest
    end.

(** A plain map of the data model: a plain object without repeated keys
    that is not frame-shaped and has no own [__proto__] key. *)
Definition plain_map (cls : option string) (ps : props) : bool :=
  is_plain_class cls && nodup_keys ps
  && negb (has_key ps "___frame___") && negb (has_key ps "__proto__").

(** [plain_data]: null, booleans, finite numbers, strings, and lists and
    plain maps of these.  [supported] adds binary blobs and tuple-flagged
    sequences at any depth. *)
Fixpoint plain_data (v : value) : bool :=
  match v with
  | VNull | VBool _ | VStr _ | VNum (Finite _) => true
  | VArr t items => negb t && forallb plain_data items
  | VObj cls ps => plain_map cls ps && all_values plain_data ps
  | _ => false
  end.

Fixpoint supported (v : value) : bool :=
  match v with
  | VNull | VBool _ | VStr _ | VNum (Finite _) | VBytes _ => true
  | VArr _ items => forallb supported items
  | VObj cls ps => plain_map cls ps && all_values supported ps
  | _ => false
  end.

(** What the codec makes of a value that is not directly a frame field: a
    blob becomes its base64 string and a tuple flag is dropped. *)
Fixpoint flatten (v : value) : value :=
  match v with
  | VBytes bs => VStr (btoa (binary_string bs))
  | VArr _ items => VArr false (map flatten items)
  | VObj cls ps => VObj cls (map_values flatten ps)
  | _ => v
  end.

(** What the codec makes of the value of a frame field: the markers restore
    a blob and a tuple flag at the top, and only there. *)
Definition restore (v : value) : value :=
  match v with
  | VBytes _ => v
  | VArr t items => VArr t (map flatten items)
  | _ => flatten v
  end.

(** The field values that come back as they went in. *)
Definition faithful (v : value) : bool :=
  match v with
  | VBytes _ => true
  | VArr _ items => forallb plain_data items
  | _ => plain_data v
  end.

(** ** Reading a frame envelope

    [field ps k] is what [frameDict[k]] reads from an object whose own
    properties are [ps]; [decode_field] is the call of [_deserializeValue]
    that [_dictToFrame] makes for the key [k], with the two markers it
    looks up beside it. *)

Definition field (ps : props) (k : string) : value :=
  match lookup ps k with Some x => x | None => VUndefined end.

Definition decode_field (ps : props) (k : string) (v : value) : result value :=
  _deserializeValue v (truthy (field ps (bytes_marker k)))
                    (truthy (field ps (tuple_marker k))).

(** The keys that [_dictToFrame] does not pass to [_deserializeValue]:
    markers and discriminators, and the well-known fields. *)
Definition reserved_key (k : string) : bool :=
  startsWith k "__" || mem_string k base_fields.

(** Every string field that carries a truthy bytes marker holds valid
    base64, so that no [atob] of the reconstruction throws. *)
Definition well_marked (ps : props) : bool :=
  forallb (fun kv =>
             match snd kv with
             | VStr s =>
                 reserved_key (fst kv)
                 || negb (truthy (field ps (bytes_marker (fst kv))))
                 || match Base64.atob s with Ok _ => true | Throw _ => false end
             | _ => true
             end) ps.

Definition unwrap (r : result value) : value :=
  match r with Ok x => x | Throw _ => VUndefined end.

(** The constructor arguments that [_dictToFrame] collects from the
    properties [qs] of the envelope [ps], and the frame it builds. *)
Definition decoded_fields (ps qs : props) : props :=
  map (fun kv => (fst kv, unwrap (decode_field ps (fst kv) (snd kv))))
      (List.filter (fun kv => negb (reserved_key (fst kv))) qs).

Definition copy_base (ps : props) (frame : props) (b : string) : props :=
  if has_key ps b then obj_set frame b (field ps b) else frame.

Definition decoded_frame (ps : props) : props :=
  fold_left (copy_base ps) base_fields
    (obj_set (decoded_fields ps ps) "constructor"
             (plain [("name", field ps "___frame___")])).

(** ** Writing a frame envelope *)


(** The fields of a frame that [_frameToDict] passes to [_serializeValue]:
    those that are not skipped as markers, as names that a plain object
    inherits, or as well-known fields (copied before the loop). *)
Definition serial_key (k : string) : bool :=
  negb (startsWith k "__") && negb (mem_string k Object_prototype_keys)
  && negb (mem_string k base_fields).

(** What the loop of [_frameToDict] adds to the envelope for one field. *)
Definition encode_entry {E : Engine} (kv : string * value) : props :=
  ((if is_Uint8Array (snd kv) then [(bytes_marker (fst kv), VBool true)] else [])
   ++ (if is_tuple_array (snd kv) then [(tuple_marker (fst kv), VBool true)]
       else [])
   ++ [(fst kv, unwrap (_serializeValue (snd kv)))])%list.

Definition encoded_fields {E : Engine} (qs : props) : props :=
  flat_map encode_entry (List.filter (fun kv => serial_key (fst kv)) qs).

Definition encoded_frame {E : Engine} (name : value) (ps : props) : props :=
  (fold_left (copy_base ps) base_fields [("___frame___", name)]
   ++ encoded_fields ps)%list.

(** [frame.constructor.name] can be read. *)
Definition readable_constructor (cls : option string) (ps : props) : bool :=
  match lookup ps "constructor" with
  | Some VUndefined | Some VNull => false
  | Some _ => true
  | None => match cls with Some _ => true | None => false end
  end.

(** No frame-shaped object inside the value lacks a readable constructor.
    Such an object and a blob too long to spread are the two ways for
    [_serializeValue] to throw. *)
Fixpoint constructible (v : value) : bool :=
  match v with
  | VArr _ items => forallb constructible items
  | VObj cls ps =>
      (negb (has_key ps "___frame___") || readable_constructor cls ps)
      && all_values constructible ps
  | _ => true
  end.

(** A value with no serialization rule of its own: [_serializeValue]
    reaches its last branch. *)
Definition unsupported (v : value) : bool :=
  match v with
  | VUndefined | VFun _ _ => true
  | _ => false
  end.

(** The frames whose fields come back as they went in: a well-known
    field holds a JSON-compatible value; any other field has a name that
    [_frameToDict] serializes and holds a faithful value. *)
Definition frame_fields_ok (ps : props) : bool :=
  forallb (fun kv =>
             if mem_string (fst kv) base_fields then json_compatible (snd kv)
             else serial_key (fst kv) && faithful (snd kv)) ps.

(** [decode(serialize(frame))] *)
Definition round_trip {E : Engine} (frame : value) : promise deserialized :=
  match serialize frame with
  | Ok payload => deserialize payload
  | Throw e => Rejected e
  end.

(** [decode(payload)] for the payload of an encoder that may throw. *)
Definition decode (payload : result value) : promise deserialized :=
  match payload with
  | Ok p => deserialize p
  | Throw e => Rejected e
  end.

(** The values whose binary blobs the engine can spread into a call. *)
Definition spreadable {E : Engine} (bs : list byte) : bool :=
  (N.of_nat (List.length bs) <=? max_arguments)%N.

Fixpoint within_limit {E : Engine} (v : value) : bool :=
  match v with
  | VBytes bs => spreadable bs
  | VArr _ items => forallb within_limit items
  | VObj _ ps => all_values within_limit ps
  | _ => true
  end.

(** ToString returns on the value. *)
Definition printable (v : value) : bool :=
  match ToString v with Ok _ => true | Throw _ => false end.

(** Every object inside the value has a printable frame-type tag
    ([undefined], when it has none), so that a nested envelope that cannot
    be rebuilt is logged and replaced by null. *)
Fixpoint tags_printable (v : value) : bool :=
  match v with
  | VArr _ items => forallb tags_printable items
  | VObj _ ps =>
      printable (field ps "___frame___") && all_values tags_printable ps
  | _ => true
  end.

(** The [catch] handler of [serialize] can build its message: the
    constructor name of the frame can be read and printed. *)
Definition loggable (frame : value) : bool :=
  match constructor_name frame with
  | Ok name => printable name
  | Throw _ => false
  end.

(** The envelope that [serializeAudio] prints. *)
Definition audio_payload (data : list byte) (rate channels : number) : props :=
  [ ("___type___", VStr "audio"); ("audio", VStr (btoa (binary_string data)));
    ("sample_rate", VNum rate); ("num_channels", VNum channels) ].

(** The engine of the examples: it accepts 65535 arguments in one call.
    A blob of 65536 octets is one too long for it. *)
Definition reference_engine : Engine := {| max_arguments := 65535 |}.

Definition long_blob : list byte := List.repeat x00 (256 * 256).

(** ** The reading of a printed value

    What [JSON.parse] returns on the text that [JSON.stringify] prints,
    and the shape of the texts the parser is followed on. *)

Module JSONImage.
Import JSON.

(** The text that may follow a value inside a document. *)
Definition delimited (rest : string) : bool :=
  match rest with
  | EmptyString => true
  | String c _ =>
      let n := N_of_ascii c in ((n =? 44) || (n =? 93) || (n =? 125))%N
  end.

(** What [JSON.parse] reads back from the text of a value. *)
Definition has_json (v : value) : bool :=
  match v with
  | VUndefined | VFun _ _ => false
  | _ => true
  end.

Definition define_all (entries acc : props) : props :=
  fold_left (fun a kv => obj_set a (fst kv) (snd kv)) entries acc.

Fixpoint jsonify (v : value) : value :=
  match v with
  | VNum (Finite z) => v
  | VNum _ => VNull
  | VBytes bs => plain (define_all (indexed_from 0 (map byte_value bs)) [])
  | VArr _ items =>
      VArr false (map (fun i => if has_json i then jsonify i else VNull) items)
  | VObj _ ps =>
      plain ((fix members (l : list (string * value)) (acc : props) : props :=
                match l with
                | [] => acc
                | (k, x) :: rest =>
                    if has_json x then members rest (obj_set acc k (jsonify x))
                    else members rest acc
                end) ps [])
  | _ => v
  end.

Definition no_digit (rest : string) : bool :=
  match rest with
  | EmptyString => true
  | String c _ => match digit_of_char c with Some _ => false | None => true end
  end.

Definition is_number_start (c : ascii) : bool :=
  (N_of_ascii c =? 45)%N
  || match digit_of_char c with Some _ => true | None => false end.

(** The first character of the text of a value: not white space and not a
    closing bracket. *)
Definition starts_value (s : string) : bool :=
  match s with
  | EmptyString => false
  | String c _ =>
      let n := N_of_ascii c in
      negb (is_ws c) && negb (n =? 93)%N && negb (n =? 125)%N
  end.

(** A text [t] reads back as the value [v]. *)
Definition parses (t : string) (v : value) : Prop :=
  (forall rest, starts_value (t ++ rest) = true)
  /\ exists F, forall fuel rest, (F <= fuel)%nat -> delimited rest = true ->
       parse_value fuel (t ++ rest) = Parsed v rest.

Definition member_text (e : string * string * value) : string :=
  quote (fst (fst e)) ++ ":" ++ snd (fst e).

Definition define_entries (entries : list (string * string * value))
           (acc : props) : props :=
  fold_left (fun a e => obj_set a (fst (fst e)) (snd e)) entries acc.

Definition element_text (i : value) : string :=
  match stringify_value i with Some t => t | None => "null" end.

Definition element_json (i : value) : value :=
  if has_json i then jsonify i else VNull.

Fixpoint object_entries (ps : props) : list (string * string * value) :=
  match ps with
  | [] => []
  | (k, x) :: rest =>
      match stringify_value x with
      | Some t => (k, t, jsonify x) :: object_entries rest
      | None => object_entries rest
      end
  end.

Definition entry_props (es : list (string * string * value)) : props :=
  map (fun e => (fst (fst e), snd e)) es.

End JSONImage.

(** ** Frames and envelopes used below *)

Definition text_envelope : props :=
  [("___frame___", VStr "TextFrame"); ("id", num 3); ("text", VStr "hi")].

Definition foo_envelope : props :=
  [("___frame___", VStr "TranscriptFrame"); ("__foo_is_bytes__", VBool true);
   ("foo", VStr "AQI="); ("text", VStr "hello")].

(** The frame-type key and the well-known fields of the envelope. *)
Definition envelope_head (name : value) (ps : props) : props :=
  fold_left (copy_base ps) base_fields [("___frame___", name)].

(** Where the keys of the envelope come from. *)
Definition key_origin (ps : props) (k0 : string) : Prop :=
  exists key, has_key ps key = true /\ startsWith key "__" = false
              /\ (k0 = key \/ k0 = bytes_marker key \/ k0 = tuple_marker key).

(** The keys that one field contributes to the envelope. *)
Definition slot (x k : string) : Prop :=
  x = k \/ x = bytes_marker k \/ x = tuple_marker k.

Definition callback_frame : props :=
  [("text", VStr "hi"); ("on_done", VFun "done" "() => 1")].

Definition transcript_frame : props :=
  [("text", VStr "hello"); ("final", VBool true); ("audio", VBytes [x01; x02]);
   ("id", num 7); ("span", VArr true [num 1; num 2]);
   ("words", VArr false [VStr "hel"; VStr "lo"; VNull]);
   ("extra", plain [("lang", VStr "en"); ("scores", VArr false [num 3])])].

(** ** Layouts, texts and frames of the further properties *)

(** The layout of a decoded frame: the fields other than the well-known
    ones in the order of the frame, the [constructor] property, and the
    well-known fields in the order in which [_dictToFrame] sets them. *)
Definition regular_fields (ps : props) : props :=
  List.filter (fun kv => negb (mem_string (fst kv) base_fields)) ps.

Definition well_known_fields (ps : props) : props :=
  flat_map (fun b => match lookup ps b with
                     | Some v => [(b, v)]
                     | None => []
                     end) base_fields.

Definition decoded_layout (T : string) (ps : props) : props :=
  (regular_fields ps ++ [("constructor", plain [("name", VStr T)])]
   ++ well_known_fields ps)%list.

(** The text of a payload, when [serialize] returned one. *)
Definition payload_text (payload : result value) : string :=
  match payload with
  | Ok (VStr text) => text
  | _ => EmptyString
  end.

Definition caption_frame : props :=
  [("text", VStr "hello"); ("pts", num 40); ("audio", VBytes [x01; x02]);
   ("span", VArr true [num 1; num 2]); ("id", num 7);
   ("words", VArr false [VStr "hel"; VStr "lo"])].

Definition shadowed_frame : props :=
  [("text", VStr "hi"); ("toString", VStr "shadow"); ("valueOf", num 1)].

Definition level_frame : props :=
  [("gain", VNum NaN); ("peak", VNum (Infinity false)); ("rms", num 3)].

Definition broken_envelope : props :=
  [("___frame___", VStr "DataFrame"); ("__raw_is_bytes__", VBool true);
   ("raw", VStr "!!"); ("text", VStr "hi")].

(** A field name that JavaScript treats as an array index.  Objects list
    such keys first, whatever the order of insertion; the frames and
    envelopes whose layout or text is compared below have none. *)
Definition is_digit (c : ascii) : bool :=
  ((48 <=? N_of_ascii c) && (N_of_ascii c <=? 57))%N.

Definition index_key (k : string) : bool :=
  match k with
  | EmptyString => false
  | _ => forallb is_digit (list_ascii_of_string k)
  end.

Definition named_fields (ps : props) : bool :=
  forallb (fun kv => negb (index_key (fst kv))) ps.

Definition audio_envelope : props :=
  [("___type___", VStr "audio"); ("audio", VStr "AQL//w==");
   ("sample_rate", num 16000); ("num_channels", num 1);
   ("___frame___", VStr "AudioFrame")].

Definition nested_bare_frame : props :=
  [("text", VStr "hi");
   ("inner", VObj None [("___frame___", VStr "TextFrame")])].

Definition session_instance : props :=
  [("user", VStr "ada"); ("turns", num 3)].

(** * Verification *)

(** ** Base64 *)

Ltac div_lia := zify; Z.to_euclidean_division_equations; lia.

Lemma list_ind3 (A : Type) (P : list A -> Prop) :
  P [] -> (forall a, P [a]) -> (forall a b, P [a; b]) ->
  (forall a b c l, P l -> P (a :: b :: c :: l)) ->
  forall l, P l.
Proof.
  intros H0 H1 H2 H3.
  fix IH 1. intros [|a [|b [|c l]]];
    [apply H0 | apply H1 | apply H2 | apply H3; apply IH].
Qed.

Module Base64Facts.
Import Base64.

Lemma sextet_char_roundtrip (n : N) :
  (n < 64)%N -> sextet_of_char (char_of_sextet n) = Some n.
Proof.
  intros H. destruct n as [|p]; [reflexivity|].
  do 6 (destruct p as [p|p|]; try reflexivity); exfalso; lia.
Qed.

Lemma sextet_char_plain (n : N) :
  (n < 64)%N ->
  is_ascii_whitespace (char_of_sextet n) = false
  /\ is_eq_sign (char_of_sextet n) = false.
Proof.
  intros H. destruct n as [|p]; [split; reflexivity|].
  do 6 (destruct p as [p|p|]; try (split; reflexivity)); exfalso; lia.
Qed.

Lemma sextets_bounded (l : list N) :
  Forall (fun a => a < 256)%N l -> Forall (fun n => n < 64)%N (sextets l).
Proof.
  induction l as [|a|a b|a b c rest IH] using list_ind3;
    intros H; cbn [sextets].
  - constructor.
  - inversion H; subst. repeat (constructor; [div_lia|]). constructor.
  - inversion H as [|? ? Ha H1]; subst. inversion H1; subst.
    repeat (constructor; [div_lia|]). constructor.
  - inversion H as [|? ? Ha H1]; subst. inversion H1 as [|? ? Hb H2]; subst.
    inversion H2 as [|? ? Hc H3]; subst.
    repeat (constructor; [div_lia|]). apply IH; assumption.
Qed.

Lemma octets_sextets (l : list N) :
  Forall (fun a => a < 256)%N l -> octets (sextets l) = l.
Proof.
  induction l as [|a|a b|a b c rest IH] using list_ind3;
    intros H; cbn [sextets octets].
  - reflexivity.
  - inversion H; subst. f_equal. div_lia.
  - inversion H as [|? ? Ha H1]; subst. inversion H1; subst.
    f_equal; [div_lia|]. f_equal. div_lia.
  - inversion H as [|? ? Ha H1]; subst. inversion H1 as [|? ? Hb H2]; subst.
    inversion H2 as [|? ? Hc H3]; subst.
    rewrite (IH H3).
    f_equal; [div_lia|]. f_equal; [div_lia|]. f_equal. div_lia.
Qed.

Lemma all_sextets_chars (ns : list N) :
  Forall (fun n => n < 64)%N ns ->
  all_sextets (map char_of_sextet ns) = Some ns.
Proof.
  induction 1 as [|n ns Hn _ IH]; cbn [map all_sextets]; [reflexivity|].
  rewrite (sextet_char_roundtrip Hn), IH. reflexivity.
Qed.

Lemma strip_padding_cons (c : ascii) (l : list ascii) :
  is_eq_sign c = false -> strip_padding (c :: l) = c :: strip_padding l.
Proof.
  intros Hc. destruct l as [|c1 [|c2 l]]; cbn [strip_padding].
  - rewrite Hc. reflexivity.
  - rewrite Hc. destruct (is_eq_sign c1); reflexivity.
  - reflexivity.
Qed.

Lemma padding_cases (n : nat) :
  padding n = [] \/ padding n = ["="%char] \/ padding n = ["="%char; "="%char].
Proof.
  induction n as [n IH] using (well_founded_induction lt_wf).
  destruct n as [|[|[|n]]]; cbn [padding];
    [auto | auto | auto | apply IH; lia].
Qed.

Lemma strip_padding_chars (ns : list N) (n : nat) :
  Forall (fun n => n < 64)%N ns ->
  strip_padding (map char_of_sextet ns ++ padding n)%list
  = map char_of_sextet ns.
Proof.
  induction 1 as [|x ns Hx _ IH]; cbn [map app].
  - destruct (padding_cases n) as [-> | [-> | ->]]; reflexivity.
  - rewrite strip_padding_cons by (apply sextet_char_plain; assumption).
    rewrite IH. reflexivity.
Qed.

Lemma filter_chars (ns : list N) (n : nat) :
  Forall (fun n => n < 64)%N ns ->
  List.filter (fun c => negb (is_ascii_whitespace c))
              (map char_of_sextet ns ++ padding n)%list
  = (map char_of_sextet ns ++ padding n)%list.
Proof.
  induction 1 as [|x ns Hx _ IH]; cbn [map app List.filter].
  - destruct (padding_cases n) as [-> | [-> | ->]]; reflexivity.
  - destruct (sextet_char_plain Hx) as [-> _]. cbn [negb]. rewrite IH.
    reflexivity.
Qed.

(** The padded text has a multiple of four characters, and what is left
    after the padding is removed is never one character past a multiple. *)
Lemma btoa_lengths (l : list N) :
  (exists q, List.length (sextets l) + List.length (padding (List.length l))
             = 4 * q)%nat
  /\ Nat.modulo (List.length (sextets l)) 4 <> 1%nat.
Proof.
  induction l as [|a|a b|a b c rest [[q Hq] Hm]] using list_ind3;
    cbn [sextets List.length padding].
  - split; [exists 0%nat; reflexivity | cbn; lia].
  - split; [exists 1%nat; reflexivity | cbn; lia].
  - split; [exists 1%nat; reflexivity | cbn; lia].
  - split.
    + exists (S q). lia.
    + change (S (S (S (S (List.length (sextets rest))))))
        with (4 + List.length (sextets rest))%nat.
      rewrite <- (Nat.Div0.add_mod_idemp_l 4 _ 4).
      exact Hm.
Qed.

Lemma octets_of_string (s : string) :
  Forall (fun a => a < 256)%N (map N_of_ascii (list_ascii_of_string s)).
Proof.
  induction s as [|c s IH]; cbn [list_ascii_of_string map]; constructor.
  - apply N_ascii_bounded.
  - exact IH.
Qed.

Lemma string_of_octets (s : string) :
  string_of_list_ascii
    (map ascii_of_N (map N_of_ascii (list_ascii_of_string s))) = s.
Proof.
  induction s as [|c s IH]; cbn [list_ascii_of_string map string_of_list_ascii].
  - reflexivity.
  - rewrite ascii_N_embedding, IH. reflexivity.
Qed.

(** [atob(btoa(s)) = s] *)
Lemma atob_btoa (s : string) : atob (btoa s) = Ok s.
Proof.
  unfold atob, btoa.
  rewrite list_ascii_of_string_of_list_ascii.
  set (l := map N_of_ascii (list_ascii_of_string s)).
  assert (Hl : Forall (fun a => a < 256)%N l) by apply octets_of_string.
  assert (Hs := sextets_bounded Hl).
  rewrite (filter_chars _ Hs).
  destruct (btoa_lengths l) as [[q Hq] Hm].
  rewrite length_app, length_map, Hq.
  replace (Nat.modulo (4 * q) 4) with 0%nat
    by (rewrite Nat.mul_comm, Nat.Div0.mod_mul; reflexivity).
  cbn [Nat.eqb].
  rewrite (strip_padding_chars _ Hs), length_map.
  destruct (Nat.eqb_spec (Nat.modulo (List.length (sextets l)) 4) 1) as [E|_];
    [contradiction|].
  rewrite (all_sextets_chars Hs), (octets_sextets Hl).
  unfold l. rewrite string_of_octets. reflexivity.
Qed.

End Base64Facts.

(** ** Strings *)

Lemma append_assoc (a b c : string) : (a ++ b) ++ c = a ++ (b ++ c).
Proof. induction a as [|x a IH]; cbn; [reflexivity | rewrite IH; reflexivity]. Qed.

Lemma append_nil_r (a : string) : a ++ "" = a.
Proof. induction a as [|x a IH]; cbn; [reflexivity | rewrite IH; reflexivity]. Qed.

Lemma length_append (a b : string) :
  String.length (a ++ b) = (String.length a + String.length b)%nat.
Proof. induction a as [|x a IH]; cbn; [reflexivity | rewrite IH; reflexivity]. Qed.

Lemma append_eq_length (a a' b b' : string) :
  String.length a = String.length a' -> a ++ b = a' ++ b' -> a = a' /\ b = b'.
Proof.
  revert a'. induction a as [|x a IH]; intros [|x' a'] Hl H;
    try discriminate Hl.
  - split; [reflexivity | exact H].
  - cbn in Hl, H. injection H as -> H. injection Hl as Hl.
    destruct (IH a' Hl H) as [-> ->]. split; reflexivity.
Qed.

Lemma bytes_marker_inj (k k' : string) :
  bytes_marker k = bytes_marker k' -> k = k'.
Proof.
  unfold bytes_marker. intros H. cbn [append] in H. injection H as H.
  assert (Hl := f_equal String.length H). rewrite !length_append in Hl.
  cbn [String.length] in Hl.
  apply append_eq_length in H; [apply H | lia].
Qed.

Lemma tuple_marker_inj (k k' : string) :
  tuple_marker k = tuple_marker k' -> k = k'.
Proof.
  unfold tuple_marker. intros H. cbn [append] in H. injection H as H.
  assert (Hl := f_equal String.length H). rewrite !length_append in Hl.
  cbn [String.length] in Hl.
  apply append_eq_length in H; [apply H | lia].
Qed.

Lemma bytes_marker_not_tuple (k k' : string) :
  bytes_marker k <> tuple_marker k'.
Proof.
  unfold bytes_marker, tuple_marker. intros H. cbn [append] in H.
  injection H as H.
  assert (Hl := f_equal String.length H). rewrite !length_append in Hl.
  cbn [String.length] in Hl.
  apply append_eq_length in H; [destruct H as [_ H]; discriminate H | lia].
Qed.

(** A marker is longer than any of the fixed keys of the codec. *)
Lemma marker_length (k : string) :
  (13 <= String.length (bytes_marker k))%nat
  /\ (13 <= String.length (tuple_marker k))%nat.
Proof.
  unfold bytes_marker, tuple_marker. rewrite !length_append.
  cbn [String.length]. lia.
Qed.

Lemma marker_not_short (k s : string) :
  (String.length s < 13)%nat -> bytes_marker k <> s /\ tuple_marker k <> s.
Proof.
  intros H. destruct (marker_length k) as [H1 H2].
  split; intros <-; lia.
Qed.

Lemma marker_dunder (k : string) :
  startsWith (bytes_marker k) "__" = true
  /\ startsWith (tuple_marker k) "__" = true.
Proof. split; reflexivity. Qed.

(** ** Property lists *)

Lemma has_key_cons (k k' : string) (v : value) (ps : props) :
  has_key ((k', v) :: ps) k = String.eqb k' k || has_key ps k.
Proof. unfold has_key. cbn [lookup]. destruct (String.eqb k' k); reflexivity. Qed.

Lemma lookup_app (ps qs : props) (k : string) :
  lookup (ps ++ qs)%list k
  = match lookup ps k with Some v => Some v | None => lookup qs k end.
Proof.
  induction ps as [|[k' v] ps IH]; cbn [app lookup]; [reflexivity|].
  destruct (String.eqb k' k); [reflexivity | exact IH].
Qed.

Lemma has_key_app (ps qs : props) (k : string) :
  has_key (ps ++ qs)%list k = has_key ps k || has_key qs k.
Proof.
  unfold has_key. rewrite lookup_app. destruct (lookup ps k); reflexivity.
Qed.

Lemma obj_set_fresh (ps : props) (k : string) (v : value) :
  has_key ps k = false -> obj_set ps k v = (ps ++ [(k, v)])%list.
Proof.
  induction ps as [|[k' v'] ps IH]; intros H; cbn [obj_set app];
    [reflexivity|].
  rewrite has_key_cons in H. apply orb_false_iff in H. destruct H as [H1 H2].
  rewrite H1, (IH H2). reflexivity.
Qed.

Lemma lookup_obj_set_same (ps : props) (k : string) (v : value) :
  lookup (obj_set ps k v) k = Some v.
Proof.
  induction ps as [|[k' v'] ps IH]; cbn [obj_set lookup].
  - rewrite String.eqb_refl. reflexivity.
  - destruct (String.eqb k' k) eqn:E; cbn [lookup]; rewrite E;
      [reflexivity | exact IH].
Qed.

Lemma lookup_obj_set_other (ps : props) (k k' : string) (v : value) :
  k <> k' -> lookup (obj_set ps k v) k' = lookup ps k'.
Proof.
  intros Hk. induction ps as [|[k0 v0] ps IH]; cbn [obj_set lookup].
  - destruct (String.eqb_spec k k'); [contradiction | reflexivity].
  - destruct (String.eqb_spec k0 k) as [->|]; cbn [lookup].
    + destruct (String.eqb_spec k k'); [contradiction | reflexivity].
    + destruct (String.eqb k0 k'); [reflexivity | exact IH].
Qed.

Lemma has_key_obj_set (ps : props) (k k' : string) (v : value) :
  has_key (obj_set ps k v) k' = String.eqb k k' || has_key ps k'.
Proof.
  unfold has_key. destruct (String.eqb_spec k k') as [->|Hn].
  - rewrite lookup_obj_set_same. reflexivity.
  - rewrite (lookup_obj_set_other _ _ Hn). reflexivity.
Qed.

Lemma nodup_keys_app (ps qs : props) :
  nodup_keys (ps ++ qs)%list
  = nodup_keys ps && nodup_keys qs
    && forallb (fun kv => negb (has_key qs (fst kv))) ps.
Proof.
  induction ps as [|[k v] ps IH]; cbn [app nodup_keys forallb fst].
  - rewrite andb_true_r. reflexivity.
  - rewrite IH, has_key_app, negb_orb.
    destruct (has_key ps k), (has_key qs k), (nodup_keys ps), (nodup_keys qs);
      reflexivity.
Qed.

Lemma Some_inj (A : Type) (a b : A) : Some a = Some b -> a = b.
Proof. congruence. Qed.

(** ** Induction on values *)

Lemma value_ind2 (P : value -> Prop) :
  P VUndefined -> P VNull -> (forall b, P (VBool b)) ->
  (forall n, P (VNum n)) -> (forall s, P (VStr s)) ->
  (forall bs, P (VBytes bs)) ->
  (forall t items, Forall P items -> P (VArr t items)) ->
  (forall cls ps, Forall (fun kv => P (snd kv)) ps -> P (VObj cls ps)) ->
  (forall name src, P (VFun name src)) ->
  forall v, P v.
Proof.
  intros Hu Hn Hb Hnum Hs Hbytes Harr Hobj Hfun.
  fix IH 1. intros [| |b|n|s|bs|t items|cls ps|name src].
  - exact Hu.
  - exact Hn.
  - apply Hb.
  - apply Hnum.
  - apply Hs.
  - apply Hbytes.
  - apply Harr. induction items as [|i items IHi]; constructor.
    + apply IH.
    + exact IHi.
  - apply Hobj. induction ps as [|[k x] ps IHp]; constructor.
    + apply IH.
    + exact IHp.
  - apply Hfun.
Qed.

(** ** JSON *)

Module JSONFacts.
Import JSON.
Import JSONImage.

Lemma quote_char_append (c : ascii) (x rest : string) :
  quote_char c x ++ rest = quote_char c (x ++ rest).
Proof.
  unfold quote_char.
  repeat match goal with
         | |- context [if ?b then _ else _] => destruct b
         end; reflexivity.
Qed.

Lemma parse_string_quote_char (c : ascii) (x : string) :
  parse_string (quote_char c x)
  = match parse_string x with
    | Some (str, rest) => Some (String c str, rest)
    | None => None
    end.
Proof.
  destruct c as [[] [] [] [] [] [] [] []]; reflexivity.
Qed.

Lemma parse_string_quote (s rest : string) :
  parse_string (quote_body s ++ rest) = Some (s, rest).
Proof.
  induction s as [|c s IH]; cbn [quote_body].
  - reflexivity.
  - rewrite quote_char_append, parse_string_quote_char, IH. reflexivity.
Qed.

Lemma scan_digits_print (u : Decimal.uint) (rest : string) :
  no_digit rest = true ->
  scan_digits (DecimalString.NilEmpty.string_of_uint u ++ rest) = (u, rest).
Proof.
  intros H. induction u; cbn [DecimalString.NilEmpty.string_of_uint append];
    try (cbn [scan_digits]; change (digit_of_char _) with (Some Decimal.D0)
         || fail); cbn; try (rewrite IHu; reflexivity).
  destruct rest as [|c r]; [reflexivity|].
  cbn [no_digit] in H. cbn [scan_digits].
  destruct (digit_of_char c); [discriminate | reflexivity].
Qed.

Lemma delimited_no_digit (rest : string) :
  delimited rest = true ->
  no_digit rest = true /\ continues_number rest = false.
Proof.
  destruct rest as [|c r]; [split; reflexivity|].
  destruct c as [[] [] [] [] [] [] [] []]; cbn; try discriminate;
    split; reflexivity.
Qed.

Lemma string_of_uint_head (u : Decimal.uint) :
  u <> Decimal.Nil ->
  exists c r, DecimalString.NilEmpty.string_of_uint u = String c r
              /\ digit_of_char c <> None /\ (N_of_ascii c =? 45)%N = false.
Proof.
  destruct u; [congruence | ..]; intros _; eexists; eexists;
    (split; [reflexivity | split; [discriminate | reflexivity]]).
Qed.

Lemma unorm_to_uint (p : positive) :
  Decimal.unorm (Pos.to_uint p) = Pos.to_uint p.
Proof.
  rewrite <- DecimalPos.Unsigned.to_of, DecimalPos.Unsigned.of_to.
  reflexivity.
Qed.

Lemma uint_beq_refl (u : Decimal.uint) : Decimal.uint_beq u u = true.
Proof. apply Decimal.internal_uint_dec_lb. reflexivity. Qed.

Lemma parse_number_print (z : Z) (rest : string) :
  delimited rest = true ->
  parse_number (string_of_Z z ++ rest) = Parsed (num z) rest.
Proof.
  intros Hd. destruct (delimited_no_digit _ Hd) as [Hn Hc].
  unfold string_of_Z. rewrite <- (DecimalZ.of_to z) at 2.
  destruct z as [|p|p]; cbn [Z.to_int DecimalString.NilZero.string_of_int].
  - cbn. destruct rest as [|c r]; [reflexivity|].
    cbn in Hn. cbn [scan_digits].
    destruct (digit_of_char c); [discriminate|].
    cbn. cbn in Hc. rewrite Hc. reflexivity.
  - assert (Hp := DecimalPos.Unsigned.to_uint_nonnil p).
    unfold DecimalString.NilZero.string_of_uint.
    replace (match Pos.to_uint p with
             | Decimal.Nil => "0"
             | _ => DecimalString.NilEmpty.string_of_uint (Pos.to_uint p)
             end)
      with (DecimalString.NilEmpty.string_of_uint (Pos.to_uint p))
      by (destruct (Pos.to_uint p); [congruence | reflexivity ..]).
    destruct (string_of_uint_head Hp) as (c & r & E & _ & Hm).
    unfold parse_number.
    assert (Hs := scan_digits_print (Pos.to_uint p) rest Hn).
    rewrite E in *. cbn [append]. rewrite Hm.
    cbn [append] in Hs. rewrite Hs.
    rewrite unorm_to_uint, uint_beq_refl, Hc. reflexivity.
  - unfold DecimalString.NilZero.string_of_uint.
    assert (Hp := DecimalPos.Unsigned.to_uint_nonnil p).
    replace (match Pos.to_uint p with
             | Decimal.Nil => "0"
             | _ => DecimalString.NilEmpty.string_of_uint (Pos.to_uint p)
             end)
      with (DecimalString.NilEmpty.string_of_uint (Pos.to_uint p))
      by (destruct (Pos.to_uint p); [congruence | reflexivity ..]).
    unfold parse_number. cbn [append].
    change (N_of_ascii "-" =? 45)%N with true. cbv iota.
    rewrite (scan_digits_print (Pos.to_uint p) rest Hn).
    rewrite unorm_to_uint, uint_beq_refl, Hc. reflexivity.
Qed.

Lemma string_of_Z_head (z : Z) :
  exists c r, string_of_Z z = String c r /\ is_number_start c = true.
Proof.
  unfold string_of_Z.
  destruct z as [|p|p]; cbn [Z.to_int DecimalString.NilZero.string_of_int].
  - eexists; eexists; split; reflexivity.
  - assert (Hp := DecimalPos.Unsigned.to_uint_nonnil p).
    destruct (string_of_uint_head Hp) as (c & r & E & Hd & Hm).
    exists c, r. split.
    + unfold DecimalString.NilZero.string_of_uint.
      destruct (Pos.to_uint p); [congruence | exact E ..].
    + unfold is_number_start. destruct (digit_of_char c); [|congruence].
      apply orb_true_r.
  - eexists; eexists; split; reflexivity.
Qed.

Lemma parse_value_number (fuel : nat) (c : ascii) (r : string) :
  is_number_start c = true ->
  parse_value (S fuel) (String c r) = parse_number (String c r).
Proof.
  destruct c as [[] [] [] [] [] [] [] []]; cbn; try discriminate; reflexivity.
Qed.

Lemma number_start_value (c : ascii) (r : string) :
  is_number_start c = true -> starts_value (String c r) = true.
Proof.
  destruct c as [[] [] [] [] [] [] [] []]; cbn; try discriminate; reflexivity.
Qed.

Lemma parses_number (z : Z) : parses (string_of_Z z) (num z).
Proof.
  destruct (string_of_Z_head z) as (c & r & E & Hc). split.
  - intros rest. rewrite E. apply number_start_value. exact Hc.
  - exists 1%nat. intros [|fuel] rest Hf Hd; [lia|].
    rewrite <- (parse_number_print z rest Hd). rewrite E. cbn [append].
    apply parse_value_number. exact Hc.
Qed.

Lemma parses_literal (v : value) (t : string) :
  (v = VNull /\ t = "null") \/ (v = VBool true /\ t = "true")
  \/ (v = VBool false /\ t = "false") ->
  parses t v.
Proof.
  intros [[-> ->] | [[-> ->] | [-> ->]]]; (split; [reflexivity|]);
    exists 1%nat; intros [|fuel] rest Hf _; (lia || reflexivity).
Qed.

Lemma parses_string (s : string) : parses (quote s) (VStr s).
Proof.
  split; [reflexivity|].
  exists 1%nat. intros [|fuel] rest Hf _; [lia|].
  unfold quote. cbn [append].
  change (parse_value (S fuel) (String dquote (quote_body s ++ rest)))
    with (match parse_string (quote_body s ++ rest) with
          | Some (str, r) => Parsed (VStr str) r
          | None => Invalid
          end).
  rewrite parse_string_quote. reflexivity.
Qed.

Lemma parse_value_array (fuel : nat) (x : string) :
  starts_value x = true ->
  parse_value (S fuel) (String "[" x)
  = match parse_elements fuel x with
    | Parsed items rest => Parsed (VArr false items) rest
    | Invalid => Invalid
    | Exhausted => Exhausted
    end.
Proof.
  destruct x as [|c r]; [discriminate|]. cbn [starts_value]. intros H.
  apply andb_prop in H. destruct H as [H H3]. apply andb_prop in H.
  destruct H as [H1 H2].
  apply negb_true_iff in H1, H2, H3.
  change (parse_value (S fuel) (String "[" (String c r)))
    with (match skip_ws (String c r) with
          | String c' r' =>
              if (N_of_ascii c' =? 93)%N then Parsed (VArr false []) r'
              else match parse_elements fuel (String c r) with
                   | Parsed items rest => Parsed (VArr false items) rest
                   | Invalid => Invalid
                   | Exhausted => Exhausted
                   end
          | EmptyString => Invalid
          end).
  cbn [skip_ws]. rewrite H1, H2. reflexivity.
Qed.

Lemma parse_value_object (fuel : nat) (x : string) :
  starts_value x = true ->
  parse_value (S fuel) (String "{" x) = parse_members fuel x [].
Proof.
  destruct x as [|c r]; [discriminate|]. cbn [starts_value]. intros H.
  apply andb_prop in H. destruct H as [H H3]. apply andb_prop in H.
  destruct H as [H1 H2].
  apply negb_true_iff in H1, H2, H3.
  change (parse_value (S fuel) (String "{" (String c r)))
    with (match skip_ws (String c r) with
          | String c' r' =>
              if (N_of_ascii c' =? 125)%N then Parsed (plain []) r'
              else parse_members fuel (String c r) []
          | EmptyString => Invalid
          end).
  cbn [skip_ws]. rewrite H1, H3. reflexivity.
Qed.

Lemma parse_elements_step (fuel : nat) (s : string) :
  parse_elements (S fuel) s
  = match parse_value fuel s with
    | Parsed v r =>
        match skip_ws r with
        | String c r' =>
            if (N_of_ascii c =? 44)%N then
              match parse_elements fuel r' with
              | Parsed items rest => Parsed (v :: items) rest
              | Invalid => Invalid
              | Exhausted => Exhausted
              end
            else if (N_of_ascii c =? 93)%N then Parsed [v] r'
            else Invalid
        | EmptyString => Invalid
        end
    | Invalid => Invalid
    | Exhausted => Exhausted
    end.
Proof. reflexivity. Qed.

Lemma parse_members_step (fuel : nat) (k x : string) (acc : props) :
  parse_members (S fuel) (quote k ++ String ":" x) acc
  = match parse_value fuel x with
    | Parsed v r3 =>
        match skip_ws r3 with
        | String c r4 =>
            if (N_of_ascii c =? 44)%N
            then parse_members fuel r4 (obj_set acc k v)
            else if (N_of_ascii c =? 125)%N
            then Parsed (plain (obj_set acc k v)) r4
            else Invalid
        | EmptyString => Invalid
        end
    | Invalid => Invalid
    | Exhausted => Exhausted
    end.
Proof.
  unfold quote. cbn [append].
  change (parse_members (S fuel)
            (String dquote (quote_body k ++ String ":" x)) acc)
    with (match parse_string (quote_body k ++ String ":" x) with
          | Some (k, r1) =>
              match skip_ws r1 with
              | String colon r2 =>
                  if (N_of_ascii colon =? 58)%N then
                    match parse_value fuel r2 with
                    | Parsed v r3 =>
                        match skip_ws r3 with
                        | String c r4 =>
                            if (N_of_ascii c =? 44)%N
                            then parse_members fuel r4 (obj_set acc k v)
                            else if (N_of_ascii c =? 125)%N
                            then Parsed (plain (obj_set acc k v)) r4
                            else Invalid
                        | EmptyString => Invalid
                        end
                    | Invalid => Invalid
                    | Exhausted => Exhausted
                    end
                  else Invalid
              | EmptyString => Invalid
              end
          | None => Invalid
          end).
  rewrite parse_string_quote. reflexivity.
Qed.

Lemma parse_elements_spec (entries : list (string * value)) :
  entries <> [] ->
  Forall (fun e => parses (fst e) (snd e)) entries ->
  exists F, forall fuel rest, (F <= fuel)%nat ->
    parse_elements fuel (join "," (map fst entries) ++ String "]" rest)
    = Parsed (map snd entries) rest.
Proof.
  induction entries as [|[t v] l IH]; [congruence|]. intros _ H.
  inversion H as [|? ? [_ [F HF]] Hl]; subst. cbn [fst snd] in HF.
  destruct l as [|e l].
  - exists (S F). intros [|fuel] rest Hf; [lia|].
    cbn [map join fst snd]. rewrite parse_elements_step.
    rewrite HF by (lia || reflexivity). reflexivity.
  - destruct (IH ltac:(discriminate) Hl) as [F' HF'].
    exists (S (Nat.max F F')). intros [|fuel] rest Hf; [lia|].
    change (join "," (map fst ((t, v) :: e :: l)))
      with (t ++ "," ++ join "," (map fst (e :: l))).
    rewrite !append_assoc. rewrite parse_elements_step.
    rewrite HF by (lia || reflexivity).
    cbn [append skip_ws is_ws]. cbn.
    rewrite HF' by lia. reflexivity.
Qed.

Lemma parse_members_spec (entries : list (string * string * value)) :
  entries <> [] ->
  Forall (fun e => parses (snd (fst e)) (snd e)) entries ->
  exists F, forall fuel rest acc, (F <= fuel)%nat ->
    parse_members fuel (join "," (map member_text entries) ++ String "}" rest)
                  acc
    = Parsed (plain (define_entries entries acc)) rest.
Proof.
  induction entries as [|[[k t] v] l IH]; [congruence|]. intros _ H.
  inversion H as [|? ? [_ [F HF]] Hl]; subst. cbn [fst snd] in HF.
  destruct l as [|e l].
  - exists (S F). intros [|fuel] rest acc Hf; [lia|].
    cbn [map join]. unfold member_text at 1. cbn [fst snd].
    rewrite !append_assoc. cbn [append]. rewrite parse_members_step.
    rewrite HF by (lia || reflexivity). reflexivity.
  - destruct (IH ltac:(discriminate) Hl) as [F' HF'].
    exists (S (Nat.max F F')). intros [|fuel] rest acc Hf; [lia|].
    change (join "," (map member_text ((k, t, v) :: e :: l)))
      with (member_text (k, t, v) ++ "," ++ join "," (map member_text (e :: l))).
    unfold member_text at 1. cbn [fst snd].
    rewrite !append_assoc. cbn [append]. rewrite parse_members_step.
    rewrite HF by (lia || reflexivity).
    cbn [skip_ws is_ws]. cbn.
    rewrite HF' by lia. reflexivity.
Qed.

Lemma has_json_stringify (v : value) :
  has_json v = match stringify_value v with Some _ => true | None => false end.
Proof.
  destruct v as [| |[]|[z| |]|s|bs|t items|cls ps|name src]; reflexivity.
Qed.

Lemma join_head (t : string) (l : list string) (x : string) :
  exists y, join "," (t :: l) ++ x = t ++ y.
Proof.
  destruct l as [|t' l].
  - exists x. reflexivity.
  - eexists. cbn [join]. rewrite append_assoc. reflexivity.
Qed.

Lemma parses_array (entries : list (string * value)) :
  Forall (fun e => parses (fst e) (snd e)) entries ->
  parses ("[" ++ join "," (map fst entries) ++ "]") (VArr false (map snd entries)).
Proof.
  intros H. split; [reflexivity|].
  destruct entries as [|e l].
  - exists 1%nat. intros [|fuel] rest Hf _; [lia | reflexivity].
  - destruct (parse_elements_spec (entries := e :: l) ltac:(discriminate) H)
      as [F HF].
    exists (S F). intros [|fuel] rest Hf _; [lia|].
    rewrite !append_assoc. cbn [append].
    rewrite parse_value_array.
    + rewrite HF by lia. reflexivity.
    + cbn [map]. destruct (join_head (fst e) (map fst l) (String "]" rest))
        as [y ->].
      inversion H as [|? ? [Hs _] _]; subst. apply Hs.
Qed.

Lemma parses_object (entries : list (string * string * value)) :
  Forall (fun e => parses (snd (fst e)) (snd e)) entries ->
  parses ("{" ++ join "," (map member_text entries) ++ "}")
         (plain (define_entries entries [])).
Proof.
  intros H. split; [reflexivity|].
  destruct entries as [|e l].
  - exists 1%nat. intros [|fuel] rest Hf _; [lia | reflexivity].
  - destruct (parse_members_spec (entries := e :: l) ltac:(discriminate) H)
      as [F HF].
    exists (S F). intros [|fuel] rest Hf _; [lia|].
    rewrite !append_assoc. cbn [append].
    rewrite parse_value_object.
    + rewrite HF by lia. reflexivity.
    + cbn [map].
      destruct (join_head (member_text e) (map member_text l)
                          (String "}" rest)) as [y ->].
      reflexivity.
Qed.

Lemma indexed_entries (n : nat) (bs : list byte) :
  let l := indexed_from n (map byte_value bs) in
  let entries := map (fun kv => (fst kv, text_of (snd kv), snd kv)) l in
  map (fun kv => quote (fst kv) ++ ":" ++ text_of (snd kv)) l
  = map member_text entries
  /\ Forall (fun e => parses (snd (fst e)) (snd e)) entries
  /\ forall acc, define_entries entries acc = define_all l acc.
Proof.
  revert n. induction bs as [|b bs IH]; intros n; cbn zeta.
  - repeat split. constructor.
  - destruct (IH (S n)) as (E1 & E2 & E3). cbn zeta in E1, E2, E3.
    cbn [map indexed_from]. repeat split.
    + f_equal. exact E1.
    + constructor; [|exact E2]. cbn [fst snd]. apply parses_number.
    + intros acc. unfold define_entries, define_all. cbn [fold_left fst snd].
      apply E3.
Qed.

Lemma stringify_bytes (bs : list byte) :
  stringify_value (VBytes bs)
  = Some ("{" ++ join ","
            (map (fun kv => quote (fst kv) ++ ":" ++ text_of (snd kv))
                 (indexed_from 0 (map byte_value bs))) ++ "}").
Proof. reflexivity. Qed.

Lemma stringify_array (t : bool) (items : list value) :
  stringify_value (VArr t items)
  = Some ("[" ++ join "," (map element_text items) ++ "]").
Proof. reflexivity. Qed.

Lemma members_entries (ps : props) :
  (fix members (l : list (string * value)) : list string :=
     match l with
     | [] => []
     | (k, x) :: rest =>
         match stringify_value x with
         | Some t => (quote k ++ ":" ++ t) :: members rest
         | None => members rest
         end
     end) ps
  = map member_text (object_entries ps).
Proof.
  induction ps as [|[k x] ps IH]; cbn [object_entries]; [reflexivity|].
  destruct (stringify_value x) as [tx|]; [|exact IH].
  cbn [map]. rewrite IH. reflexivity.
Qed.

Lemma stringify_object (cls : option string) (ps : props) :
  stringify_value (VObj cls ps)
  = Some ("{" ++ join "," (map member_text (object_entries ps)) ++ "}").
Proof.
  rewrite <- members_entries. reflexivity.
Qed.

Lemma jsonify_members (ps acc : props) :
  (fix members (l : list (string * value)) (acc : props) : props :=
     match l with
     | [] => acc
     | (k, x) :: rest =>
         if has_json x then members rest (obj_set acc k (jsonify x))
         else members rest acc
     end) ps acc
  = define_entries (object_entries ps) acc.
Proof.
  revert acc.
  induction ps as [|[k x] ps IH]; intros acc; cbn [object_entries];
    [reflexivity|].
  rewrite has_json_stringify.
  destruct (stringify_value x) as [tx|]; [|apply IH].
  unfold define_entries. cbn [fold_left fst snd]. apply IH.
Qed.

Lemma jsonify_object (cls : option string) (ps : props) :
  jsonify (VObj cls ps) = plain (define_entries (object_entries ps) []).
Proof.
  rewrite <- jsonify_members. reflexivity.
Qed.

Lemma jsonify_array (t : bool) (items : list value) :
  jsonify (VArr t items) = VArr false (map element_json items).
Proof. reflexivity. Qed.

(** The text of every value reads back as its JSON image. *)
Lemma stringify_parses (v : value) :
  forall t, stringify_value v = Some t -> parses t (jsonify v).
Proof.
  induction v as [| |b|n|s|bs|tf items IH|cls ps IH|name src]
    using value_ind2; intros t E.
  - discriminate.
  - injection E as <-. apply parses_literal. auto.
  - destruct b; injection E as <-; apply parses_literal; auto.
  - destruct n as [z| |neg]; injection E as <-; cbn [jsonify].
    + apply parses_number.
    + apply parses_literal. auto.
    + apply parses_literal. auto.
  - injection E as <-. apply parses_string.
  - rewrite stringify_bytes in E. apply Some_inj in E. subst t. cbn [jsonify].
    destruct (indexed_entries 0 bs) as (E1 & E2 & E3). cbn zeta in E1, E2, E3.
    rewrite E1, <- E3. apply parses_object. exact E2.
  - rewrite stringify_array in E. apply Some_inj in E. subst t.
    rewrite jsonify_array.
    set (entries := map (fun i => (element_text i, element_json i)) items).
    replace (map element_text items) with (map fst entries)
      by (unfold entries; rewrite map_map; reflexivity).
    replace (map element_json items) with (map snd entries)
      by (unfold entries; rewrite map_map; reflexivity).
    apply parses_array. unfold entries.
    clear entries. induction IH as [|i items Hi _ IHl]; cbn [map];
      constructor; [|exact IHl].
    cbn [fst snd]. unfold element_text, element_json.
    rewrite has_json_stringify.
    destruct (stringify_value i) as [ti|] eqn:Ei.
    + apply Hi. reflexivity.
    + apply parses_literal. auto.
  - rewrite stringify_object in E. apply Some_inj in E. subst t.
    rewrite jsonify_object.
    apply parses_object.
    induction IH as [|[k x] ps Hx _ IHl]; cbn [object_entries];
      [constructor|].
    cbn [snd] in Hx.
    destruct (stringify_value x) as [tx|] eqn:Ex; [|exact IHl].
    constructor; [|exact IHl]. cbn [fst snd]. apply Hx. reflexivity.
  - discriminate.
Qed.

(** *** The parser is total: the fuel of [parse] is never used up *)

Ltac break_hyp H :=
  repeat match type of H with
         | context [match ?x with _ => _ end] =>
             let E := fresh "E" in destruct x eqn:E; try discriminate H
         end.

Lemma skip_ws_length (s : string) :
  (String.length (skip_ws s) <= String.length s)%nat.
Proof.
  induction s as [|c s IH]; cbn [skip_ws]; [lia|].
  destruct (is_ws c); cbn [String.length]; lia.
Qed.

Lemma skip_ws_cons (s r : string) (c : ascii) :
  skip_ws s = String c r -> (String.length r < String.length s)%nat.
Proof.
  intros E. assert (H := skip_ws_length s). rewrite E in H.
  cbn [String.length] in H. lia.
Qed.

Lemma parse_string_length (s : string) :
  forall str r, parse_string s = Some (str, r) ->
                (String.length r < String.length s)%nat.
Proof.
  remember (String.length s) as n eqn:En.
  assert (Hn : (String.length s <= n)%nat) by lia. clear En.
  revert s Hn. induction n as [|n IH]; intros s Hn str r H.
  - destruct s; [discriminate | cbn in Hn; lia].
  - destruct s as [|c s]; [discriminate|]. cbn [String.length] in *.
    cbn [parse_string] in H. break_hyp H;
      subst; cbn [String.length] in *;
      try match goal with
          | E : parse_string _ = Some _ |- _ => apply IH in E; [|lia]
          end;
      injection H as _ <-; lia.
Qed.

Lemma scan_digits_length (s : string) :
  forall u r, scan_digits s = (u, r) ->
    (String.length r <= String.length s)%nat
    /\ (u <> Decimal.Nil -> (String.length r < String.length s)%nat).
Proof.
  induction s as [|c s IH]; intros u r H; cbn [scan_digits] in H.
  - injection H as <- <-. split; [lia | congruence].
  - destruct (digit_of_char c) as [d|].
    + destruct (scan_digits s) as [u' r'] eqn:E.
      injection H as <- <-. destruct (IH _ _ eq_refl) as [H1 _].
      cbn [String.length]. split; lia.
    + injection H as <- <-. split; [lia | congruence].
Qed.

Lemma parse_number_length (s : string) (v : value) (r : string) :
  parse_number s = Parsed v r -> (String.length r < String.length s)%nat.
Proof.
  unfold parse_number. intros H.
  assert (G : forall s1, (String.length s1 <= String.length s)%nat ->
              forall neg,
              (let (u, rest) := scan_digits s1 in
               if Decimal.uint_beq (Decimal.unorm u) u
                  && negb (continues_number rest)
               then Parsed (num (Z.of_int (if neg : bool then Decimal.Neg u
                                           else Decimal.Pos u))) rest
               else Invalid) = Parsed v r ->
              (String.length r < String.length s)%nat).
  { intros s1 Hs neg G. destruct (scan_digits s1) as [u rest] eqn:E.
    destruct (scan_digits_length _ E) as [_ H2].
    destruct (Decimal.uint_beq (Decimal.unorm u) u) eqn:Eu; [|discriminate].
    destruct (negb (continues_number rest)); [|discriminate].
    injection G as _ <-.
    assert (u <> Decimal.Nil) by (intros ->; discriminate).
    specialize (H2 ltac:(assumption)). lia. }
  destruct s as [|c s]; [apply (G "" ltac:(lia) false H)|].
  destruct (N_of_ascii c =? 45)%N.
  - apply (G s ltac:(cbn; lia) true H).
  - apply (G (String c s) ltac:(lia) false H).
Qed.

Lemma strip_prefix_length (w s r : string) :
  strip_prefix w s = Some r ->
  String.length s = (String.length w + String.length r)%nat.
Proof.
  revert s. induction w as [|c w IH]; intros s H; cbn [strip_prefix] in H.
  - injection H as <-. reflexivity.
  - destruct s as [|c' s]; [discriminate|].
    destruct (Ascii.eqb c' c); [|discriminate].
    cbn [String.length]. rewrite (IH _ H). reflexivity.
Qed.

Lemma parse_literal_length (w : string) (v v' : value) (s r : string) :
  w <> "" -> parse_literal w v s = Parsed v' r ->
  (String.length r < String.length s)%nat.
Proof.
  unfold parse_literal. intros Hw H.
  destruct (strip_prefix w s) as [rest|] eqn:E; [|discriminate].
  injection H as _ <-. rewrite (strip_prefix_length _ _ E).
  destruct w; [congruence | cbn; lia].
Qed.

Ltac shorter :=
  repeat match goal with
         | E : skip_ws _ = String _ _ |- _ => apply skip_ws_cons in E
         | E : parse_string _ = Some _ |- _ => apply parse_string_length in E
         | E : parse_number _ = Parsed _ _ |- _ => apply parse_number_length in E
         | E : parse_literal _ _ _ = Parsed _ _ |- _ =>
             apply parse_literal_length in E; [|discriminate]
         end.

(** Every parser consumes at least one character. *)
Lemma parse_length (fuel : nat) :
  (forall s v r, parse_value fuel s = Parsed v r ->
                 (String.length r < String.length s)%nat)
  /\ (forall s l r, parse_elements fuel s = Parsed l r ->
                    (String.length r < String.length s)%nat)
  /\ (forall s acc v r, parse_members fuel s acc = Parsed v r ->
                        (String.length r < String.length s)%nat).
Proof.
  induction fuel as [|fuel (IHv & IHe & IHm)].
  - repeat split; intros; discriminate.
  - repeat split.
    + intros s v r H. cbn [parse_value] in H. break_hyp H;
        try (injection H as _ <-);
        repeat match goal with
               | E : parse_elements fuel _ = Parsed _ _ |- _ => apply IHe in E
               | E : parse_members fuel _ _ = Parsed _ _ |- _ => apply IHm in E
               end;
        shorter; cbn [String.length] in *; lia.
    + intros s l r H. rewrite parse_elements_step in H. break_hyp H;
        try (injection H as _ <-);
        repeat match goal with
               | E : parse_elements fuel _ = Parsed _ _ |- _ => apply IHe in E
               | E : parse_value fuel _ = Parsed _ _ |- _ => apply IHv in E
               end;
        shorter; cbn [String.length] in *; lia.
    + intros s acc v r H. cbn [parse_members] in H. break_hyp H;
        try (injection H as _ <-);
        repeat match goal with
               | E : parse_members fuel _ _ = Parsed _ _ |- _ => apply IHm in E
               | E : parse_value fuel _ = Parsed _ _ |- _ => apply IHv in E
               end;
        shorter; cbn [String.length] in *; lia.
Qed.

Ltac break_goal :=
  repeat match goal with
         | |- context [match ?x with _ => _ end] =>
             let E := fresh "E" in destruct x eqn:E
         end.

Lemma parse_number_total (s : string) : parse_number s <> Exhausted.
Proof. unfold parse_number. break_goal; discriminate. Qed.

Lemma parse_literal_total (w : string) (v : value) (s : string) :
  parse_literal w v s <> Exhausted.
Proof. unfold parse_literal. break_goal; discriminate. Qed.

(** Two units of fuel for each character are enough. *)
Lemma parse_value_fuel (fuel : nat) :
  (forall s, (2 * String.length s < fuel)%nat ->
             parse_value fuel s <> Exhausted)
  /\ (forall s, (2 * String.length s + 1 < fuel)%nat ->
                parse_elements fuel s <> Exhausted)
  /\ (forall s acc, (2 * String.length s + 1 < fuel)%nat ->
                    parse_members fuel s acc <> Exhausted).
Proof.
  induction fuel as [|fuel (IHv & IHe & IHm)].
  - repeat split; intros; lia.
  - repeat split.
    + intros s Hs. cbn [parse_value].
      destruct (skip_ws s) as [|c r] eqn:E0; [discriminate|].
      apply skip_ws_cons in E0.
      repeat match goal with
             | |- (if ?b then _ else _) <> _ => destruct b
             end;
        try apply parse_number_total; try apply parse_literal_total.
      * destruct (skip_ws r) as [|c' r']; [discriminate|].
        destruct (N_of_ascii c' =? 125)%N; [discriminate|].
        apply IHm. lia.
      * destruct (skip_ws r) as [|c' r']; [discriminate|].
        destruct (N_of_ascii c' =? 93)%N; [discriminate|].
        assert (G : parse_elements fuel r <> Exhausted) by (apply IHe; lia).
        destruct (parse_elements fuel r); congruence.
      * destruct (parse_string r) as [[str rest]|]; discriminate.
    + intros s Hs. rewrite parse_elements_step.
      assert (G : parse_value fuel s <> Exhausted) by (apply IHv; lia).
      destruct (parse_value fuel s) as [v r| |] eqn:Ev; [|discriminate|congruence].
      apply (proj1 (parse_length fuel)) in Ev.
      destruct (skip_ws r) as [|c r'] eqn:E1; [discriminate|].
      apply skip_ws_cons in E1.
      destruct (N_of_ascii c =? 44)%N.
      * assert (G' : parse_elements fuel r' <> Exhausted) by (apply IHe; lia).
        destruct (parse_elements fuel r'); congruence.
      * destruct (N_of_ascii c =? 93)%N; discriminate.
    + intros s acc Hs. cbn [parse_members].
      destruct (skip_ws s) as [|q r] eqn:E0; [discriminate|].
      apply skip_ws_cons in E0.
      destruct (N_of_ascii q =? 34)%N; [|discriminate].
      destruct (parse_string r) as [[k r1]|] eqn:E1; [|discriminate].
      apply parse_string_length in E1.
      destruct (skip_ws r1) as [|colon r2] eqn:E2; [discriminate|].
      apply skip_ws_cons in E2.
      destruct (N_of_ascii colon =? 58)%N; [|discriminate].
      assert (G : parse_value fuel r2 <> Exhausted) by (apply IHv; lia).
      destruct (parse_value fuel r2) as [v r3| |] eqn:Ev;
        [|discriminate|congruence].
      apply (proj1 (parse_length fuel)) in Ev.
      destruct (skip_ws r3) as [|c r4] eqn:E3; [discriminate|].
      apply skip_ws_cons in E3.
      destruct (N_of_ascii c =? 44)%N; [apply IHm; lia|].
      destruct (N_of_ascii c =? 125)%N; discriminate.
Qed.

(** More fuel does not change a result that did not run out of fuel. *)
Lemma parse_fuel_stable (fuel : nat) :
  forall fuel', (fuel <= fuel')%nat ->
  (forall s, parse_value fuel s <> Exhausted ->
             parse_value fuel' s = parse_value fuel s)
  /\ (forall s, parse_elements fuel s <> Exhausted ->
                parse_elements fuel' s = parse_elements fuel s)
  /\ (forall s acc, parse_members fuel s acc <> Exhausted ->
                    parse_members fuel' s acc = parse_members fuel s acc).
Proof.
  induction fuel as [|fuel IH]; intros fuel' Hle.
  - repeat split; intros; cbn in *; congruence.
  - destruct fuel' as [|fuel']; [lia|].
    destruct (IH fuel' ltac:(lia)) as (IHv & IHe & IHm).
    repeat split.
    + intros s H. cbn [parse_value] in *.
      destruct (skip_ws s) as [|c r]; [reflexivity|].
      repeat match goal with
             | |- (if ?b then _ else _) = _ => destruct b
             end; try reflexivity.
      * destruct (skip_ws r) as [|c' r']; [reflexivity|].
        destruct (N_of_ascii c' =? 125)%N; [reflexivity|].
        apply IHm. exact H.
      * destruct (skip_ws r) as [|c' r']; [reflexivity|].
        destruct (N_of_ascii c' =? 93)%N; [reflexivity|].
        rewrite IHe; [reflexivity|].
        destruct (parse_elements fuel r); congruence.
    + intros s H. rewrite !parse_elements_step in *.
      rewrite IHv by (destruct (parse_value fuel s); congruence).
      destruct (parse_value fuel s) as [v r| |]; try reflexivity.
      destruct (skip_ws r) as [|c r']; [reflexivity|].
      destruct (N_of_ascii c =? 44)%N; [|reflexivity].
      rewrite IHe; [reflexivity|].
      destruct (parse_elements fuel r'); congruence.
    + intros s acc H. cbn [parse_members] in *.
      destruct (skip_ws s) as [|q r]; [reflexivity|].
      destruct (N_of_ascii q =? 34)%N; [|reflexivity].
      destruct (parse_string r) as [[k r1]|]; [|reflexivity].
      destruct (skip_ws r1) as [|colon r2]; [reflexivity|].
      destruct (N_of_ascii colon =? 58)%N; [|reflexivity].
      rewrite IHv by (destruct (parse_value fuel r2); congruence).
      destruct (parse_value fuel r2) as [v r3| |]; try reflexivity.
      destruct (skip_ws r3) as [|c r4]; [reflexivity|].
      destruct (N_of_ascii c =? 44)%N; [|reflexivity].
      apply IHm. exact H.
Qed.

(** [JSON.parse(JSON.stringify(v))] is the JSON image of [v]. *)
Theorem parse_stringify (v : value) (t : string) :
  stringify_value v = Some t -> parse t = Ok (jsonify v).
Proof.
  intros E. destruct (stringify_parses v E) as [_ [F HF]].
  unfold parse.
  set (fuel := (2 * String.length t + 2)%nat).
  assert (H1 : parse_value fuel t <> Exhausted)
    by (apply (proj1 (parse_value_fuel fuel)); unfold fuel; lia).
  assert (H2 := proj1 (parse_fuel_stable (fuel := fuel)
                         (fuel' := Nat.max F fuel) ltac:(lia)) t H1).
  rewrite <- H2.
  rewrite <- (append_nil_r t) at 1.
  rewrite HF by (lia || reflexivity). reflexivity.
Qed.

(** *** JSON-compatible values are their own JSON image *)

Lemma define_all_fresh (l acc : props) :
  nodup_keys (acc ++ l)%list = true -> define_all l acc = (acc ++ l)%list.
Proof.
  revert acc. induction l as [|[k v] l IH]; intros acc H;
    unfold define_all; cbn [fold_left fst snd].
  - rewrite app_nil_r. reflexivity.
  - assert (Hk : has_key acc k = false).
    { rewrite nodup_keys_app in H. apply andb_prop in H. destruct H as [_ H].
      clear IH. induction acc as [|[k' v'] acc IHa]; [reflexivity|].
      cbn [forallb fst] in H. apply andb_prop in H. destruct H as [H1 H2].
      rewrite has_key_cons in *. apply negb_true_iff in H1.
      apply orb_false_iff in H1. destruct H1 as [H1 _].
      rewrite String.eqb_sym, H1. apply IHa. exact H2. }
    rewrite obj_set_fresh by exact Hk.
    change (fold_left _ l ?a) with (define_all l a).
    rewrite IH; rewrite <- app_assoc; [reflexivity | exact H].
Qed.

Lemma jsonify_compatible (v : value) :
  json_compatible v = true -> jsonify v = v.
Proof.
  induction v as [| |b|n|s|bs|tf items IH|cls ps IH|name src]
    using value_ind2; intros H; try discriminate H; try reflexivity.
  - destruct n; [reflexivity | discriminate H ..].
  - cbn [json_compatible] in H. apply andb_prop in H. destruct H as [Ht Hi].
    apply negb_true_iff in Ht. subst tf. rewrite jsonify_array. f_equal.
    induction IH as [|i items Hx _ IHl]; [reflexivity|].
    cbn [forallb] in Hi. apply andb_prop in Hi. destruct Hi as [H1 H2].
    cbn [map]. rewrite (IHl H2). f_equal.
    unfold element_json. rewrite (Hx H1).
    destruct i; try reflexivity; discriminate H1.
  - cbn [json_compatible] in H. apply andb_prop in H. destruct H as [H Ha].
    apply andb_prop in H. destruct H as [Hc Hn].
    rewrite jsonify_object. unfold plain. f_equal.
    + destruct cls as [c|]; [|discriminate]. cbn in Hc.
      apply String.eqb_eq in Hc. subst c. reflexivity.
    + assert (E : map (fun e => (fst (fst e), snd e)) (object_entries ps) = ps).
      { clear Hn. induction IH as [|[k x] ps Hx _ IHl]; [reflexivity|].
        apply andb_prop in Ha. destruct Ha as [H1 H2]. cbn [snd] in Hx.
        cbn [object_entries].
        assert (Hj := has_json_stringify x).
        destruct (stringify_value x) as [tx|].
        - cbn [map fst snd]. rewrite (Hx H1), (IHl H2). reflexivity.
        - destruct x; try discriminate Hj; discriminate H1. }
      assert (G : forall es acc,
                 define_entries es acc
                 = define_all (map (fun e => (fst (fst e), snd e)) es) acc).
      { induction es as [|e es IHe]; intros acc; [reflexivity|].
        unfold define_entries, define_all. cbn [map fold_left fst snd].
        apply IHe. }
      rewrite G, E. apply define_all_fresh. exact Hn.
Qed.

Lemma define_entries_all (es : list (string * string * value)) (acc : props) :
  define_entries es acc = define_all (entry_props es) acc.
Proof.
  revert acc. induction es as [|e es IH]; intros acc; [reflexivity|].
  unfold define_entries, define_all, entry_props.
  cbn [map fold_left fst snd]. apply IH.
Qed.

Lemma lookup_entry_props (ps : props) (k : string) :
  nodup_keys ps = true ->
  lookup (entry_props (object_entries ps)) k
  = match lookup ps k with
    | Some x => if has_json x then Some (jsonify x) else None
    | None => None
    end.
Proof.
  induction ps as [|[k' x] ps IH]; intros Hn; [reflexivity|].
  cbn [nodup_keys] in Hn. apply andb_prop in Hn. destruct Hn as [Hk Hn].
  apply negb_true_iff in Hk.
  cbn [object_entries lookup].
  destruct (String.eqb_spec k' k) as [->|Hne].
  - rewrite (has_json_stringify x).
    destruct (stringify_value x) as [t|]; cbn [entry_props map fst snd lookup].
    + rewrite String.eqb_refl. reflexivity.
    + fold (entry_props (object_entries ps)). rewrite (IH Hn).
      unfold has_key in Hk. destruct (lookup ps k); [discriminate | reflexivity].
  - destruct (stringify_value x) as [t|]; cbn [entry_props map fst snd lookup].
    + destruct (String.eqb_spec k' k); [contradiction | apply IH; exact Hn].
    + apply IH. exact Hn.
Qed.

Lemma nodup_entry_props (ps : props) :
  nodup_keys ps = true -> nodup_keys (entry_props (object_entries ps)) = true.
Proof.
  induction ps as [|[k x] ps IH]; intros Hn; [reflexivity|].
  cbn [nodup_keys] in Hn. apply andb_prop in Hn. destruct Hn as [Hk Hn].
  cbn [object_entries].
  destruct (stringify_value x) as [t|]; [|apply IH; exact Hn].
  cbn [entry_props map fst snd nodup_keys].
  fold (entry_props (object_entries ps)). rewrite (IH Hn), andb_true_r.
  apply negb_true_iff in Hk. apply negb_true_iff.
  unfold has_key in *. rewrite (lookup_entry_props ps k Hn).
  destruct (lookup ps k); [discriminate | reflexivity].
Qed.

(** The JSON image of a plain object without repeated keys, by lookups. *)
Lemma jsonify_plain (ps : props) :
  nodup_keys ps = true ->
  exists ps', jsonify (plain ps) = plain ps'
    /\ nodup_keys ps' = true
    /\ forall k, lookup ps' k
                 = match lookup ps k with
                   | Some x => if has_json x then Some (jsonify x) else None
                   | None => None
                   end.
Proof.
  intros Hn. exists (entry_props (object_entries ps)).
  unfold plain. rewrite jsonify_object, define_entries_all.
  rewrite define_all_fresh by (apply nodup_entry_props; exact Hn).
  repeat split.
  - apply nodup_entry_props. exact Hn.
  - intros k. apply lookup_entry_props. exact Hn.
Qed.

End JSONFacts.

(** ** The codec, for every engine *)

Section Codec.

Context {engine : Engine}.

(** ** The envelopes of audio buffers and messages *)

Lemma stringify_plain (ps : props) :
  exists t, JSON.stringify (plain ps) = VStr t
            /\ JSON.parse t = Ok (JSONImage.jsonify (plain ps)).
Proof.
  unfold JSON.stringify.
  destruct (JSON.stringify_value (plain ps)) as [t|] eqn:E.
  - exists t. split; [reflexivity|]. apply JSONFacts.parse_stringify. exact E.
  - discriminate E.
Qed.

Lemma Int16Array_even (data : list byte) :
  Nat.even (List.length data) = true -> exists samples, Int16Array data = Ok samples.
Proof.
  induction data as [data IH] using (induction_ltof1 _ (@List.length byte)).
  unfold ltof in IH. destruct data as [|lo [|hi rest]]; intros H.
  - exists []. reflexivity.
  - discriminate H.
  - destruct (IH rest ltac:(cbn; lia) H) as [xs E].
    exists (int16 lo hi :: xs). cbn [Int16Array]. rewrite E. reflexivity.
Qed.

Lemma serializeAudio_ok (data : list byte) (rate channels : number) :
  spreadable data = true ->
  serializeAudio data rate channels
  = Ok (JSON.stringify (plain (audio_payload data rate channels))).
Proof.
  intros H. unfold serializeAudio, fromCharCode. unfold spreadable in H.
  rewrite H. reflexivity.
Qed.

Lemma serializeAudio_inv (data : list byte) (rate channels : number)
      (payload : value) :
  serializeAudio data rate channels = Ok payload ->
  spreadable data = true
  /\ payload = JSON.stringify (plain (audio_payload data rate channels)).
Proof.
  unfold serializeAudio, fromCharCode, spreadable.
  destruct (N.of_nat (List.length data) <=? max_arguments)%N;
    cbn [bind]; intros H; [|discriminate H].
  injection H as <-. split; reflexivity.
Qed.

Lemma audio_payload_text (data : list byte) (rate channels : number) :
  exists text,
    JSON.stringify (plain (audio_payload data rate channels)) = VStr text
    /\ JSON.parse text
       = Ok (plain [("___type___", VStr "audio");
                    ("audio", VStr (btoa (binary_string data)));
                    ("sample_rate", JSONImage.jsonify (VNum rate));
                    ("num_channels", JSONImage.jsonify (VNum channels))]).
Proof.
  destruct (stringify_plain (audio_payload data rate channels))
    as (t & Et & Hp).
  exists t. split; [exact Et|]. rewrite Hp. reflexivity.
Qed.

Lemma deserialize_audio_payload (data : list byte) (rate channels : number) :
  deserialize (JSON.stringify (plain (audio_payload data rate channels)))
  = Resolved match Int16Array data with
             | Ok samples => Audio samples
             | Throw _ => Raw VNull
             end.
Proof.
  destruct (audio_payload_text data rate channels) as (t & -> & Hp).
  unfold deserialize, deserialize_try, payload_of. rewrite Hp.
  cbn [plain bind get own_enumerable lookup String.eqb Ascii.eqb Bool.eqb
       value_eqb_string].
  unfold _deserializeAudio, plain.
  cbn [get own_enumerable own_hidden lookup String.eqb Ascii.eqb Bool.eqb bind].
  unfold atob, btoa. cbn [ToString text_of bind].
  rewrite Base64Facts.atob_btoa. cbn [bind].
  unfold charCodes, binary_string. rewrite list_byte_of_string_of_list_byte.
  destruct (Int16Array data) as [samples|e]; reflexivity.
Qed.

(** C3 (as amended).  For every buffer of even length that the engine can
    spread into a call, and every sample rate and channel count,
    [serializeAudio] returns the text of an envelope that holds the rate
    and the channel count, and decoding it resolves to an [audio] result
    whose samples are the buffer read as signed 16-bit integers, low octet
    first.  The result carries the samples only. *)
Theorem audio_round_trip (data : list byte) (rate channels : number) :
  spreadable data = true ->
  Nat.even (List.length data) = true ->
  exists text samples,
    serializeAudio data rate channels = Ok (VStr text)
    /\ JSON.parse text
       = Ok (plain [("___type___", VStr "audio");
                    ("audio", VStr (btoa (binary_string data)));
                    ("sample_rate", JSONImage.jsonify (VNum rate));
                    ("num_channels", JSONImage.jsonify (VNum channels))])
    /\ Int16Array data = Ok samples
    /\ deserialize (VStr text) = Resolved (Audio samples).
Proof.
  intros Hs H. destruct (Int16Array_even data H) as [samples Es].
  destruct (audio_payload_text data rate channels) as (t & Et & Hp).
  exists t, samples. rewrite (serializeAudio_ok data rate channels Hs), Et.
  split; [reflexivity|]. split; [exact Hp|]. split; [exact Es|].
  rewrite <- Et, deserialize_audio_payload, Es. reflexivity.
Qed.

(** C8.  For every JSON-compatible message, decoding the message envelope
    resolves to a [message] result that carries the message unchanged. *)
Theorem message_pass_through (msg : value) :
  json_compatible msg = true ->
  deserialize (serializeMessage msg) = Resolved (Message msg).
Proof.
  intros H. unfold serializeMessage.
  destruct (stringify_plain [("___type___", VStr "message"); ("message", msg)])
    as (t & -> & Hp).
  rewrite JSONFacts.jsonify_compatible in Hp.
  - unfold deserialize, deserialize_try, payload_of. rewrite Hp. reflexivity.
  - cbn. rewrite H. reflexivity.
Qed.

Lemma message_pass_through_witness :
  deserialize
    (serializeMessage
       (plain [("label", VStr "rtvi-ai"); ("type", VStr "client-ready");
               ("data", plain [("ids", VArr false [num 1; num (-2); VNull]);
                               ("ok", VBool true)])]))
  = Resolved
      (Message
         (plain [("label", VStr "rtvi-ai"); ("type", VStr "client-ready");
                 ("data", plain [("ids", VArr false [num 1; num (-2); VNull]);
                                 ("ok", VBool true)])])).
Proof.
  apply (message_pass_through
           (plain [("label", VStr "rtvi-ai"); ("type", VStr "client-ready");
                   ("data", plain [("ids", VArr false [num 1; num (-2); VNull]);
                                   ("ok", VBool true)])])).
  reflexivity.
Defined.

(** ** Failures *)

Lemma deserialize_try_resolves (data : value) :
  deserialize_try data <> Ok None.
Proof.
  unfold deserialize_try, bind.
  repeat match goal with
         | |- context [match ?x with _ => _ end] => destruct x
         end; discriminate.
Qed.

(** C4.  [deserialize] resolves for every input: to what the [try] block
    resolved, and to a [raw] result with a null message when the block
    threw, be it a parse error or an exception during reconstruction.  In
    particular the text [{not valid json] and [undefined] resolve to that
    null result. *)
Theorem deserialize_always_resolves :
  (forall data, exists r,
      deserialize data = Resolved r
      /\ (forall e, deserialize_try data = Throw e -> r = Raw VNull)
      /\ (forall text e, data = VStr text -> JSON.parse text = Throw e ->
                         r = Raw VNull))
  /\ deserialize (VStr "{not valid json") = Resolved (Raw VNull)
  /\ deserialize VUndefined = Resolved (Raw VNull).
Proof.
  split; [|split; reflexivity].
  intros data. unfold deserialize.
  destruct (deserialize_try data) as [[r|]|e] eqn:E.
  - exists r. repeat split; [discriminate|].
    intros text e -> Hp. unfold deserialize_try, payload_of in E.
    rewrite Hp in E.
    discriminate E.
  - destruct (deserialize_try_resolves data E).
  - exists (Raw VNull). repeat split.
Qed.

Lemma frameToDict_plain (ser : value -> result value) (frame d : value) :
  frameToDict_with ser frame = Ok d -> exists ps, d = plain ps.
Proof.
  unfold frameToDict_with, bind. intros H.
  repeat match type of H with
         | context [match ?x with _ => _ end] => destruct x; try discriminate H
         end.
  injection H as <-. eexists. reflexivity.
Qed.

(** C5 (the failing input).  [serialize(undefined)] throws: reading
    [frame.constructor] fails in the [try] block, and the [catch] handler
    reads it again for its message.  The same holds of an object without
    prototype.  A frame whose constructor name can be read and printed in
    the message always yields a string or null. *)
Theorem serialize_undefined_throws :
  serialize VUndefined = Throw TypeError
  /\ serialize (VObj None [("text", VStr "hello")]) = Throw TypeError
  /\ (forall frame name, constructor_name frame = Ok name ->
        printable name = true ->
        exists payload, serialize frame = Ok payload
                        /\ (payload = VNull \/ exists t, payload = VStr t)).
Proof.
  split; [reflexivity|]. split; [reflexivity|].
  intros frame name Hn Hp.
  assert (G : exists payload,
             try_catch
               (frameData <- _frameToDict frame ;; Ok (JSON.stringify frameData))
               (fun _ => name <- constructor_name frame ;;
                         _ <- ToString name ;; Ok VNull) = Ok payload
             /\ (payload = VNull \/ exists t, payload = VStr t)).
  { destruct (_frameToDict frame) as [d|e] eqn:Ed; cbn [bind try_catch].
    - destruct (frameToDict_plain _ _ Ed) as [ps ->].
      destruct (stringify_plain ps) as (t & -> & _).
      exists (VStr t). split; [reflexivity | right; exists t; reflexivity].
    - rewrite Hn. cbn [bind]. unfold printable in Hp.
      destruct (ToString name); [|discriminate Hp].
      exists VNull. split; [reflexivity | left; reflexivity]. }
  unfold serialize. destruct frame; try exact G.
  exists VNull. split; [reflexivity | left; reflexivity].
Qed.

(** ** Reading a frame envelope: [_dictToFrame] *)

Lemma all_values_Forall (p : value -> bool) (ps : props) :
  all_values p ps = true <-> Forall (fun kv => p (snd kv) = true) ps.
Proof.
  induction ps as [|[k x] ps IH]; cbn [all_values].
  - split; [constructor | reflexivity].
  - rewrite andb_true_iff, IH. split.
    + intros [H1 H2]. constructor; assumption.
    + intros H. inversion H; subst. auto.
Qed.

Lemma In_all_values (p : value -> bool) (ps : props) (k : string) (v : value) :
  all_values p ps = true -> In (k, v) ps -> p v = true.
Proof.
  intros Ha Hin. apply all_values_Forall in Ha. rewrite Forall_forall in Ha.
  apply (Ha (k, v) Hin).
Qed.

Lemma get_obj (cls : option string) (ps : props) (k : string) :
  String.eqb k "constructor" = false ->
  get (VObj cls ps) k = Ok (field ps k).
Proof.
  intros H. unfold get, field. cbn [own_enumerable own_hidden lookup].
  destruct (lookup ps k); [reflexivity|].
  rewrite H. destruct (String.eqb k "length"); reflexivity.
Qed.

Lemma startsWith_3_2 (k : string) :
  (String.eqb k "___frame___" || startsWith k "___" || startsWith k "__")
  = startsWith k "__".
Proof.
  destruct (startsWith k "__") eqn:E; [apply orb_true_r|].
  rewrite orb_false_r. apply orb_false_iff. split.
  - destruct (String.eqb_spec k "___frame___") as [->|]; [discriminate E|].
    reflexivity.
  - destruct (startsWith k "___") eqn:E3; [|reflexivity].
    destruct k as [|a [|b k]]; cbn in E, E3; try discriminate E3.
    + rewrite andb_false_r in E3. discriminate E3.
    + destruct (Ascii.eqb a "_"); [|discriminate E3].
      destruct (Ascii.eqb b "_"); [discriminate E | discriminate E3].
Qed.

Lemma dictToFrame_total (deser : value -> bool -> bool -> result value)
      (cls : option string) (ps : props) :
  printable (field ps "___frame___") = true ->
  exists x, dictToFrame_with deser (VObj cls ps) = Ok x.
Proof.
  intros Hp. unfold dictToFrame_with. rewrite get_obj by reflexivity.
  cbn [bind].
  destruct (negb (truthy (field ps "___frame___"))); [eexists; reflexivity|].
  unfold try_catch, printable in *.
  destruct (ToString (field ps "___frame___")); [|discriminate Hp].
  match goal with
  | |- context [match ?b with Ok _ => _ | Throw _ => _ end] => destruct b
  end; eexists; reflexivity.
Qed.

(** Only a string that carries the bytes marker can fail to decode, when
    the tags of the nested envelopes are printable. *)
Lemma deserializeValue_total (v : value) :
  tags_printable v = true ->
  forall isBytes isTuple,
    (forall s, v = VStr s -> isBytes = false) ->
    exists x, _deserializeValue v isBytes isTuple = Ok x.
Proof.
  induction v as [| |b|n|s|bs|tf items IH|cls ps IH|name src]
    using value_ind2; intros Ht isBytes isTuple Hs;
    try (eexists; reflexivity).
  - rewrite (Hs s eq_refl). eexists. reflexivity.
  - cbn [_deserializeValue]. cbn [tags_printable] in Ht.
    assert (G : exists xs, deserialize_items _deserializeValue items = Ok xs).
    { clear Hs. induction IH as [|i items Hi _ IHl]; [eexists; reflexivity|].
      cbn [forallb] in Ht. apply andb_prop in Ht. destruct Ht as [Hti Ht].
      destruct (IHl Ht) as [xs Exs]. cbn [deserialize_items].
      assert (Gi : exists x,
                 match i with
                 | VObj cls ps =>
                     is_frame <- js_in "___frame___" (VObj cls ps) ;;
                     if (is_frame : bool)
                     then dictToFrame_with _deserializeValue (VObj cls ps)
                     else _deserializeValue i false false
                 | _ => _deserializeValue i false false
                 end = Ok x).
      { destruct i; try (apply (Hi Hti); intros; reflexivity).
        cbn [js_in bind].
        match goal with
        | |- exists x, (if ?b then _ else _) = _ => destruct b
        end; [|apply (Hi Hti); intros; reflexivity].
        apply dictToFrame_total. cbn [tags_printable] in Hti.
        apply andb_prop in Hti. apply Hti. }
      destruct Gi as [x Ex]. rewrite Ex. cbn [bind]. rewrite Exs.
      eexists. reflexivity. }
    destruct G as [xs ->]. eexists. reflexivity.
  - cbn [_deserializeValue js_in bind]. cbn [tags_printable] in Ht.
    apply andb_prop in Ht. destruct Ht as [Htag Ht].
    match goal with
    | |- exists x, (if ?b then _ else _) = _ => destruct b
    end; [apply dictToFrame_total; exact Htag|].
    assert (G : forall acc, exists r,
               deserialize_props _deserializeValue ps acc = Ok r).
    { clear Hs Htag. induction IH as [|[k x] ps Hx _ IHl]; intros acc;
        [eexists; reflexivity|].
      cbn [all_values] in Ht. apply andb_prop in Ht. destruct Ht as [Htx Ht].
      cbn [deserialize_props]. cbn [snd] in Hx.
      destruct (Hx Htx false false ltac:(intros; reflexivity)) as [y ->].
      cbn [bind]. apply (IHl Ht). }
    destruct (G []) as [r ->]. eexists. reflexivity.
Qed.

Lemma has_key_In (ps : props) (k : string) :
  has_key ps k = true <-> In k (keys ps).
Proof.
  induction ps as [|[k' v] ps IH]; cbn [keys map fst In].
  - split; [discriminate | contradiction].
  - rewrite has_key_cons, orb_true_iff, String.eqb_eq, IH. reflexivity.
Qed.

Lemma nodup_keys_NoDup (ps : props) :
  nodup_keys ps = true <-> NoDup (keys ps).
Proof.
  induction ps as [|[k v] ps IH]; cbn [nodup_keys keys map fst].
  - split; [constructor | reflexivity].
  - rewrite andb_true_iff, negb_true_iff, IH. split.
    + intros [H1 H2]. constructor; [|exact H2].
      rewrite <- has_key_In. congruence.
    + intros H. inversion H as [|? ? H1 H2]; subst. split; [|exact H2].
      destruct (has_key ps k) eqn:E; [|reflexivity].
      apply has_key_In in E. contradiction.
Qed.

Lemma keys_app (ps qs : props) : keys (ps ++ qs)%list = (keys ps ++ keys qs)%list.
Proof. apply map_app. Qed.

Lemma marker_not_constructor (k : string) :
  String.eqb (bytes_marker k) "constructor" = false
  /\ String.eqb (tuple_marker k) "constructor" = false.
Proof. split; reflexivity. Qed.

Lemma assign_regular (ps : props) (k : string) (v : value) :
  startsWith k "__" = false -> assign ps k v = obj_set ps k v.
Proof.
  intros H. unfold assign.
  destruct (String.eqb_spec k "__proto__") as [->|]; [discriminate H|].
  reflexivity.
Qed.

Lemma well_marked_decodes (ps : props) (k : string) (v : value) :
  well_marked ps = true -> In (k, v) ps -> reserved_key k = false ->
  tags_printable v = true ->
  exists x, decode_field ps k v = Ok x.
Proof.
  intros Hw Hin Hr Ht. unfold well_marked in Hw.
  rewrite forallb_forall in Hw. specialize (Hw _ Hin). cbn [fst snd] in Hw.
  unfold decode_field.
  destruct v as [| |b|n|s|bs|tf items|cls qs|name src];
    try (apply deserializeValue_total; [exact Ht | intros; discriminate]).
  rewrite Hr in Hw. cbn [orb] in Hw.
  destruct (truthy (field ps (bytes_marker k))) eqn:Eb.
  - cbn [negb orb] in Hw. cbn [_deserializeValue]. unfold atob.
    cbn [ToString text_of bind].
    destruct (Base64.atob s) as [b|]; [|discriminate Hw].
    eexists. reflexivity.
  - eexists. reflexivity.
Qed.

Lemma dictToFrame_fields_spec (cls : option string) (ps : props) :
  forall qs args,
    NoDup (keys args ++ keys qs)%list ->
    (forall k v, In (k, v) qs -> reserved_key k = false ->
                 exists x, decode_field ps k v = Ok x) ->
    dictToFrame_fields _deserializeValue (VObj cls ps) qs args
    = Ok (args ++ decoded_fields ps qs)%list.
Proof.
  induction qs as [|[k v] qs IH]; intros args Hnd Hdec.
  - cbn. rewrite app_nil_r. reflexivity.
  - cbn [dictToFrame_fields]. unfold dictToFrame_field.
    rewrite startsWith_3_2.
    cbn [keys map fst] in Hnd. fold (keys qs) in Hnd.
    assert (Hnd' : NoDup (keys args ++ keys qs)%list)
      by (apply NoDup_remove_1 in Hnd; exact Hnd).
    assert (Hdec' : forall k v, In (k, v) qs -> reserved_key k = false ->
                                exists x, decode_field ps k v = Ok x)
      by (intros; apply Hdec; [right|]; assumption).
    unfold decoded_fields. cbn [List.filter fst]. unfold reserved_key at 1.
    destruct (startsWith k "__") eqn:E1; cbn [orb negb bind].
    + apply IH; assumption.
    + destruct (mem_string k base_fields) eqn:E2; cbn [negb bind].
      * apply IH; assumption.
      * rewrite !get_obj by apply marker_not_constructor. cbn [bind].
        destruct (Hdec k v (or_introl eq_refl)
                    ltac:(unfold reserved_key; rewrite E1, E2; reflexivity))
          as [x Ex].
        unfold decode_field in Ex. rewrite Ex. cbn [bind].
        rewrite assign_regular by exact E1.
        assert (Hk : has_key args k = false).
        { destruct (has_key args k) eqn:E; [|reflexivity].
          apply has_key_In in E. apply NoDup_remove_2 in Hnd.
          exfalso. apply Hnd. apply in_or_app. left. exact E. }
        rewrite obj_set_fresh by exact Hk.
        rewrite IH.
        -- cbn [map fst snd]. unfold decode_field. rewrite Ex. cbn [unwrap].
           rewrite <- app_assoc. reflexivity.
        -- rewrite keys_app. cbn [keys map fst]. rewrite <- app_assoc. exact Hnd.
        -- exact Hdec'.
Qed.

Lemma copy_in_obj (cls : option string) (ps frame : props) (b : string) :
  mem_string b base_fields = true ->
  copy_in (VObj cls ps) b frame = Ok (copy_base ps frame b).
Proof.
  intros Hb. unfold copy_in, copy_base. cbn [js_in bind].
  assert (E : mem_string b Object_prototype_keys = false
              /\ String.eqb b "constructor" = false
              /\ String.eqb b "__proto__" = false).
  { cbn in Hb. repeat (apply orb_prop in Hb; destruct Hb as [Hb|Hb]);
      try discriminate Hb; apply String.eqb_eq in Hb; subst b;
      repeat split. }
  destruct E as (E1 & E2 & E3). rewrite E1.
  replace (match cls with Some _ => false | None => false end) with false
    by (destruct cls; reflexivity).
  rewrite orb_false_r.
  destruct (has_key ps b); [|reflexivity].
  rewrite get_obj by exact E2. cbn [bind]. unfold assign. rewrite E3.
  reflexivity.
Qed.

(** What [_dictToFrame] returns for an object whose fields all decode. *)
Lemma dictToFrame_obj (cls : option string) (ps : props) :
  nodup_keys ps = true ->
  truthy (field ps "___frame___") = true ->
  well_marked ps = true ->
  (forall k v, In (k, v) ps -> reserved_key k = false ->
               tags_printable v = true) ->
  _dictToFrame (VObj cls ps) = Ok (plain (decoded_frame ps)).
Proof.
  intros Hnd Ht Hw Hq. unfold _dictToFrame, dictToFrame_with.
  rewrite get_obj by reflexivity. cbn [bind]. rewrite Ht. cbn [negb].
  cbn [own_enumerable].
  rewrite (@dictToFrame_fields_spec cls ps ps []).
  - cbn [app bind try_catch].
    do 6 (rewrite copy_in_obj by reflexivity; cbn [bind]). reflexivity.
  - cbn [keys map app]. apply nodup_keys_NoDup. exact Hnd.
  - intros k v Hin Hr.
    apply (well_marked_decodes ps k v Hw Hin Hr (Hq k v Hin Hr)).
Qed.

Lemma lookup_decoded_fields (ps qs : props) (k : string) :
  lookup (decoded_fields ps qs) k
  = if reserved_key k then None
    else match lookup qs k with
         | Some v => Some (unwrap (decode_field ps k v))
         | None => None
         end.
Proof.
  unfold decoded_fields.
  induction qs as [|[k' v] qs IH]; cbn [List.filter map lookup fst snd].
  - destruct (reserved_key k); reflexivity.
  - destruct (String.eqb_spec k' k) as [->|Hn].
    + destruct (reserved_key k) eqn:Er; cbn [negb map lookup fst snd].
      * exact IH.
      * rewrite String.eqb_refl. reflexivity.
    + destruct (reserved_key k'); cbn [negb map lookup fst snd].
      * exact IH.
      * destruct (String.eqb_spec k' k); [contradiction | exact IH].
Qed.

Lemma lookup_copy_base_one (ps frame : props) (b k : string) :
  lookup (copy_base ps frame b) k
  = if String.eqb k b && has_key ps k then lookup ps k else lookup frame k.
Proof.
  unfold copy_base. destruct (String.eqb_spec k b) as [->|Hn]; cbn [andb].
  - destruct (has_key ps b) eqn:Eb; [|reflexivity].
    rewrite lookup_obj_set_same. unfold field, has_key in *.
    destruct (lookup ps b); [reflexivity | discriminate Eb].
  - destruct (has_key ps b); [|reflexivity].
    apply lookup_obj_set_other. congruence.
Qed.

Lemma lookup_copy_base (ps : props) (bs : list string) :
  forall frame k,
    lookup (fold_left (copy_base ps) bs frame) k
    = if mem_string k bs && has_key ps k then lookup ps k else lookup frame k.
Proof.
  induction bs as [|b bs IH]; intros frame k; cbn [fold_left].
  - reflexivity.
  - rewrite IH, lookup_copy_base_one. unfold mem_string. cbn [existsb].
    fold (mem_string k bs).
    destruct (mem_string k bs), (String.eqb k b), (has_key ps k); reflexivity.
Qed.

(** The fields of the reconstructed frame. *)
Lemma decoded_frame_fields (ps : props) :
  lookup (decoded_frame ps) "constructor"
  = Some (plain [("name", field ps "___frame___")])
  /\ (forall k v, lookup ps k = Some v -> reserved_key k = false ->
                  k <> "constructor" ->
                  lookup (decoded_frame ps) k
                  = Some (unwrap (decode_field ps k v)))
  /\ (forall k, mem_string k base_fields = true ->
                lookup (decoded_frame ps) k = lookup ps k)
  /\ (forall k, startsWith k "__" = true -> lookup (decoded_frame ps) k = None)
  /\ (forall k, k <> "constructor" -> lookup ps k = None ->
                lookup (decoded_frame ps) k = None).
Proof.
  unfold decoded_frame. repeat split.
  - rewrite lookup_copy_base. cbn [mem_string existsb base_fields andb].
    cbn. apply lookup_obj_set_same.
  - intros k v Hk Hr Hc. rewrite lookup_copy_base.
    unfold reserved_key in Hr. apply orb_false_iff in Hr.
    destruct Hr as [Hr1 Hr2]. rewrite Hr2. cbn [andb].
    rewrite lookup_obj_set_other by congruence.
    rewrite lookup_decoded_fields. unfold reserved_key. rewrite Hr1, Hr2, Hk.
    reflexivity.
  - intros k Hb. rewrite lookup_copy_base, Hb. cbn [andb].
    destruct (has_key ps k) eqn:E; [reflexivity|].
    rewrite lookup_obj_set_other.
    + rewrite lookup_decoded_fields. unfold reserved_key. rewrite Hb, orb_true_r.
      unfold has_key in E. destruct (lookup ps k); [discriminate E | reflexivity].
    + intros <-. discriminate Hb.
  - intros k Hk. rewrite lookup_copy_base.
    assert (Hb : mem_string k base_fields = false).
    { destruct (mem_string k base_fields) eqn:E; [|reflexivity].
      cbn in E. repeat (apply orb_prop in E; destruct E as [E|E]);
        try discriminate E; apply String.eqb_eq in E; subst k;
        discriminate Hk. }
    rewrite Hb. cbn [andb]. rewrite lookup_obj_set_other.
    + rewrite lookup_decoded_fields. unfold reserved_key. rewrite Hk.
      reflexivity.
    + intros <-. discriminate Hk.
  - intros k Hc Hk. rewrite lookup_copy_base. unfold has_key. rewrite Hk.
    rewrite andb_false_r. rewrite lookup_obj_set_other by congruence.
    rewrite lookup_decoded_fields, Hk.
    destruct (reserved_key k); reflexivity.
Qed.

Lemma deserialize_raw (data : value) (cls : option string) (ps : props)
      (frame : value) :
  payload_of data = Ok (VObj cls ps) ->
  value_eqb_string (field ps "___type___") "audio" = false ->
  value_eqb_string (field ps "___type___") "message" = false ->
  _dictToFrame (VObj cls ps) = Ok frame ->
  deserialize data = Resolved (Raw frame).
Proof.
  intros Hp Ha Hm Hf. unfold deserialize, deserialize_try.
  rewrite Hp. cbn [bind]. rewrite get_obj by reflexivity. cbn [bind].
  rewrite Ha, Hm, Hf. reflexivity.
Qed.

(** C7 (as amended).  Take a payload object whose discriminator is
    neither ["audio"] nor ["message"].  When its frame-type key is missing
    or holds a falsy value, it decodes to a [raw] result with a null
    message.  When the key holds a truthy value, the bytes-marked strings
    are valid base64 and the frame-type tags of the nested objects are
    printable, it decodes to a [raw] result with a reconstructed frame: the
    type tag under [constructor.name], every other key mapped through
    [_deserializeValue] with its two markers, the well-known fields copied
    as they are, and no marker key. *)
Theorem unknown_discriminator_reconstructs
        (data : value) (cls : option string) (ps : props) :
  payload_of data = Ok (VObj cls ps) ->
  value_eqb_string (field ps "___type___") "audio" = false ->
  value_eqb_string (field ps "___type___") "message" = false ->
  (truthy (field ps "___frame___") = false ->
   deserialize data = Resolved (Raw VNull))
  /\ (truthy (field ps "___frame___") = true ->
      nodup_keys ps = true ->
      well_marked ps = true ->
      all_values tags_printable ps = true ->
      exists frame,
        deserialize data = Resolved (Raw (plain frame))
        /\ lookup frame "constructor"
           = Some (plain [("name", field ps "___frame___")])
        /\ (forall k v, lookup ps k = Some v -> reserved_key k = false ->
                        k <> "constructor" ->
                        exists x, decode_field ps k v = Ok x
                                  /\ lookup frame k = Some x)
        /\ (forall k, mem_string k base_fields = true ->
                      lookup frame k = lookup ps k)
        /\ (forall k, startsWith k "__" = true -> lookup frame k = None)).
Proof.
  intros Hp Ha Hm. split.
  { intros Ht. apply (deserialize_raw data Hp Ha Hm).
    unfold _dictToFrame, dictToFrame_with. rewrite get_obj by reflexivity.
    cbn [bind]. rewrite Ht. reflexivity. }
  intros Ht Hnd Hw Hq.
  exists (decoded_frame ps).
  destruct (decoded_frame_fields ps) as (F1 & F2 & F3 & F4 & _).
  split; [|split; [exact F1 | split; [|split; [exact F3 | exact F4]]]].
  - apply (deserialize_raw data Hp Ha Hm).
    apply dictToFrame_obj; try assumption.
    intros k0 v0 Hin0 _. apply (In_all_values _ _ _ _ Hq Hin0).
  - intros k v Hk Hr Hc.
    assert (Hin : In (k, v) ps).
    { clear - Hk. induction ps as [|[k' v'] ps IH]; [discriminate Hk|].
      cbn [lookup] in Hk. destruct (String.eqb_spec k' k) as [->|].
      - injection Hk as ->. left. reflexivity.
      - right. apply IH. exact Hk. }
    destruct (well_marked_decodes ps k v Hw Hin Hr
                (In_all_values _ _ _ _ Hq Hin)) as [x Ex].
    exists x. split; [exact Ex|]. rewrite (F2 k v Hk Hr Hc), Ex. reflexivity.
Qed.

Lemma unknown_discriminator_reconstructs_witness :
  (truthy (field text_envelope "___frame___") = false ->
   deserialize (plain text_envelope) = Resolved (Raw VNull))
  /\ (truthy (field text_envelope "___frame___") = true ->
      nodup_keys text_envelope = true ->
      well_marked text_envelope = true ->
      all_values tags_printable text_envelope = true ->
      exists frame,
        deserialize (plain text_envelope) = Resolved (Raw (plain frame))
        /\ lookup frame "constructor"
           = Some (plain [("name", field text_envelope "___frame___")])
        /\ (forall k v, lookup text_envelope k = Some v ->
                        reserved_key k = false -> k <> "constructor" ->
                        exists x, decode_field text_envelope k v = Ok x
                                  /\ lookup frame k = Some x)
        /\ (forall k, mem_string k base_fields = true ->
                      lookup frame k = lookup text_envelope k)
        /\ (forall k, startsWith k "__" = true -> lookup frame k = None)).
Proof.
  apply (@unknown_discriminator_reconstructs
           (plain text_envelope) (Some "Object") text_envelope);
    reflexivity.
Defined.

(** C7 (counterexample).  A payload with an absent or unrecognized
    discriminator and no frame-type key decodes to a [raw] result whose
    message is null: [_dictToFrame] returns null when [___frame___] is
    missing.  So does a payload with a frame-type key and a bytes-marked
    string that is not base64, and one that holds a nested envelope which
    cannot be rebuilt and whose tag cannot be printed in the log message. *)
Lemma unknown_discriminator_null :
  deserialize (plain [("foo", num 1)]) = Resolved (Raw VNull)
  /\ deserialize (plain [("___type___", VStr "video"); ("foo", num 1)])
     = Resolved (Raw VNull)
  /\ deserialize (plain [("___frame___", VStr "DataFrame");
                         ("__raw_is_bytes__", VBool true); ("raw", VStr "!!")])
     = Resolved (Raw VNull)
  /\ deserialize
       (plain [("___frame___", VStr "ListFrame");
               ("items",
                VArr false
                  [plain [("___frame___", plain [("toString", num 1)]);
                          ("__raw_is_bytes__", VBool true);
                          ("raw", VStr "!!")]])])
     = Resolved (Raw VNull).
Proof. repeat split; vm_compute; reflexivity. Qed.

(** C6 (as amended).  Take a frame envelope whose frame-type key holds a
    truthy value, whose bytes-marked strings all hold valid base64 and
    whose nested objects have printable frame-type tags.  When it holds a
    base64 string under a key and [true] under the bytes marker of that
    key, decoding yields a frame whose field is the blob decoded from the
    string, and the frame has no key that begins with the marker prefix.
    The key is any key that is not itself reserved ([foo] is one). *)
Theorem marker_keys_never_leak
        (data : value) (cls : option string) (ps : props)
        (k s b : string) :
  payload_of data = Ok (VObj cls ps) ->
  nodup_keys ps = true ->
  value_eqb_string (field ps "___type___") "audio" = false ->
  value_eqb_string (field ps "___type___") "message" = false ->
  truthy (field ps "___frame___") = true ->
  well_marked ps = true ->
  all_values tags_printable ps = true ->
  reserved_key k = false ->
  k <> "constructor" ->
  lookup ps (bytes_marker k) = Some (VBool true) ->
  lookup ps k = Some (VStr s) ->
  Base64.atob s = Ok b ->
  exists frame,
    deserialize data = Resolved (Raw (plain frame))
    /\ lookup frame k = Some (VBytes (charCodes b))
    /\ (forall k', startsWith k' "__" = true -> lookup frame k' = None).
Proof.
  intros Hp Hnd Ha Hm Ht Hw Hq Hr Hc Hmark Hk Hb.
  exists (decoded_frame ps).
  destruct (decoded_frame_fields ps) as (_ & F2 & _ & F4 & _).
  split; [|split; [|exact F4]].
  - apply (deserialize_raw data Hp Ha Hm).
    apply dictToFrame_obj; try assumption.
    intros k0 v0 Hin0 _. apply (In_all_values _ _ _ _ Hq Hin0).
  - rewrite (F2 k (VStr s) Hk Hr Hc). unfold decode_field, field.
    rewrite Hmark. cbn [truthy _deserializeValue]. unfold atob.
    cbn [ToString text_of bind]. rewrite Hb. reflexivity.
Qed.

Lemma marker_keys_never_leak_witness :
  exists frame,
    deserialize (plain foo_envelope) = Resolved (Raw (plain frame))
    /\ lookup frame "foo" = Some (VBytes (charCodes (binary_string [x01; x02])))
    /\ (forall k', startsWith k' "__" = true -> lookup frame k' = None).
Proof.
  apply (@marker_keys_never_leak (plain foo_envelope) (Some "Object")
           foo_envelope "foo" "AQI=" (binary_string [x01; x02]));
    try reflexivity.
  discriminate.
Defined.

(** C6 (counterexample).  Three envelopes that hold [__foo_is_bytes__:
    true] beside a base64 string under [foo] and decode to a [raw] result
    with a null message, not to a frame: one has a second bytes-marked
    field that is not base64, one has an empty frame-type tag, one has no
    frame-type key. *)
Lemma marked_envelope_null :
  deserialize (plain [("___frame___", VStr "DataFrame");
                      ("__foo_is_bytes__", VBool true); ("foo", VStr "AQI=");
                      ("__bar_is_bytes__", VBool true); ("bar", VStr "!!")])
  = Resolved (Raw VNull)
  /\ deserialize (plain [("___frame___", VStr "");
                         ("__foo_is_bytes__", VBool true); ("foo", VStr "AQI=")])
     = Resolved (Raw VNull)
  /\ deserialize (plain [("__foo_is_bytes__", VBool true); ("foo", VStr "AQI=")])
     = Resolved (Raw VNull).
Proof. repeat split; vm_compute; reflexivity. Qed.

(** ** Writing a frame envelope: [_frameToDict] *)









Lemma dunder_not_base (k : string) :
  startsWith k "__" = true -> mem_string k base_fields = false.
Proof.
  intros Hk. destruct (mem_string k base_fields) eqn:E; [|reflexivity].
  cbn in E. repeat (apply orb_prop in E; destruct E as [E|E]);
    try discriminate E; apply String.eqb_eq in E; subst k; discriminate Hk.
Qed.

Lemma copy_own_obj (cls : option string) (ps d : props) (b : string) :
  mem_string b base_fields = true ->
  copy_own (VObj cls ps) b d = Ok (copy_base ps d b).
Proof.
  intros Hb. unfold copy_own, copy_base, hasOwnProperty.
  cbn [own_enumerable own_hidden]. rewrite orb_false_r.
  assert (E : String.eqb b "constructor" = false
              /\ String.eqb b "__proto__" = false).
  { cbn in Hb. repeat (apply orb_prop in Hb; destruct Hb as [Hb|Hb]);
      try discriminate Hb; apply String.eqb_eq in Hb; subst b;
      repeat split. }
  destruct E as (E2 & E3).
  destruct (has_key ps b); [|reflexivity].
  rewrite get_obj by exact E2. cbn [bind]. unfold assign. rewrite E3.
  reflexivity.
Qed.

Lemma frameToDict_obj (ser : value -> result value) (cls : option string)
      (ps : props) :
  frameToDict_with ser (VObj cls ps)
  = (name <- constructor_name (VObj cls ps) ;;
     d <- frameToDict_fields ser ps (envelope_head name ps) ;;
     Ok (plain d)).
Proof.
  unfold frameToDict_with.
  destruct (constructor_name (VObj cls ps)) as [name|]; cbn [bind];
    [|reflexivity].
  do 6 (rewrite copy_own_obj by reflexivity; cbn [bind]). reflexivity.
Qed.

Lemma nodup_obj_set (ps : props) (k : string) (v : value) :
  nodup_keys ps = true -> nodup_keys (obj_set ps k v) = true.
Proof.
  induction ps as [|[k' v'] ps IH]; intros H; cbn [obj_set nodup_keys].
  - reflexivity.
  - cbn [nodup_keys] in H. apply andb_prop in H. destruct H as [H1 H2].
    destruct (String.eqb_spec k' k) as [->|Hn]; cbn [nodup_keys].
    + rewrite H1, H2. reflexivity.
    + rewrite (IH H2), andb_true_r, has_key_obj_set.
      apply negb_true_iff in H1. rewrite H1, orb_false_r.
      apply negb_true_iff. apply String.eqb_neq. congruence.
Qed.

Lemma nodup_assign (ps : props) (k : string) (v : value) :
  nodup_keys ps = true -> nodup_keys (assign ps k v) = true.
Proof.
  unfold assign. destruct (String.eqb k "__proto__"); [trivial|].
  apply nodup_obj_set.
Qed.

Lemma has_key_assign (ps : props) (k k' : string) (v : value) :
  has_key (assign ps k v) k' = true -> k = k' \/ has_key ps k' = true.
Proof.
  unfold assign. destruct (String.eqb k "__proto__"); [auto|].
  rewrite has_key_obj_set. intros H. apply orb_prop in H.
  destruct H as [H|H]; [left; apply String.eqb_eq; exact H | right; exact H].
Qed.

Lemma nodup_envelope_head (name : value) (ps : props) :
  nodup_keys (envelope_head name ps) = true.
Proof.
  unfold envelope_head.
  assert (G : forall bs d, nodup_keys d = true ->
                           nodup_keys (fold_left (copy_base ps) bs d) = true).
  { induction bs as [|b bs IH]; intros d Hd; [exact Hd|].
    cbn [fold_left]. apply IH. unfold copy_base.
    destruct (has_key ps b); [apply nodup_obj_set|]; exact Hd. }
  apply G. reflexivity.
Qed.

Lemma lookup_envelope_head (name : value) (ps : props) (k : string) :
  lookup (envelope_head name ps) k
  = if mem_string k base_fields && has_key ps k then lookup ps k
    else if String.eqb "___frame___" k then Some name else None.
Proof. unfold envelope_head. rewrite lookup_copy_base. reflexivity. Qed.

Lemma frameToDict_fields_keys (ser : value -> result value) (ps : props) :
  forall qs d d',
    (forall k v, In (k, v) qs -> has_key ps k = true) ->
    frameToDict_fields ser qs d = Ok d' ->
    (nodup_keys d = true -> nodup_keys d' = true)
    /\ (forall k0, has_key d' k0 = true ->
                   has_key d k0 = true \/ key_origin ps k0).
Proof.
  induction qs as [|[k v] qs IH]; intros d d' Hin H.
  - injection H as <-. split; [trivial | auto].
  - cbn [frameToDict_fields] in H.
    destruct (frameToDict_field ser d k v) as [d1|] eqn:E1; [|discriminate H].
    cbn [bind] in H.
    destruct (IH d1 d' ltac:(intros; eapply Hin; right; eassumption) H)
      as [IH1 IH2].
    unfold frameToDict_field in E1.
    destruct (in_plain k d || startsWith k "___" || startsWith k "__") eqn:Et.
    + injection E1 as <-. split; assumption.
    + apply orb_false_iff in Et. destruct Et as [_ Hk].
      destruct (ser v) as [sv|]; [|discriminate E1]. cbn [bind] in E1.
      injection E1 as <-.
      assert (Ho : forall k0, k0 = k \/ k0 = bytes_marker k \/ k0 = tuple_marker k ->
                              key_origin ps k0).
      { intros k0 H0. exists k. split; [|split; [exact Hk | exact H0]].
        apply (Hin k v). left. reflexivity. }
      split.
      * intros Hd. apply IH1. apply nodup_assign.
        destruct (is_tuple_array v); [apply nodup_assign|];
          (destruct (is_Uint8Array v); [apply nodup_assign|]); exact Hd.
      * intros k0 H0. destruct (IH2 k0 H0) as [H1|H1]; [|right; exact H1].
        apply has_key_assign in H1. destruct H1 as [<-|H1]; [right; auto|].
        destruct (is_tuple_array v).
        -- apply has_key_assign in H1. destruct H1 as [<-|H1]; [right; auto|].
           destruct (is_Uint8Array v); [|left; exact H1].
           apply has_key_assign in H1.
           destruct H1 as [<-|H1]; [right; auto | left; exact H1].
        -- destruct (is_Uint8Array v); [|left; exact H1].
           apply has_key_assign in H1.
           destruct H1 as [<-|H1]; [right; auto | left; exact H1].
Qed.

Lemma In_has_key (ps : props) (k : string) (v : value) :
  In (k, v) ps -> has_key ps k = true.
Proof.
  intros H. apply has_key_In. unfold keys.
  change k with (fst (k, v)). apply in_map. exact H.
Qed.

(** The envelope of an object has no repeated key, and each of its keys is
    the frame-type key, a well-known field of the frame, or a field of the
    frame that does not begin with two underscores, or a marker of one. *)
Lemma frameToDict_keys (cls : option string) (ps d : props) :
  _frameToDict (VObj cls ps) = Ok (plain d) ->
  nodup_keys d = true
  /\ forall k0, has_key d k0 = true ->
       k0 = "___frame___"
       \/ (mem_string k0 base_fields = true /\ has_key ps k0 = true)
       \/ key_origin ps k0.
Proof.
  unfold _frameToDict. rewrite frameToDict_obj. intros H.
  destruct (constructor_name (VObj cls ps)) as [name|]; [|discriminate H].
  cbn [bind] in H.
  destruct (frameToDict_fields _serializeValue ps (envelope_head name ps))
    as [d'|] eqn:E; [|discriminate H].
  cbn [bind] in H. injection H as <-.
  destruct (frameToDict_fields_keys _serializeValue ps ps
              (envelope_head name ps) (@In_has_key ps) E) as [H1 H2].
  split; [apply H1; apply nodup_envelope_head|].
  intros k0 H0. destruct (H2 k0 H0) as [H3|H3]; [|auto].
  unfold has_key in H3. rewrite lookup_envelope_head in H3.
  destruct (mem_string k0 base_fields && has_key ps k0) eqn:Eb.
  - apply andb_prop in Eb. auto.
  - destruct (String.eqb_spec "___frame___" k0); [auto | discriminate H3].
Qed.

Lemma dictToFrame_fields_dunder (deser : value -> bool -> bool -> result value)
      (frameDict : value) :
  forall qs args r,
    dictToFrame_fields deser frameDict qs args = Ok r ->
    forall k, startsWith k "__" = true -> lookup r k = lookup args k.
Proof.
  induction qs as [|[key v] qs IH]; intros args r H k Hk.
  - injection H as <-. reflexivity.
  - cbn [dictToFrame_fields] in H.
    destruct (dictToFrame_field deser frameDict args key v) as [args1|] eqn:E;
      [|discriminate H].
    cbn [bind] in H. rewrite (IH _ _ H k Hk).
    unfold dictToFrame_field in E. rewrite startsWith_3_2 in E.
    destruct (startsWith key "__") eqn:Ekey; [injection E as <-; reflexivity|].
    destruct (mem_string key base_fields); [injection E as <-; reflexivity|].
    unfold bind in E.
    repeat match type of E with
           | context [match ?x with _ => _ end] => destruct x; try discriminate E
           end.
    injection E as <-. rewrite assign_regular by exact Ekey.
    apply lookup_obj_set_other. intros ->. congruence.
Qed.

(** A frame that [_dictToFrame] builds has no key that begins with two
    underscores. *)
Lemma dictToFrame_no_dunder (cls : option string) (ps : props) (m : value) :
  _dictToFrame (VObj cls ps) = Ok m ->
  m = VNull
  \/ exists frame, m = plain frame
       /\ forall k, startsWith k "__" = true -> lookup frame k = None.
Proof.
  unfold _dictToFrame, dictToFrame_with. rewrite get_obj by reflexivity.
  cbn [bind own_enumerable].
  destruct (negb (truthy (field ps "___frame___")));
    [intros H; injection H as <-; left; reflexivity|].
  destruct (dictToFrame_fields _deserializeValue (VObj cls ps) ps [])
    as [args|] eqn:E; cbn [bind try_catch];
    [|destruct (ToString (field ps "___frame___")); cbn [bind]; intros H;
      [injection H as <-; left; reflexivity | discriminate H]].
  do 6 (rewrite copy_in_obj by reflexivity; cbn [bind]).
  intros H. injection H as <-. right. eexists. split; [reflexivity|].
  intros k Hk.
  change (lookup (fold_left (copy_base ps) base_fields
                    (obj_set args "constructor"
                       (plain [("name", field ps "___frame___")]))) k = None).
  rewrite lookup_copy_base, (dunder_not_base k Hk). cbn [andb].
  rewrite lookup_obj_set_other by (intros <-; discriminate Hk).
  rewrite (dictToFrame_fields_dunder _ _ _ _ E k Hk). reflexivity.
Qed.


(** ** Values through [_serializeValue] and [_deserializeValue] *)

Lemma keys_map_values (f : value -> value) (ps : props) :
  keys (map_values f ps) = keys ps.
Proof.
  induction ps as [|[k x] ps IH]; [reflexivity|].
  cbn [map_values keys map fst]. f_equal. exact IH.
Qed.

Lemma map_values_id (ps : props) : map_values (fun x => x) ps = ps.
Proof.
  induction ps as [|[k x] ps IH]; [reflexivity|].
  cbn [map_values]. rewrite IH. reflexivity.
Qed.

Lemma has_key_keys (ps qs : props) (k : string) :
  keys ps = keys qs -> has_key ps k = has_key qs k.
Proof.
  intros H.
  destruct (has_key ps k) eqn:E1, (has_key qs k) eqn:E2; try reflexivity.
  - apply has_key_In in E1. rewrite H in E1. apply has_key_In in E1. congruence.
  - apply has_key_In in E2. rewrite <- H in E2. apply has_key_In in E2.
    congruence.
Qed.

Lemma nodup_keys_keys (ps qs : props) :
  keys ps = keys qs -> nodup_keys ps = nodup_keys qs.
Proof.
  intros H.
  destruct (nodup_keys ps) eqn:E1, (nodup_keys qs) eqn:E2; try reflexivity.
  - apply nodup_keys_NoDup in E1. rewrite H in E1.
    apply nodup_keys_NoDup in E1. congruence.
  - apply nodup_keys_NoDup in E2. rewrite <- H in E2.
    apply nodup_keys_NoDup in E2. congruence.
Qed.

Lemma plain_map_parts (cls : option string) (ps : props) :
  plain_map cls ps = true ->
  cls = Some "Object" /\ NoDup (keys ps)
  /\ has_key ps "___frame___" = false /\ has_key ps "__proto__" = false.
Proof.
  unfold plain_map. intros H.
  apply andb_prop in H. destruct H as [H H4].
  apply andb_prop in H. destruct H as [H H3].
  apply andb_prop in H. destruct H as [H1 H2].
  apply negb_true_iff in H3, H4. apply nodup_keys_NoDup in H2.
  destruct cls as [c|]; [|discriminate H1]. cbn in H1.
  apply String.eqb_eq in H1. subst c. auto.
Qed.

Lemma js_in_plain_map (cls : option string) (ps : props) :
  has_key ps "___frame___" = false ->
  js_in "___frame___" (VObj cls ps) = Ok false.
Proof.
  intros H. cbn [js_in]. rewrite H. destruct cls; reflexivity.
Qed.

(** A loop that assigns every property of [ps] to the result. *)
Lemma assign_loop (step : value -> result value) (f : value -> value)
      (loop : props -> props -> result props) :
  (forall acc, loop [] acc = Ok acc) ->
  (forall k v rest acc,
      loop ((k, v) :: rest) acc
      = (x <- step v ;; loop rest (assign acc k x))) ->
  forall ps acc,
    NoDup (keys acc ++ keys ps)%list ->
    has_key ps "__proto__" = false ->
    Forall (fun kv => step (snd kv) = Ok (f (snd kv))) ps ->
    loop ps acc = Ok (acc ++ map_values f ps)%list.
Proof.
  intros Hnil Hcons.
  induction ps as [|[k v] ps IH]; intros acc Hn Hp Hs.
  - rewrite Hnil. cbn. rewrite app_nil_r. reflexivity.
  - inversion Hs as [|? ? Hv Hs']; subst. cbn [snd] in Hv.
    rewrite Hcons, Hv. cbn [bind].
    rewrite has_key_cons in Hp. apply orb_false_iff in Hp.
    destruct Hp as [Hk Hp].
    unfold assign. rewrite Hk.
    assert (Hf : has_key acc k = false).
    { destruct (has_key acc k) eqn:E; [|reflexivity].
      apply has_key_In in E. cbn [keys map fst] in Hn.
      apply NoDup_remove_2 in Hn. exfalso. apply Hn.
      apply in_or_app. left. exact E. }
    rewrite obj_set_fresh by exact Hf.
    rewrite IH.
    + cbn [map_values]. rewrite <- app_assoc. reflexivity.
    + rewrite keys_app. cbn [keys map fst] in *. rewrite <- app_assoc. exact Hn.
    + exact Hp.
    + exact Hs'.
Qed.

(** [_serializeValue] flattens a supported value whose blobs the engine
    can spread. *)
Lemma serializeValue_supported (v : value) :
  supported v = true -> within_limit v = true ->
  _serializeValue v = Ok (flatten v).
Proof.
  induction v as [| |b|n|s|bs|tf items IH|cls ps IH|name src]
    using value_ind2; intros H Hl; try discriminate H; try reflexivity.
  - cbn [_serializeValue flatten within_limit] in *.
    unfold fromCharCode. unfold spreadable in Hl. rewrite Hl. reflexivity.
  - cbn [supported within_limit] in H, Hl. cbn [_serializeValue flatten].
    assert (G : serialize_items _serializeValue items = Ok (map flatten items)).
    { induction IH as [|i items Hi _ IHl]; [reflexivity|].
      cbn [forallb] in H, Hl. apply andb_prop in H. destruct H as [H1 H2].
      apply andb_prop in Hl. destruct Hl as [L1 L2].
      cbn [serialize_items map]. rewrite (Hi H1 L1). cbn [bind].
      rewrite (IHl H2 L2). reflexivity. }
    rewrite G. reflexivity.
  - cbn [supported within_limit] in H, Hl.
    apply andb_prop in H. destruct H as [Hm Ha].
    destruct (plain_map_parts _ _ Hm) as (-> & Hn & Hf & Hp).
    cbn [_serializeValue flatten]. rewrite js_in_plain_map by exact Hf.
    cbn [bind].
    rewrite (@assign_loop _serializeValue flatten
               (serialize_props _serializeValue)); try reflexivity;
      [exact Hn | exact Hp |].
    apply all_values_Forall in Ha. apply all_values_Forall in Hl.
    clear - IH Ha Hl. induction IH as [|kv ps Hx _ IHl]; constructor.
    + apply Hx; [inversion Ha | inversion Hl]; assumption.
    + apply IHl; [inversion Ha | inversion Hl]; assumption.
Qed.

(** When [_serializeValue] returns on a supported value, the engine could
    spread its blobs. *)
Lemma serializeValue_within_limit (v : value) :
  supported v = true ->
  forall x, _serializeValue v = Ok x -> within_limit v = true.
Proof.
  induction v as [| |b|n|s|bs|tf items IH|cls ps IH|name src]
    using value_ind2; intros H x Hx; try discriminate H; try reflexivity.
  - cbn [_serializeValue within_limit] in *. unfold fromCharCode in Hx.
    unfold spreadable.
    destruct (N.of_nat (List.length bs) <=? max_arguments)%N;
      [reflexivity | discriminate Hx].
  - cbn [supported within_limit] in *. cbn [_serializeValue] in Hx.
    destruct (serialize_items _serializeValue items) as [xs|] eqn:Exs;
      [|discriminate Hx].
    clear Hx. revert xs Exs.
    induction IH as [|i items Hi _ IHl]; intros xs Exs; [reflexivity|].
    cbn [forallb] in H. apply andb_prop in H. destruct H as [H1 H2].
    cbn [serialize_items] in Exs.
    destruct (_serializeValue i) as [y|] eqn:Ey; [|discriminate Exs].
    cbn [bind] in Exs.
    destruct (serialize_items _serializeValue items) as [ys|] eqn:Eys;
      [|discriminate Exs].
    cbn [forallb]. rewrite (Hi H1 y eq_refl), (IHl H2 ys eq_refl).
    reflexivity.
  - cbn [supported within_limit] in *.
    apply andb_prop in H. destruct H as [Hm Ha].
    destruct (plain_map_parts _ _ Hm) as (-> & _ & Hf & _).
    cbn [_serializeValue] in Hx. rewrite js_in_plain_map in Hx by exact Hf.
    cbn [bind] in Hx.
    destruct (serialize_props _serializeValue ps []) as [r|] eqn:Er;
      [|discriminate Hx].
    clear Hx Hm Hf. revert Er. generalize (@nil (string * value)).
    induction IH as [|[k y] ps Hy _ IHl]; intros acc Er; [reflexivity|].
    cbn [all_values] in Ha. apply andb_prop in Ha. destruct Ha as [H1 H2].
    cbn [serialize_props] in Er. cbn [snd] in Hy.
    destruct (_serializeValue y) as [z|] eqn:Ez; [|discriminate Er].
    cbn [bind] in Er. cbn [all_values].
    rewrite (Hy H1 z eq_refl), (IHl H2 _ Er). reflexivity.
Qed.

Lemma flatten_plain_data (v : value) :
  supported v = true -> plain_data (flatten v) = true.
Proof.
  induction v as [| |b|n|s|bs|tf items IH|cls ps IH|name src]
    using value_ind2; intros H; try discriminate H; try reflexivity.
  - destruct n; [reflexivity | discriminate H ..].
  - cbn [supported] in H. cbn [flatten plain_data negb andb].
    induction IH as [|i items Hi _ IHl]; [reflexivity|].
    cbn [forallb] in H. apply andb_prop in H. destruct H as [H1 H2].
    cbn [map forallb]. rewrite (Hi H1), (IHl H2). reflexivity.
  - cbn [supported] in H. apply andb_prop in H. destruct H as [Hm Ha].
    cbn [flatten plain_data]. apply andb_true_iff. split.
    + unfold plain_map in *.
      rewrite (nodup_keys_keys _ _ (keys_map_values flatten ps)).
      rewrite !(has_key_keys _ _ _ (keys_map_values flatten ps)).
      exact Hm.
    + clear Hm. induction IH as [|[k x] ps Hx _ IHl]; [reflexivity|].
      cbn [all_values] in Ha. apply andb_prop in Ha. destruct Ha as [H1 H2].
      cbn [map_values all_values]. cbn [snd] in Hx.
      rewrite (Hx H1), (IHl H2). reflexivity.
Qed.

Lemma deserialize_items_plain (items : list value) :
  Forall (fun i => _deserializeValue i false false = Ok i) items ->
  forallb plain_data items = true ->
  deserialize_items _deserializeValue items = Ok items.
Proof.
  induction 1 as [|i items Hi _ IHl]; intros H; [reflexivity|].
  cbn [forallb] in H. apply andb_prop in H. destruct H as [H1 H2].
  cbn [deserialize_items].
  assert (G : match i with
              | VObj cls ps =>
                  is_frame <- js_in "___frame___" (VObj cls ps) ;;
                  if (is_frame : bool)
                  then dictToFrame_with _deserializeValue (VObj cls ps)
                  else _deserializeValue i false false
              | _ => _deserializeValue i false false
              end = Ok i).
  { destruct i; try exact Hi.
    cbn [plain_data] in H1. apply andb_prop in H1. destruct H1 as [Hm _].
    destruct (plain_map_parts _ _ Hm) as (_ & _ & Hf & _).
    rewrite js_in_plain_map by exact Hf. exact Hi. }
  rewrite G. cbn [bind]. rewrite (IHl H2). reflexivity.
Qed.

(** [_deserializeValue] without markers leaves plain data as it is. *)
Lemma deserializeValue_plain (v : value) :
  plain_data v = true -> _deserializeValue v false false = Ok v.
Proof.
  induction v as [| |b|n|s|bs|tf items IH|cls ps IH|name src]
    using value_ind2; intros H; try discriminate H; try reflexivity.
  - cbn [plain_data] in H. apply andb_prop in H. destruct H as [Ht Hi].
    apply negb_true_iff in Ht. subst tf. cbn [_deserializeValue].
    rewrite deserialize_items_plain; [reflexivity | | exact Hi].
    clear - IH Hi. induction IH as [|i items Hx _ IHl]; constructor;
      cbn [forallb] in Hi; apply andb_prop in Hi; destruct Hi as [H1 H2].
    + apply Hx. exact H1.
    + apply IHl. exact H2.
  - cbn [plain_data] in H. apply andb_prop in H. destruct H as [Hm Ha].
    destruct (plain_map_parts _ _ Hm) as (-> & Hn & Hf & Hp).
    cbn [_deserializeValue]. rewrite js_in_plain_map by exact Hf.
    cbn [bind].
    rewrite (@assign_loop (fun x => _deserializeValue x false false)
               (fun x => x) (deserialize_props _deserializeValue));
      try reflexivity; [| exact Hn | exact Hp |].
    + cbn [app bind]. rewrite map_values_id. reflexivity.
    + apply all_values_Forall in Ha.
      clear - IH Ha. induction IH as [|kv ps Hx _ IHl]; constructor.
      * apply Hx. inversion Ha; assumption.
      * apply IHl. inversion Ha; assumption.
Qed.

Lemma plain_data_compatible (v : value) :
  plain_data v = true -> json_compatible v = true.
Proof.
  induction v as [| |b|n|s|bs|tf items IH|cls ps IH|name src]
    using value_ind2; intros H; try discriminate H; try reflexivity.
  - exact H.
  - cbn [plain_data] in H. apply andb_prop in H. destruct H as [Ht Hi].
    cbn [json_compatible]. rewrite Ht. cbn [andb].
    induction IH as [|i items Hx _ IHl]; [reflexivity|].
    cbn [forallb] in *. apply andb_prop in Hi. destruct Hi as [H1 H2].
    rewrite (Hx H1), (IHl H2). reflexivity.
  - cbn [plain_data] in H. apply andb_prop in H. destruct H as [Hm Ha].
    destruct (plain_map_parts _ _ Hm) as (-> & Hn & _ & _).
    cbn [json_compatible is_plain_class String.eqb Ascii.eqb Bool.eqb].
    apply nodup_keys_NoDup in Hn. rewrite Hn. cbn [andb].
    clear Hm Hn. revert Ha.
    induction IH as [|[k x] ps Hx _ IHl]; intros Ha; [reflexivity|].
    cbn [all_values] in Ha. apply andb_prop in Ha. destruct Ha as [H1 H2].
    cbn [snd] in Hx. rewrite (Hx H1). cbn [andb]. apply IHl. exact H2.
Qed.

Lemma flatten_plain (v : value) : plain_data v = true -> flatten v = v.
Proof.
  induction v as [| |b|n|s|bs|tf items IH|cls ps IH|name src]
    using value_ind2; intros H; try discriminate H; try reflexivity.
  - cbn [plain_data] in H. apply andb_prop in H. destruct H as [Ht Hi].
    apply negb_true_iff in Ht. subst tf. cbn [flatten]. f_equal.
    induction IH as [|i items Hx _ IHl]; [reflexivity|].
    cbn [forallb] in Hi. apply andb_prop in Hi. destruct Hi as [H1 H2].
    cbn [map]. rewrite (Hx H1), (IHl H2). reflexivity.
  - cbn [plain_data] in H. apply andb_prop in H. destruct H as [_ Ha].
    cbn [flatten]. f_equal.
    induction IH as [|[k x] ps Hx _ IHl]; [reflexivity|].
    cbn [all_values] in Ha. apply andb_prop in Ha. destruct Ha as [H1 H2].
    cbn [map_values]. cbn [snd] in Hx. rewrite (Hx H1), (IHl H2). reflexivity.
Qed.

Lemma plain_data_tags (v : value) :
  plain_data v = true -> tags_printable v = true.
Proof.
  induction v as [| |b|n|s|bs|tf items IH|cls ps IH|name src]
    using value_ind2; intros H; try discriminate H; try reflexivity.
  - cbn [plain_data] in H. apply andb_prop in H. destruct H as [_ Hi].
    cbn [tags_printable].
    induction IH as [|i items Hx _ IHl]; [reflexivity|].
    cbn [forallb] in *. apply andb_prop in Hi. destruct Hi as [H1 H2].
    rewrite (Hx H1), (IHl H2). reflexivity.
  - cbn [plain_data] in H. apply andb_prop in H. destruct H as [Hm Ha].
    destruct (plain_map_parts _ _ Hm) as (_ & _ & Hf & _).
    cbn [tags_printable]. unfold field. unfold has_key in Hf.
    destruct (lookup ps "___frame___"); [discriminate Hf|].
    cbn [printable ToString text_of andb]. clear Hm Hf.
    induction IH as [|[k x] ps Hx _ IHl]; [reflexivity|].
    cbn [all_values] in *. apply andb_prop in Ha. destruct Ha as [H1 H2].
    cbn [snd] in Hx. rewrite (Hx H1), (IHl H2). reflexivity.
Qed.

(** Deserializing the flattened value of a field with the two markers of
    the field. *)
Lemma deserialize_flatten (v : value) :
  supported v = true ->
  _deserializeValue (flatten v) (is_Uint8Array v) (is_tuple_array v)
  = Ok (restore v).
Proof.
  intros H. assert (Hp := flatten_plain_data v H).
  destruct v as [| |b|n|s|bs|tf items|cls ps|name src];
    try discriminate H; try reflexivity.
  - cbn [flatten _deserializeValue is_Uint8Array].
    unfold atob, btoa. cbn [ToString text_of bind]. rewrite Base64Facts.atob_btoa.
    cbn [bind]. unfold charCodes, binary_string.
    rewrite list_byte_of_string_of_list_byte. reflexivity.
  - cbn [flatten _deserializeValue is_tuple_array restore].
    cbn [flatten plain_data negb andb] in Hp.
    rewrite deserialize_items_plain; [reflexivity | | exact Hp].
    apply Forall_forall. intros i Hi. apply deserializeValue_plain.
    rewrite forallb_forall in Hp. apply Hp. exact Hi.
  - cbn [is_Uint8Array is_tuple_array restore].
    apply deserializeValue_plain. exact Hp.
Qed.

(** C2 (as amended).  For every supported value held directly by a frame
    field, whose blobs the engine can spread into a call: serializing,
    printing, parsing and deserializing with the two markers that
    [_frameToDict] records gives back a value of the same shape at the top:
    a blob comes back as the same blob, a tuple-flagged sequence comes back
    tuple-flagged, a list comes back as a list, a map as a map.  Below the
    top a blob comes back as its base64 string and a tuple flag is dropped
    ([restore] flattens what is nested). *)
Theorem type_shape_of_fields (v : value) :
  supported v = true ->
  within_limit v = true ->
  exists text,
    _serializeValue v = Ok (flatten v)
    /\ JSON.stringify (flatten v) = VStr text
    /\ JSON.parse text = Ok (flatten v)
    /\ _deserializeValue (flatten v) (is_Uint8Array v) (is_tuple_array v)
       = Ok (restore v)
    /\ is_Uint8Array (restore v) = is_Uint8Array v
    /\ is_tuple_array (restore v) = is_tuple_array v.
Proof.
  intros H Hl.
  assert (Hp := flatten_plain_data v H).
  assert (Hc := plain_data_compatible _ Hp).
  unfold JSON.stringify.
  destruct (JSON.stringify_value (flatten v)) as [text|] eqn:Et.
  2:{ assert (Hj := JSONFacts.has_json_stringify (flatten v)).
      rewrite Et in Hj. destruct (flatten v); discriminate. }
  exists text. split; [apply serializeValue_supported; assumption|].
  split; [reflexivity|]. split.
  { rewrite (JSONFacts.parse_stringify _ Et).
    rewrite JSONFacts.jsonify_compatible by exact Hc. reflexivity. }
  split; [apply deserialize_flatten; exact H|].
  destruct v as [| |b|n|s|bs|tf items|cls ps|name src];
    try discriminate H; split; reflexivity.
Qed.

Lemma lookup_In (l : props) (x : string) (y : value) :
  NoDup (keys l) -> In (x, y) l -> lookup l x = Some y.
Proof.
  induction l as [|[k v] l IH]; intros Hn Hin; [contradiction|].
  cbn [keys map fst] in Hn. inversion Hn as [|? ? Hk Hn']; subst.
  cbn [lookup]. destruct Hin as [E|Hin].
  - injection E as -> ->. rewrite String.eqb_refl. reflexivity.
  - destruct (String.eqb_spec k x) as [->|]; [|apply IH; assumption].
    exfalso. apply Hk. change x with (fst (x, y)). apply in_map. exact Hin.
Qed.

Lemma lookup_None (l : props) (x : string) :
  ~ In x (keys l) -> lookup l x = None.
Proof.
  intros H. destruct (lookup l x) eqn:E; [|reflexivity].
  exfalso. apply H. apply has_key_In. unfold has_key. rewrite E. reflexivity.
Qed.

Lemma lookup_Some_In (l : props) (x : string) (y : value) :
  lookup l x = Some y -> In (x, y) l.
Proof.
  induction l as [|[k v] l IH]; intros H; [discriminate H|].
  cbn [lookup] in H. destruct (String.eqb_spec k x) as [->|].
  - injection H as ->. left. reflexivity.
  - right. apply IH. exact H.
Qed.

Lemma startsWith_3 (k : string) :
  startsWith k "__" = false -> startsWith k "___" = false.
Proof.
  intros H. assert (G := startsWith_3_2 k). rewrite H in G.
  apply orb_false_iff in G. destruct G as [G _].
  apply orb_false_iff in G. apply G.
Qed.

Lemma serial_key_parts (k : string) :
  serial_key k = true ->
  startsWith k "__" = false /\ mem_string k Object_prototype_keys = false
  /\ mem_string k base_fields = false.
Proof.
  unfold serial_key. intros H.
  apply andb_prop in H. destruct H as [H H3].
  apply andb_prop in H. destruct H as [H1 H2].
  apply negb_true_iff in H1, H2, H3. auto.
Qed.

Lemma slot_inj (x k k' : string) :
  startsWith k "__" = false -> startsWith k' "__" = false ->
  slot x k -> slot x k' -> k = k'.
Proof.
  intros Hk Hk' [-> | [-> | ->]] [H | [H | H]]; try congruence.
  - subst k. discriminate Hk.
  - subst k. discriminate Hk.
  - subst k'. discriminate Hk'.
  - apply bytes_marker_inj. exact H.
  - destruct (bytes_marker_not_tuple H).
  - subst k'. discriminate Hk'.
  - symmetry in H. destruct (bytes_marker_not_tuple H).
  - apply tuple_marker_inj. exact H.
Qed.

Lemma In_encode_entry (x : string) (y : value) (k : string) (v : value) :
  In (x, y) (encode_entry (k, v)) ->
  (x = bytes_marker k /\ y = VBool true /\ is_Uint8Array v = true)
  \/ (x = tuple_marker k /\ y = VBool true /\ is_tuple_array v = true)
  \/ (x = k /\ y = unwrap (_serializeValue v)).
Proof.
  unfold encode_entry. cbn [fst snd]. intros H.
  apply in_app_or in H. destruct H as [H|H].
  - destruct (is_Uint8Array v); [|contradiction].
    destruct H as [H|H]; [|destruct H]. injection H as <- <-. auto.
  - apply in_app_or in H. destruct H as [H|H].
    + destruct (is_tuple_array v); [|contradiction].
      destruct H as [H|H]; [|destruct H]. injection H as <- <-. auto.
    + destruct H as [H|H]; [|destruct H]. injection H as <- <-. auto.
Qed.

Lemma keys_encode_entry (x k : string) (v : value) :
  In x (keys (encode_entry (k, v))) -> slot x k.
Proof.
  intros H. unfold keys in H. apply in_map_iff in H.
  destruct H as ([x' y] & <- & H). cbn [fst].
  apply In_encode_entry in H. unfold slot.
  destruct H as [(-> & _)|[(-> & _)|(-> & _)]]; auto.
Qed.

Lemma In_encoded_fields (qs : props) (x : string) (y : value) :
  In (x, y) (encoded_fields qs) ->
  exists k v, In (k, v) qs /\ serial_key k = true
              /\ In (x, y) (encode_entry (k, v)).
Proof.
  unfold encoded_fields. intros H. apply in_flat_map in H.
  destruct H as ([k v] & H1 & H2). apply filter_In in H1.
  destruct H1 as [H1 H3]. exists k, v. auto.
Qed.

Lemma keys_encoded_fields (qs : props) (x : string) :
  In x (keys (encoded_fields qs)) ->
  exists k v, In (k, v) qs /\ serial_key k = true /\ slot x k
              /\ In x (keys (encode_entry (k, v))).
Proof.
  intros H. unfold keys in H. apply in_map_iff in H.
  destruct H as ([x' y] & <- & H). cbn [fst].
  destruct (In_encoded_fields _ _ _ H) as (k & v & H1 & H2 & H3).
  exists k, v. repeat split; try assumption.
  - apply (@keys_encode_entry x' k v). unfold keys.
    change x' with (fst (x', y)). apply in_map. exact H3.
  - unfold keys. change x' with (fst (x', y)). apply in_map. exact H3.
Qed.

Lemma NoDup_encode_entry (k : string) (v : value) :
  startsWith k "__" = false -> NoDup (keys (encode_entry (k, v))).
Proof.
  intros Hk. unfold encode_entry. cbn [fst snd].
  assert (H1 : bytes_marker k <> k) by (intros E; rewrite <- E in Hk; discriminate Hk).
  assert (H2 : tuple_marker k <> k) by (intros E; rewrite <- E in Hk; discriminate Hk).
  assert (H3 := @bytes_marker_not_tuple k k).
  destruct (is_Uint8Array v), (is_tuple_array v); cbn [keys map fst app];
    repeat (constructor; [cbn [In]; intuition congruence|]); constructor.
Qed.

Lemma encoded_fields_cons (k : string) (v : value) (qs : props) :
  encoded_fields ((k, v) :: qs)
  = if serial_key k then (encode_entry (k, v) ++ encoded_fields qs)%list
    else encoded_fields qs.
Proof.
  unfold encoded_fields. cbn [List.filter fst].
  destruct (serial_key k); reflexivity.
Qed.

Lemma NoDup_encoded_fields (qs : props) :
  NoDup (keys qs) -> NoDup (keys (encoded_fields qs)).
Proof.
  induction qs as [|[k v] qs IH]; intros Hn; [constructor|].
  cbn [keys map fst] in Hn. inversion Hn as [|? ? Hk Hn']; subst.
  rewrite encoded_fields_cons.
  destruct (serial_key k) eqn:Es; [|apply IH; exact Hn'].
  destruct (serial_key_parts _ Es) as (Hd & _ & _).
  rewrite keys_app. apply NoDup_app.
  - apply NoDup_encode_entry. exact Hd.
  - apply IH. exact Hn'.
  - intros x Hx Hx'. apply keys_encode_entry in Hx.
    destruct (keys_encoded_fields _ _ Hx') as (k' & v' & H1 & H2 & H3 & _).
    destruct (serial_key_parts _ H2) as (Hd' & _ & _).
    assert (k = k') by (apply (slot_inj Hd Hd' Hx H3)). subst k'.
    apply Hk. change k with (fst (k, v')). apply in_map. exact H1.
Qed.

Lemma keys_envelope_head (name : value) (ps : props) (x : string) :
  In x (keys (envelope_head name ps)) ->
  x = "___frame___" \/ (mem_string x base_fields = true /\ has_key ps x = true).
Proof.
  intros H. apply has_key_In in H. unfold has_key in H.
  rewrite lookup_envelope_head in H.
  destruct (mem_string x base_fields && has_key ps x) eqn:E.
  - apply andb_prop in E. auto.
  - destruct (String.eqb_spec "___frame___" x); [auto | discriminate H].
Qed.

Lemma slot_not_head (x k : string) :
  serial_key k = true -> slot x k ->
  x <> "___frame___" /\ mem_string x base_fields = false.
Proof.
  intros Hs Hx. destruct (serial_key_parts _ Hs) as (Hd & _ & Hb).
  destruct Hx as [-> | [-> | ->]].
  - split; [intros ->; discriminate Hd | exact Hb].
  - split; [apply marker_not_short; cbn; lia|].
    apply dunder_not_base. reflexivity.
  - split; [apply marker_not_short; cbn; lia|].
    apply dunder_not_base. reflexivity.
Qed.

Lemma NoDup_encoded_frame (name : value) (ps : props) :
  NoDup (keys ps) -> NoDup (keys (encoded_frame name ps)).
Proof.
  intros Hn. unfold encoded_frame. fold (envelope_head name ps).
  rewrite keys_app. apply NoDup_app.
  - apply nodup_keys_NoDup. apply nodup_envelope_head.
  - apply NoDup_encoded_fields. exact Hn.
  - intros x Hx Hx'. apply keys_envelope_head in Hx.
    destruct (keys_encoded_fields _ _ Hx') as (k & v & _ & H2 & H3 & _).
    destruct (slot_not_head H2 H3) as [H4 H5].
    destruct Hx as [Hx|[Hx _]]; congruence.
Qed.

Lemma fresh_set (d : props) (k : string) (v : value) (rest : list string) :
  NoDup (keys d ++ k :: rest)%list -> String.eqb k "__proto__" = false ->
  assign d k v = (d ++ [(k, v)])%list
  /\ NoDup (keys (d ++ [(k, v)]) ++ rest)%list.
Proof.
  intros Hn Hp. unfold assign. rewrite Hp. split.
  - apply obj_set_fresh. destruct (has_key d k) eqn:E; [|reflexivity].
    apply has_key_In in E. apply NoDup_remove_2 in Hn.
    exfalso. apply Hn. apply in_or_app. left. exact E.
  - rewrite keys_app. cbn [keys map fst]. rewrite <- app_assoc. exact Hn.
Qed.

Lemma marker_not_proto (k : string) :
  String.eqb (bytes_marker k) "__proto__" = false
  /\ String.eqb (tuple_marker k) "__proto__" = false.
Proof.
  destruct (@marker_not_short k "__proto__" ltac:(cbn; lia)) as [H1 H2].
  split; apply String.eqb_neq; assumption.
Qed.

Lemma regular_not_proto (k : string) :
  startsWith k "__" = false -> String.eqb k "__proto__" = false.
Proof.
  intros H. apply String.eqb_neq. intros ->. discriminate H.
Qed.

(** The loop of [_frameToDict] appends the entries of the serialized
    fields, in order. *)
Lemma frameToDict_fields_spec :
  forall qs d,
    NoDup (keys d ++ keys (encoded_fields qs))%list ->
    (forall k v, In (k, v) qs -> mem_string k base_fields = true ->
                 has_key d k = true) ->
    (forall k v, In (k, v) qs -> serial_key k = true ->
                 exists x, _serializeValue v = Ok x) ->
    frameToDict_fields _serializeValue qs d = Ok (d ++ encoded_fields qs)%list.
Proof.
  induction qs as [|[k v] qs IH]; intros d Hn Hb Hs.
  - cbn. rewrite app_nil_r. reflexivity.
  - assert (Hb' : forall k v, In (k, v) qs -> mem_string k base_fields = true ->
                              has_key d k = true)
      by (intros; eapply Hb; [right|]; eassumption).
    assert (Hs' : forall k v, In (k, v) qs -> serial_key k = true ->
                              exists x, _serializeValue v = Ok x)
      by (intros; eapply Hs; [right|]; eassumption).
    cbn [frameToDict_fields]. unfold frameToDict_field.
    rewrite encoded_fields_cons in *.
    destruct (serial_key k) eqn:Es.
    + destruct (serial_key_parts _ Es) as (Hd & Hp & _).
      destruct (Hs k v (or_introl eq_refl) Es) as [x Ex].
      unfold in_plain. rewrite Hd, (startsWith_3 _ Hd), Hp, !orb_false_r.
      unfold encode_entry in *. cbn [fst snd] in *. rewrite Ex in *.
      cbn [unwrap bind] in *.
      destruct (marker_not_proto k) as [Hm1 Hm2].
      assert (Hkp := regular_not_proto _ Hd).
      rewrite !keys_app in Hn.
      destruct (is_Uint8Array v), (is_tuple_array v);
        cbn [app keys map fst] in Hn |- *.
      * assert (Hf : has_key d k = false).
        { destruct (has_key d k) eqn:E; [|reflexivity].
          apply has_key_In in E. exfalso.
          apply NoDup_remove_1 in Hn. apply NoDup_remove_1 in Hn.
          apply NoDup_remove_2 in Hn. apply Hn. apply in_or_app. auto. }
        rewrite Hf.
        destruct (@fresh_set _ _ (VBool true) _ Hn Hm1) as [-> Hn1].
        destruct (@fresh_set _ _ (VBool true) _ Hn1 Hm2) as [-> Hn2].
        destruct (@fresh_set _ _ x _ Hn2 Hkp) as [-> Hn3].
        cbn [bind]. rewrite IH; [| exact Hn3 | | exact Hs'].
        -- rewrite <- !app_assoc. reflexivity.
        -- intros k' v' H1 H2. rewrite !has_key_app, (Hb' k' v' H1 H2).
           reflexivity.
      * assert (Hf : has_key d k = false).
        { destruct (has_key d k) eqn:E; [|reflexivity].
          apply has_key_In in E. exfalso.
          apply NoDup_remove_1 in Hn.
          apply NoDup_remove_2 in Hn. apply Hn. apply in_or_app. auto. }
        rewrite Hf.
        destruct (@fresh_set _ _ (VBool true) _ Hn Hm1) as [-> Hn1].
        destruct (@fresh_set _ _ x _ Hn1 Hkp) as [-> Hn3].
        cbn [bind]. rewrite IH; [| exact Hn3 | | exact Hs'].
        -- rewrite <- !app_assoc. reflexivity.
        -- intros k' v' H1 H2. rewrite !has_key_app, (Hb' k' v' H1 H2).
           reflexivity.
      * assert (Hf : has_key d k = false).
        { destruct (has_key d k) eqn:E; [|reflexivity].
          apply has_key_In in E. exfalso.
          apply NoDup_remove_1 in Hn.
          apply NoDup_remove_2 in Hn. apply Hn. apply in_or_app. auto. }
        rewrite Hf.
        destruct (@fresh_set _ _ (VBool true) _ Hn Hm2) as [-> Hn1].
        destruct (@fresh_set _ _ x _ Hn1 Hkp) as [-> Hn3].
        cbn [bind]. rewrite IH; [| exact Hn3 | | exact Hs'].
        -- rewrite <- !app_assoc. reflexivity.
        -- intros k' v' H1 H2. rewrite !has_key_app, (Hb' k' v' H1 H2).
           reflexivity.
      * assert (Hf : has_key d k = false).
        { destruct (has_key d k) eqn:E; [|reflexivity].
          apply has_key_In in E. exfalso.
          apply NoDup_remove_2 in Hn. apply Hn. apply in_or_app. auto. }
        rewrite Hf.
        destruct (@fresh_set _ _ x _ Hn Hkp) as [-> Hn3].
        cbn [bind]. rewrite IH; [| exact Hn3 | | exact Hs'].
        -- rewrite <- !app_assoc. reflexivity.
        -- intros k' v' H1 H2. rewrite !has_key_app, (Hb' k' v' H1 H2).
           reflexivity.
    + assert (Ht : in_plain k d || startsWith k "___" || startsWith k "__" = true).
      { unfold serial_key in Es. unfold in_plain.
        destruct (startsWith k "__"); [apply orb_true_r|].
        destruct (mem_string k Object_prototype_keys);
          [rewrite orb_true_r; reflexivity|].
        destruct (mem_string k base_fields) eqn:Eb; [|discriminate Es].
        rewrite (Hb k v (or_introl eq_refl) Eb). reflexivity. }
      rewrite Ht. cbn [bind]. apply IH; assumption.
Qed.

Lemma get_total (v : value) (k : string) :
  v <> VUndefined -> v <> VNull -> exists x, get v k = Ok x.
Proof.
  intros H1 H2. unfold get.
  destruct v; try congruence;
    repeat match goal with
           | |- context [match ?x with _ => _ end] => destruct x
           end; eexists; reflexivity.
Qed.

Lemma get_constructor (cls : option string) (ps : props) :
  get (VObj cls ps) "constructor"
  = Ok match lookup ps "constructor" with
       | Some c => c
       | None => match cls with
                 | Some c => class_function c
                 | None => VUndefined
                 end
       end.
Proof.
  unfold get. cbn [own_enumerable own_hidden lookup builtin_class].
  destruct (lookup ps "constructor"); [reflexivity|].
  destruct cls; reflexivity.
Qed.

Lemma readable_constructor_name (cls : option string) (ps : props) :
  readable_constructor cls ps = true ->
  exists name, constructor_name (VObj cls ps) = Ok name.
Proof.
  unfold readable_constructor, constructor_name.
  rewrite get_constructor. cbn [bind].
  destruct (lookup ps "constructor") as [c|].
  - intros H. apply get_total; intros ->; discriminate H.
  - destruct cls; [|discriminate]. intros _. eexists. reflexivity.
Qed.

Lemma frameToDict_encoded (cls : option string) (ps : props) (name : value) :
  nodup_keys ps = true ->
  constructor_name (VObj cls ps) = Ok name ->
  (forall k v, In (k, v) ps -> serial_key k = true ->
               exists x, _serializeValue v = Ok x) ->
  _frameToDict (VObj cls ps) = Ok (plain (encoded_frame name ps)).
Proof.
  intros Hn Hc Hs. apply nodup_keys_NoDup in Hn.
  unfold _frameToDict. rewrite frameToDict_obj, Hc. cbn [bind].
  rewrite frameToDict_fields_spec; [reflexivity | | | exact Hs].
  - rewrite <- keys_app. apply (@NoDup_encoded_frame name ps Hn).
  - intros k v Hin Hb. unfold has_key. rewrite lookup_envelope_head, Hb.
    rewrite (@In_has_key ps k v Hin). cbn [andb].
    rewrite (@lookup_In ps k v Hn Hin). reflexivity.
Qed.

Lemma keys_encode_entry_cases (x k : string) (v : value) :
  In x (keys (encode_entry (k, v))) ->
  (x = bytes_marker k /\ is_Uint8Array v = true)
  \/ (x = tuple_marker k /\ is_tuple_array v = true)
  \/ x = k.
Proof.
  intros H. unfold keys in H. apply in_map_iff in H.
  destruct H as ([x' y] & <- & H). cbn [fst].
  apply In_encode_entry in H.
  destruct H as [(-> & _ & H)|[(-> & _ & H)|(-> & _)]]; auto.
Qed.

Lemma In_encoded_entry (qs : props) (k : string) (v : value) (e : string * value) :
  In (k, v) qs -> serial_key k = true -> In e (encode_entry (k, v)) ->
  In e (encoded_fields qs).
Proof.
  intros H1 H2 H3. unfold encoded_fields. apply in_flat_map.
  exists (k, v). split; [|exact H3]. apply filter_In. auto.
Qed.

Lemma lookup_encoded_frame_split (name : value) (ps : props) (x : string) :
  lookup (encoded_frame name ps) x
  = match (if mem_string x base_fields && has_key ps x then lookup ps x
           else if String.eqb "___frame___" x then Some name else None) with
    | Some v => Some v
    | None => lookup (encoded_fields ps) x
    end.
Proof.
  unfold encoded_frame. fold (envelope_head name ps).
  rewrite lookup_app, lookup_envelope_head. reflexivity.
Qed.

Lemma encoded_key_owner (ps : props) (x k : string) (v : value) :
  NoDup (keys ps) -> In (k, v) ps -> serial_key k = true -> slot x k ->
  In x (keys (encoded_fields ps)) -> In x (keys (encode_entry (k, v))).
Proof.
  intros Hn Hin Hs Hx H.
  destruct (keys_encoded_fields _ _ H) as (k' & v' & H1 & H2 & H3 & H4).
  destruct (serial_key_parts _ Hs) as (Hd & _ & _).
  destruct (serial_key_parts _ H2) as (Hd' & _ & _).
  assert (k = k') by (apply (slot_inj Hd Hd' Hx H3)). subst k'.
  assert (E : Some v = Some v').
  { rewrite <- (@lookup_In ps k v Hn Hin). apply (@lookup_In ps k v' Hn H1). }
  injection E as <-. exact H4.
Qed.

(** The envelope of a frame, by lookups. *)
Lemma lookup_encoded_frame (name : value) (ps : props) :
  NoDup (keys ps) ->
  lookup (encoded_frame name ps) "___frame___" = Some name
  /\ lookup (encoded_frame name ps) "___type___" = None
  /\ (forall b, mem_string b base_fields = true ->
                lookup (encoded_frame name ps) b = lookup ps b)
  /\ (forall k v, In (k, v) ps -> serial_key k = true ->
        lookup (encoded_frame name ps) k = Some (unwrap (_serializeValue v))
        /\ lookup (encoded_frame name ps) (bytes_marker k)
           = (if is_Uint8Array v then Some (VBool true) else None)
        /\ lookup (encoded_frame name ps) (tuple_marker k)
           = (if is_tuple_array v then Some (VBool true) else None))
  /\ (forall k, startsWith k "__" = false -> mem_string k base_fields = false ->
                lookup ps k = None \/ serial_key k = false ->
                lookup (encoded_frame name ps) k = None).
Proof.
  intros Hn. assert (HnE := @NoDup_encoded_fields ps Hn).
  repeat split.
  - rewrite lookup_encoded_frame_split. reflexivity.
  - rewrite lookup_encoded_frame_split. cbn [mem_string existsb base_fields andb].
    cbn. apply lookup_None. intros H.
    destruct (keys_encoded_fields _ _ H) as (k & v & _ & H2 & [H3|[H3|H3]] & _).
    + subst k. discriminate H2.
    + symmetry in H3. revert H3. apply marker_not_short. cbn. lia.
    + symmetry in H3. revert H3. apply marker_not_short. cbn. lia.
  - intros b Hb. rewrite lookup_encoded_frame_split, Hb. cbn [andb].
    destruct (has_key ps b) eqn:E.
    + unfold has_key in E. destruct (lookup ps b); [reflexivity | discriminate E].
    + assert (Hf : String.eqb "___frame___" b = false).
      { apply String.eqb_neq. intros <-. discriminate Hb. }
      rewrite Hf. unfold has_key in E.
      destruct (lookup ps b); [discriminate E|].
      apply lookup_None. intros H.
      destruct (keys_encoded_fields _ _ H) as (k & v & _ & H2 & H3 & _).
      destruct (@slot_not_head b k H2 H3) as [_ H5]. congruence.
  - rewrite lookup_encoded_frame_split.
    destruct (serial_key_parts _ H0) as (Hd & _ & Hb). rewrite Hb. cbn [andb].
    assert (Hf : String.eqb "___frame___" k = false)
      by (apply String.eqb_neq; intros <-; discriminate Hd).
    rewrite Hf. apply (@lookup_In _ _ _ HnE).
    apply (@In_encoded_entry ps k v _ H H0).
    unfold encode_entry. cbn [fst snd]. apply in_or_app. right.
    apply in_or_app. right. left. reflexivity.
  - rewrite lookup_encoded_frame_split.
    rewrite (dunder_not_base (bytes_marker k) eq_refl). cbn [andb].
    assert (Hf : String.eqb "___frame___" (bytes_marker k) = false).
    { apply String.eqb_neq. intros E. symmetry in E. revert E.
      apply marker_not_short. cbn. lia. }
    rewrite Hf. destruct (is_Uint8Array v) eqn:Eb.
    + apply (@lookup_In _ _ _ HnE). apply (@In_encoded_entry ps k v _ H H0).
      unfold encode_entry. cbn [fst snd]. rewrite Eb. left. reflexivity.
    + apply lookup_None. intros Hin.
      apply (@encoded_key_owner ps _ k v Hn H H0) in Hin; [|right; left; reflexivity].
      apply keys_encode_entry_cases in Hin.
      destruct Hin as [[_ E]|[[E _]|E]].
      * congruence.
      * destruct (bytes_marker_not_tuple E).
      * destruct (serial_key_parts _ H0) as (Hd & _ & _).
        rewrite <- E in Hd. discriminate Hd.
  - rewrite lookup_encoded_frame_split.
    rewrite (dunder_not_base (tuple_marker k) eq_refl). cbn [andb].
    assert (Hf : String.eqb "___frame___" (tuple_marker k) = false).
    { apply String.eqb_neq. intros E. symmetry in E. revert E.
      apply marker_not_short. cbn. lia. }
    rewrite Hf. destruct (is_tuple_array v) eqn:Eb.
    + apply (@lookup_In _ _ _ HnE). apply (@In_encoded_entry ps k v _ H H0).
      unfold encode_entry. cbn [fst snd]. rewrite Eb.
      apply in_or_app. right. left. reflexivity.
    + apply lookup_None. intros Hin.
      apply (@encoded_key_owner ps _ k v Hn H H0) in Hin; [|right; right; reflexivity].
      apply keys_encode_entry_cases in Hin.
      destruct Hin as [[E _]|[[_ E]|E]].
      * symmetry in E. destruct (bytes_marker_not_tuple E).
      * congruence.
      * destruct (serial_key_parts _ H0) as (Hd & _ & _).
        rewrite <- E in Hd. discriminate Hd.
  - intros k Hd Hb Hk. rewrite lookup_encoded_frame_split, Hb. cbn [andb].
    assert (Hf : String.eqb "___frame___" k = false)
      by (apply String.eqb_neq; intros <-; discriminate Hd).
    rewrite Hf. apply lookup_None. intros Hin.
    destruct (keys_encoded_fields _ _ Hin) as (k' & v' & H1 & H2 & H3 & _).
    destruct H3 as [-> | [-> | ->]]; try discriminate Hd.
    destruct Hk as [Hk|Hk]; [|congruence].
    rewrite (@lookup_In ps k' v' Hn H1) in Hk. discriminate Hk.
Qed.

(** ** Values without a serialization rule *)

Lemma frameToDict_fields_total (ser : value -> result value) (qs : props) :
  Forall (fun kv => exists x, ser (snd kv) = Ok x) qs ->
  forall d, exists d', frameToDict_fields ser qs d = Ok d'.
Proof.
  induction 1 as [|[k v] qs [x Hx] _ IH]; intros d; [eexists; reflexivity|].
  cbn [frameToDict_fields]. unfold frameToDict_field. cbn [snd] in Hx.
  destruct (in_plain k d || startsWith k "___" || startsWith k "__");
    cbn [bind]; [apply IH|].
  rewrite Hx. cbn [bind]. apply IH.
Qed.

(** [_serializeValue] throws only at a frame-shaped object whose
    constructor cannot be read, and at a blob that the engine cannot
    spread. *)
Lemma serializeValue_total (v : value) :
  constructible v = true -> within_limit v = true ->
  exists x, _serializeValue v = Ok x.
Proof.
  induction v as [| |b|n|s|bs|tf items IH|cls ps IH|name src]
    using value_ind2; intros H Hl; try (eexists; reflexivity).
  - cbn [_serializeValue within_limit] in *. unfold fromCharCode.
    unfold spreadable in Hl. rewrite Hl. eexists. reflexivity.
  - cbn [constructible within_limit] in H, Hl. cbn [_serializeValue].
    assert (G : exists xs, serialize_items _serializeValue items = Ok xs).
    { induction IH as [|i items Hi _ IHl]; [eexists; reflexivity|].
      cbn [forallb] in H, Hl. apply andb_prop in H. destruct H as [H1 H2].
      apply andb_prop in Hl. destruct Hl as [L1 L2].
      destruct (Hi H1 L1) as [x Ex]. destruct (IHl H2 L2) as [xs Exs].
      cbn [serialize_items]. rewrite Ex. cbn [bind]. rewrite Exs.
      eexists. reflexivity. }
    destruct G as [xs ->]. eexists. reflexivity.
  - cbn [constructible within_limit] in H, Hl.
    apply andb_prop in H. destruct H as [Hc Ha].
    assert (Hall : Forall (fun kv => exists x, _serializeValue (snd kv) = Ok x) ps).
    { apply all_values_Forall in Ha. apply all_values_Forall in Hl.
      clear - IH Ha Hl.
      induction IH as [|kv ps Hx _ IHl]; constructor.
      - apply Hx; [inversion Ha | inversion Hl]; assumption.
      - apply IHl; [inversion Ha | inversion Hl]; assumption. }
    cbn [_serializeValue js_in bind].
    replace (match cls with
             | Some _ => mem_string "___frame___" Object_prototype_keys
             | None => false
             end) with false by (destruct cls; reflexivity).
    rewrite orb_false_r.
    destruct (has_key ps "___frame___") eqn:Ef.
    + cbn [negb orb] in Hc. rewrite frameToDict_obj.
      destruct (readable_constructor_name _ _ Hc) as [name ->]. cbn [bind].
      destruct (frameToDict_fields_total _serializeValue Hall
                  (envelope_head name ps)) as [d ->].
      eexists. reflexivity.
    + assert (G : forall acc, exists r,
                 serialize_props _serializeValue ps acc = Ok r).
      { clear - Hall. induction Hall as [|[k x] ps [y Hy] _ IHl]; intros acc;
          [eexists; reflexivity|].
        cbn [serialize_props]. cbn [snd] in Hy. rewrite Hy. cbn [bind].
        apply IHl. }
      destruct (G []) as [r ->]. eexists. reflexivity.
Qed.

Lemma serialize_encoded (cls : option string) (ps : props) (name : value) :
  nodup_keys ps = true ->
  constructor_name (VObj cls ps) = Ok name ->
  (forall k v, In (k, v) ps -> serial_key k = true ->
               exists x, _serializeValue v = Ok x) ->
  exists text,
    serialize (VObj cls ps) = Ok (VStr text)
    /\ JSON.parse text = Ok (JSONImage.jsonify (plain (encoded_frame name ps))).
Proof.
  intros Hn Hc Ha. unfold serialize.
  rewrite (frameToDict_encoded cls ps Hn Hc Ha).
  cbn [bind try_catch].
  destruct (stringify_plain (encoded_frame name ps)) as (t & -> & Hp).
  exists t. split; [reflexivity | exact Hp].
Qed.

(** C9 (as amended).  Take a frame whose constructor name can be read,
    whose values hold no frame-shaped object without one and whose blobs
    the engine can spread.  [serialize] returns a payload, and in it a
    field that is passed to [_serializeValue] (not a marker-prefixed name,
    not a name that plain objects inherit, not a well-known field) and
    holds a value without serialization rule is the string coercion of the
    value.  A well-known field is copied as it is, so the payload holds
    what JSON text keeps of its value: nothing, when the value is a
    function or [undefined]. *)
Theorem unsupported_values_degrade (cls : option string) (ps : props) :
  nodup_keys ps = true ->
  readable_constructor cls ps = true ->
  all_values constructible ps = true ->
  all_values within_limit ps = true ->
  exists text d,
    serialize (VObj cls ps) = Ok (VStr text)
    /\ JSON.parse text = Ok (plain d)
    /\ (forall k v, lookup ps k = Some v -> serial_key k = true ->
                    unsupported v = true ->
                    exists s, ToString v = Ok s /\ lookup d k = Some (VStr s))
    /\ (forall b v, lookup ps b = Some v -> mem_string b base_fields = true ->
                    lookup d b = if JSONImage.has_json v
                                 then Some (JSONImage.jsonify v) else None)
    /\ (forall b v, lookup ps b = Some v -> mem_string b base_fields = true ->
                    unsupported v = true -> lookup d b = None).
Proof.
  intros Hn Hr Ha Hlim.
  destruct (readable_constructor_name _ _ Hr) as [name Hc].
  assert (Hser : forall k v, In (k, v) ps -> serial_key k = true ->
                             exists x, _serializeValue v = Ok x).
  { intros k' v' Hin _. apply serializeValue_total.
    - apply (In_all_values _ _ _ _ Ha Hin).
    - apply (In_all_values _ _ _ _ Hlim Hin). }
  destruct (serialize_encoded cls ps Hn Hc Hser) as (text & H1 & H2).
  assert (Hnd : NoDup (keys ps)) by (apply nodup_keys_NoDup; exact Hn).
  assert (HnD : nodup_keys (encoded_frame name ps) = true)
    by (apply nodup_keys_NoDup; apply NoDup_encoded_frame; exact Hnd).
  destruct (JSONFacts.jsonify_plain _ HnD) as (d & Ej & _ & Hl).
  exists text, d. split; [exact H1|]. split; [rewrite H2, Ej; reflexivity|].
  destruct (@lookup_encoded_frame name ps Hnd) as (_ & _ & Lb & L & _).
  assert (Hbase : forall b v, lookup ps b = Some v ->
                              mem_string b base_fields = true ->
                              lookup d b = if JSONImage.has_json v
                                           then Some (JSONImage.jsonify v)
                                           else None).
  { intros b v Hb Hm. rewrite Hl, (Lb b Hm), Hb. reflexivity. }
  split; [|split; [exact Hbase|]].
  - intros k v Hk Hs Hu. rewrite Hl.
    destruct (L k v (@lookup_Some_In ps k v Hk) Hs) as [-> _].
    destruct v; try discriminate Hu; eexists; split; reflexivity.
  - intros b v Hb Hm Hu. rewrite (Hbase b v Hb Hm).
    destruct v; try discriminate Hu; reflexivity.
Qed.

(** ** The round trip of a frame *)

Lemma plain_data_supported (v : value) :
  plain_data v = true -> supported v = true.
Proof.
  induction v as [| |b|n|s|bs|tf items IH|cls ps IH|name src]
    using value_ind2; intros H; try discriminate H; try reflexivity.
  - exact H.
  - cbn [plain_data] in H. apply andb_prop in H. destruct H as [_ Hi].
    cbn [supported].
    induction IH as [|i items Hx _ IHl]; [reflexivity|].
    cbn [forallb] in *. apply andb_prop in Hi. destruct Hi as [H1 H2].
    rewrite (Hx H1), (IHl H2). reflexivity.
  - cbn [plain_data] in H. apply andb_prop in H. destruct H as [Hm Ha].
    cbn [supported]. rewrite Hm. cbn [andb]. clear Hm.
    induction IH as [|[k x] ps Hx _ IHl]; [reflexivity|].
    cbn [all_values] in *. apply andb_prop in Ha. destruct Ha as [H1 H2].
    cbn [snd] in Hx. rewrite (Hx H1), (IHl H2). reflexivity.
Qed.

Lemma faithful_restore (v : value) :
  faithful v = true -> supported v = true /\ restore v = v.
Proof.
  intros H.
  destruct v as [| |b|n|s|bs|tf items|cls ps|name src];
    try discriminate H;
    try (split; [apply plain_data_supported; exact H
                | apply (flatten_plain _ H)]).
  - split; reflexivity.
  - cbn [faithful] in H. cbn [supported restore]. split.
    + induction items as [|i items IH]; [reflexivity|].
      cbn [forallb] in *. apply andb_prop in H. destruct H as [H1 H2].
      rewrite (plain_data_supported _ H1), (IH H2). reflexivity.
    + f_equal. induction items as [|i items IH]; [reflexivity|].
      cbn [forallb] in H. apply andb_prop in H. destruct H as [H1 H2].
      cbn [map]. rewrite (flatten_plain _ H1), (IH H2). reflexivity.
Qed.

Lemma json_compatible_plain (d : props) :
  nodup_keys d = true ->
  (forall x y, In (x, y) d -> json_compatible y = true) ->
  json_compatible (plain d) = true.
Proof.
  intros Hn Ha. unfold plain. cbn [json_compatible is_plain_class].
  rewrite String.eqb_refl, Hn. cbn [andb]. clear Hn.
  induction d as [|[x y] d IH]; [reflexivity|].
  rewrite (Ha x y (or_introl eq_refl)). cbn [andb].
  apply IH. intros x' y' H. apply (Ha x' y'). right. exact H.
Qed.

Lemma frame_fields_ok_In (ps : props) (k : string) (v : value) :
  frame_fields_ok ps = true -> In (k, v) ps ->
  (mem_string k base_fields = true /\ json_compatible v = true)
  \/ (mem_string k base_fields = false /\ serial_key k = true
      /\ faithful v = true).
Proof.
  unfold frame_fields_ok. intros H Hin. rewrite forallb_forall in H.
  specialize (H _ Hin). cbn [fst snd] in H.
  destruct (mem_string k base_fields); [left; auto|].
  apply andb_prop in H. right. auto.
Qed.

Lemma In_encoded_frame (name : value) (ps : props) (x : string) (y : value) :
  NoDup (keys ps) ->
  In (x, y) (encoded_frame name ps) ->
  (x = "___frame___" /\ y = name)
  \/ (mem_string x base_fields = true /\ In (x, y) ps)
  \/ (exists k v, In (k, v) ps /\ serial_key k = true
                  /\ In (x, y) (encode_entry (k, v))).
Proof.
  intros Hn H. unfold encoded_frame in H. fold (envelope_head name ps) in H.
  apply in_app_or in H. destruct H as [H|H].
  - assert (Hl : lookup (envelope_head name ps) x = Some y).
    { apply lookup_In; [|exact H].
      apply nodup_keys_NoDup. apply nodup_envelope_head. }
    rewrite lookup_envelope_head in Hl.
    destruct (mem_string x base_fields && has_key ps x) eqn:E.
    + apply andb_prop in E. right. left. split; [apply E|].
      apply lookup_Some_In. exact Hl.
    + destruct (String.eqb_spec "___frame___" x) as [<-|]; [|discriminate Hl].
      injection Hl as <-. left. auto.
  - right. right. apply In_encoded_fields. exact H.
Qed.

(** C1 (as amended).  For every frame made by a class with a non-empty
    name, without repeated fields, whose blobs the engine can spread into
    a call, whose well-known fields hold JSON-compatible values and whose
    other fields have names that [_frameToDict] serializes and hold null,
    a boolean, a finite number, a string, a binary blob, a list or
    tuple-flagged sequence of plain data or a plain map of plain data:
    [serialize] returns a payload, decoding it resolves to a [raw] result
    whose message has the same type tag and, under every name, the same
    value as the frame. *)
Theorem frame_round_trip (T : string) (ps : props) :
  String.eqb T "" = false ->
  nodup_keys ps = true ->
  frame_fields_ok ps = true ->
  all_values within_limit ps = true ->
  exists text frame,
    serialize (VObj (Some T) ps) = Ok (VStr text)
    /\ deserialize (VStr text) = Resolved (Raw (plain frame))
    /\ constructor_name (plain frame) = Ok (VStr T)
    /\ forall k, k <> "constructor" -> lookup frame k = lookup ps k.
Proof.
  intros HT Hn Hok Hlim.
  assert (Hnd : NoDup (keys ps)) by (apply nodup_keys_NoDup; exact Hn).
  assert (Hser : forall k v, In (k, v) ps -> serial_key k = true ->
                             _serializeValue v = Ok (flatten v)
                             /\ supported v = true /\ restore v = v).
  { intros k v Hin Hs.
    destruct (frame_fields_ok_In ps k v Hok Hin) as [[Hb _]|(_ & _ & Hf)].
    - destruct (serial_key_parts _ Hs) as (_ & _ & Hb'). congruence.
    - destruct (faithful_restore _ Hf) as [Hsup Hres].
      split; [|auto]. apply serializeValue_supported; [exact Hsup|].
      apply (In_all_values _ _ _ _ Hlim Hin). }
  assert (Hctor : lookup ps "constructor" = None).
  { destruct (lookup ps "constructor") as [c|] eqn:E; [|reflexivity].
    apply lookup_Some_In in E.
    destruct (frame_fields_ok_In ps _ _ Hok E) as [[Hb _]|(_ & Hs & _)];
      discriminate. }
  assert (Hc : constructor_name (VObj (Some T) ps) = Ok (VStr T)).
  { unfold constructor_name. rewrite get_constructor, Hctor. reflexivity. }
  destruct (serialize_encoded (Some T) ps Hn Hc
              ltac:(intros k v Hin Hs; exists (flatten v);
                    apply (Hser k v Hin Hs)))
    as (text & H1 & H2).
  set (D := encoded_frame (VStr T) ps) in *.
  assert (HnD : nodup_keys D = true)
    by (apply nodup_keys_NoDup; apply NoDup_encoded_frame; exact Hnd).
  destruct (@lookup_encoded_frame (VStr T) ps Hnd) as (L0 & L1 & L2 & L3 & L4).
  fold D in L0, L1, L2, L3, L4.
  assert (Hentry : forall x y k v, In (k, v) ps -> serial_key k = true ->
             In (x, y) (encode_entry (k, v)) ->
             y = VBool true \/ (x = k /\ y = flatten v)).
  { intros x y k v Hin Hs He. apply In_encode_entry in He.
    destruct He as [(_ & -> & _)|[(_ & -> & _)|(-> & ->)]]; auto.
    right. split; [reflexivity|].
    destruct (Hser k v Hin Hs) as [-> _]. reflexivity. }
  assert (Hcompat : json_compatible (plain D) = true).
  { apply json_compatible_plain; [exact HnD|].
    intros x y Hin. apply In_encoded_frame in Hin; [|exact Hnd].
    destruct Hin as [[_ ->]|[[Hb Hin]|(k & v & Hin & Hs & He)]].
    - reflexivity.
    - destruct (frame_fields_ok_In ps _ _ Hok Hin) as [[_ Hj]|[Hb' _]];
        [exact Hj | congruence].
    - destruct (Hentry _ _ _ _ Hin Hs He) as [->|[_ ->]]; [reflexivity|].
      apply plain_data_compatible. apply flatten_plain_data.
      apply (Hser k v Hin Hs). }
  rewrite JSONFacts.jsonify_compatible in H2 by exact Hcompat.
  assert (Hwm : well_marked D = true).
  { unfold well_marked. apply forallb_forall. intros [x y] Hin. cbn [fst snd].
    destruct y; try reflexivity.
    apply In_encoded_frame in Hin; [|exact Hnd].
    destruct Hin as [[-> _]|[[Hb _]|(k & v & Hin & Hs & He)]].
    - reflexivity.
    - unfold reserved_key. rewrite Hb, orb_true_r. reflexivity.
    - destruct (Hentry _ _ _ _ Hin Hs He) as [E|[-> E]]; [discriminate E|].
      destruct (L3 k v Hin Hs) as (_ & Lb & _). unfold field. rewrite Lb.
      destruct (is_Uint8Array v) eqn:Eb.
      + destruct v; try discriminate Eb.
        cbn [flatten] in E. injection E as ->.
        unfold btoa. rewrite Base64Facts.atob_btoa. apply orb_true_r.
      + cbn [truthy negb]. rewrite orb_true_r. reflexivity. }
  assert (Hframe : _dictToFrame (VObj (Some "Object") D)
                   = Ok (plain (decoded_frame D))).
  { apply dictToFrame_obj; [exact HnD | | exact Hwm |].
    - unfold field. rewrite L0. cbn [truthy]. rewrite HT. reflexivity.
    - intros x y Hin Hr. apply In_encoded_frame in Hin; [|exact Hnd].
      destruct Hin as [[-> _]|[[Hb _]|(k & v & Hin & Hs & He)]].
      + discriminate Hr.
      + unfold reserved_key in Hr. rewrite Hb, orb_true_r in Hr.
        discriminate Hr.
      + destruct (Hentry _ _ _ _ Hin Hs He) as [->|[_ ->]]; [reflexivity|].
        apply plain_data_tags. apply flatten_plain_data.
        apply (Hser k v Hin Hs). }
  exists text, (decoded_frame D). split; [exact H1|].
  destruct (decoded_frame_fields D) as (F1 & F2 & F3 & F4 & F5).
  split; [|split].
  - apply (@deserialize_raw (VStr text) (Some "Object") D); try assumption;
      unfold field; rewrite L1; reflexivity.
  - unfold constructor_name, plain. rewrite get_constructor, F1.
    unfold field. rewrite L0. reflexivity.
  - intros k Hk.
    destruct (mem_string k base_fields) eqn:Eb.
    { rewrite (F3 k Eb). apply L2. exact Eb. }
    destruct (startsWith k "__") eqn:Ed.
    { rewrite (F4 k Ed).
      destruct (lookup ps k) as [v|] eqn:E; [|reflexivity].
      apply lookup_Some_In in E.
      destruct (frame_fields_ok_In ps _ _ Hok E) as [[Hb _]|(_ & Hs & _)];
        [congruence|].
      destruct (serial_key_parts _ Hs) as (Hd & _ & _). congruence. }
    destruct (lookup ps k) as [v|] eqn:E.
    + assert (Hin := lookup_Some_In _ _ E).
      destruct (frame_fields_ok_In ps _ _ Hok Hin) as [[Hb _]|(_ & Hs & _)];
        [congruence|].
      destruct (L3 k v Hin Hs) as (Lk & Lb & Lt).
      destruct (Hser k v Hin Hs) as (Es & Hsup & Hres).
      rewrite Es in Lk. cbn [unwrap] in Lk.
      rewrite (F2 k (flatten v) Lk
                 ltac:(unfold reserved_key; rewrite Ed, Eb; reflexivity) Hk).
      unfold decode_field, field. rewrite Lb, Lt.
      replace (truthy match (if is_Uint8Array v then Some (VBool true) else None) with
                      | Some x => x
                      | None => VUndefined
                      end)
        with (is_Uint8Array v) by (destruct (is_Uint8Array v); reflexivity).
      replace (truthy match (if is_tuple_array v then Some (VBool true) else None) with
                      | Some x => x
                      | None => VUndefined
                      end)
        with (is_tuple_array v) by (destruct (is_tuple_array v); reflexivity).
      rewrite (deserialize_flatten v Hsup). cbn [unwrap]. rewrite Hres.
      reflexivity.
    + apply (F5 k Hk). apply L4; auto.
Qed.

(** * Further properties of the codec *)

(** ** Audio envelopes, all buffers *)

Lemma Int16Array_parity (data : list byte) :
  match Int16Array data with
  | Ok samples =>
      List.length data = (2 * List.length samples)%nat
  | Throw e => e = RangeError /\ Nat.odd (List.length data) = true
  end.
Proof.
  revert data.
  fix IH 1. intros [|lo [|hi rest]].
  - reflexivity.
  - split; reflexivity.
  - cbn [Int16Array bind]. specialize (IH rest).
    destruct (Int16Array rest) as [xs|e]; cbn [bind List.length].
    + rewrite IH. lia.
    + destruct IH as [-> IH]. split; [reflexivity|].
      change (Nat.odd (S (S (List.length rest)))) with (Nat.odd (List.length rest)).
      exact IH.
Qed.

Lemma byte_to_N_inj (a b : byte) : Byte.to_N a = Byte.to_N b -> a = b.
Proof.
  intros H. apply Some_inj. rewrite <- (Byte.of_to_N a), <- (Byte.of_to_N b).
  rewrite H. reflexivity.
Qed.

Lemma int16_range (lo hi : byte) :
  (-32768 <= int16 lo hi <= 32767)%Z.
Proof.
  unfold int16.
  assert (Hl := Byte.to_N_bounded lo). assert (Hh := Byte.to_N_bounded hi).
  destruct (Z.ltb_spec (Z.of_N (Byte.to_N lo) + 256 * Z.of_N (Byte.to_N hi)) 32768);
    lia.
Qed.

Lemma int16_inj (lo hi lo' hi' : byte) :
  int16 lo hi = int16 lo' hi' -> lo = lo' /\ hi = hi'.
Proof.
  unfold int16. intros H.
  assert (Hl := Byte.to_N_bounded lo). assert (Hh := Byte.to_N_bounded hi).
  assert (Hl' := Byte.to_N_bounded lo'). assert (Hh' := Byte.to_N_bounded hi').
  destruct (Z.ltb_spec (Z.of_N (Byte.to_N lo) + 256 * Z.of_N (Byte.to_N hi)) 32768);
    destruct (Z.ltb_spec (Z.of_N (Byte.to_N lo') + 256 * Z.of_N (Byte.to_N hi'))
                         32768);
    split; apply byte_to_N_inj; lia.
Qed.

Lemma Int16Array_inj (d1 : list byte) :
  forall d2 samples,
    Int16Array d1 = Ok samples -> Int16Array d2 = Ok samples -> d1 = d2.
Proof.
  revert d1. fix IH 1. intros [|lo [|hi rest]] d2 samples H1 H2.
  - injection H1 as <-. destruct d2 as [|lo' [|hi' rest']]; [reflexivity| |].
    + discriminate H2.
    + cbn [Int16Array] in H2. destruct (Int16Array rest'); discriminate H2.
  - discriminate H1.
  - cbn [Int16Array] in H1.
    destruct (Int16Array rest) as [xs|] eqn:E1; [|discriminate H1].
    cbn [bind] in H1. injection H1 as <-.
    destruct d2 as [|lo' [|hi' rest']]; try discriminate H2.
    cbn [Int16Array] in H2.
    destruct (Int16Array rest') as [xs'|] eqn:E2; [|discriminate H2].
    cbn [bind] in H2. injection H2 as H2 H3.
    destruct (int16_inj _ _ _ _ H2) as [-> ->]. subst xs'.
    rewrite (IH rest rest' xs E1 E2). reflexivity.
Qed.

Lemma Int16Array_range (data : list byte) :
  forall samples, Int16Array data = Ok samples ->
    Forall (fun x => (-32768 <= x <= 32767)%Z) samples.
Proof.
  revert data. fix IH 1. intros [|lo [|hi rest]] samples H.
  - injection H as <-. constructor.
  - discriminate H.
  - cbn [Int16Array] in H.
    destruct (Int16Array rest) as [xs|] eqn:E; [|discriminate H].
    cbn [bind] in H. injection H as <-.
    constructor; [apply int16_range | apply (IH rest xs E)].
Qed.

Lemma audio_result (data : list byte) (rate channels : number)
      (payload : value) (samples : list Z) :
  serializeAudio data rate channels = Ok payload ->
  deserialize payload = Resolved (Audio samples) ->
  Int16Array data = Ok samples.
Proof.
  intros Hs. apply serializeAudio_inv in Hs. destruct Hs as [_ ->].
  rewrite deserialize_audio_payload.
  destruct (Int16Array data) as [xs|e]; intros H; [|discriminate H].
  injection H as <-. reflexivity.
Qed.

(** A buffer with an odd number of octets cannot be viewed as 16-bit
    samples.  When the engine can spread it into a call, its envelope
    decodes to a [raw] result with a null message, whatever the rate and
    the channel count; when it cannot, [serializeAudio] throws a
    RangeError and there is no envelope. *)
Theorem audio_odd_buffer_null (data : list byte) (rate channels : number) :
  Nat.odd (List.length data) = true ->
  (spreadable data = true ->
   exists payload,
     serializeAudio data rate channels = Ok payload
     /\ deserialize payload = Resolved (Raw VNull))
  /\ (spreadable data = false ->
      serializeAudio data rate channels = Throw RangeError).
Proof.
  intros H. split; intros Hs.
  - eexists. split; [apply (serializeAudio_ok data rate channels Hs)|].
    rewrite deserialize_audio_payload.
    assert (P := Int16Array_parity data).
    destruct (Int16Array data) as [samples|e]; [|reflexivity].
    rewrite P, Nat.odd_mul in H. discriminate H.
  - unfold serializeAudio, fromCharCode. unfold spreadable in Hs.
    rewrite Hs. reflexivity.
Qed.

(** The audio path loses nothing: two buffers whose envelopes decode to the
    same samples are the same buffer. *)
Theorem audio_samples_determine_buffer
        (d1 d2 : list byte) (r1 c1 r2 c2 : number) (p1 p2 : value)
        (samples : list Z) :
  serializeAudio d1 r1 c1 = Ok p1 ->
  deserialize p1 = Resolved (Audio samples) ->
  serializeAudio d2 r2 c2 = Ok p2 ->
  deserialize p2 = Resolved (Audio samples) ->
  d1 = d2.
Proof.
  intros S1 H1 S2 H2.
  exact (Int16Array_inj d1 d2
           (audio_result d1 r1 c1 S1 H1) (audio_result d2 r2 c2 S2 H2)).
Qed.

(** The decoded audio has one sample for every two octets of the buffer,
    and every sample is in the signed 16-bit range. *)
Theorem audio_sample_count (data : list byte) (rate channels : number)
        (payload : value) (samples : list Z) :
  serializeAudio data rate channels = Ok payload ->
  deserialize payload = Resolved (Audio samples) ->
  List.length data = (2 * List.length samples)%nat
  /\ Forall (fun x => (-32768 <= x <= 32767)%Z) samples.
Proof.
  intros S H. assert (G := audio_result data rate channels S H). split.
  - assert (P := Int16Array_parity data). rewrite G in P. exact P.
  - apply (Int16Array_range data). exact G.
Qed.

(** ** Message envelopes, all messages *)

Lemma jsonify_message_envelope (msg : value) :
  JSONImage.jsonify (plain [("___type___", VStr "message"); ("message", msg)])
  = plain (("___type___", VStr "message")
           :: if JSONImage.has_json msg then [("message", JSONImage.jsonify msg)]
              else []).
Proof.
  cbn [JSONImage.jsonify plain JSONImage.has_json obj_set].
  destruct (JSONImage.has_json msg); reflexivity.
Qed.

(** The envelope of a message always decodes to a [message] result, never
    to a [raw] one: it carries what JSON text keeps of the message, and
    [undefined] when JSON text keeps nothing of it (a function, or
    [undefined] itself). *)
Theorem message_envelope_decodes (msg : value) :
  deserialize (serializeMessage msg)
  = Resolved (Message (if JSONImage.has_json msg then JSONImage.jsonify msg
                       else VUndefined)).
Proof.
  unfold serializeMessage.
  destruct (stringify_plain [("___type___", VStr "message"); ("message", msg)])
    as (t & -> & Hp).
  rewrite jsonify_message_envelope in Hp.
  unfold deserialize, deserialize_try, payload_of. rewrite Hp.
  destruct (JSONImage.has_json msg); reflexivity.
Qed.

(** ** The dispatch of [deserialize] *)

Lemma lookup_indexed_underscore (l : list value) :
  forall n k, startsWith k "_" = true -> lookup (indexed_from n l) k = None.
Proof.
  induction l as [|v l IH]; intros n k Hk; [reflexivity|].
  cbn [indexed_from lookup]. rewrite (IH _ _ Hk).
  unfold string_of_nat.
  destruct (JSONFacts.string_of_Z_head (Z.of_nat n)) as (c & r & -> & Hc).
  destruct k as [|c' k']; [discriminate Hk|].
  cbn [startsWith] in Hk. rewrite andb_true_r in Hk.
  apply Ascii.eqb_eq in Hk. subst c'.
  cbn [String.eqb]. destruct (Ascii.eqb_spec c "_"%char) as [->|]; [|reflexivity].
  discriminate Hc.
Qed.

Lemma startsWith_3_inv (k : string) :
  startsWith k "___" = true -> exists r, k = "___" ++ r.
Proof.
  destruct k as [|c1 [|c2 [|c3 r]]]; cbn [startsWith]; intros H;
    rewrite ?andb_false_r in H; try discriminate H.
  apply andb_prop in H as [E1 H]. apply andb_prop in H as [E2 H].
  apply andb_prop in H as [E3 _].
  apply Ascii.eqb_eq in E1, E2, E3. subst. exists r. reflexivity.
Qed.

Lemma get_underscore (v : value) (k : string) :
  startsWith k "___" = true ->
  (forall cls ps, v <> VObj cls ps) ->
  get v k = match v with
            | VUndefined | VNull => Throw TypeError
            | _ => Ok VUndefined
            end.
Proof.
  intros Hk Hv. destruct (startsWith_3_inv k Hk) as [r ->].
  destruct v as [| |b|n|s|bs|t items|cls ps|name src]; try reflexivity;
    try (unfold get; cbn [own_enumerable own_hidden lookup];
         rewrite ?lookup_app, lookup_indexed_underscore by reflexivity;
         reflexivity).
  - unfold get. cbn [own_enumerable own_hidden lookup].
    rewrite lookup_app, lookup_indexed_underscore by reflexivity.
    destruct t; reflexivity.
  - destruct (Hv cls ps eq_refl).
Qed.

(** A payload that is not an object (valid JSON text of a number, a
    string, a list, [true], [null]; or such a value passed as it is) is no
    error for the caller: [deserialize] resolves to a [raw] result with a
    null message. *)
Theorem non_object_payload_null (data v : value) :
  payload_of data = Ok v ->
  (forall cls ps, v <> VObj cls ps) ->
  deserialize data = Resolved (Raw VNull).
Proof.
  intros Hp Hv. unfold deserialize, deserialize_try. rewrite Hp. cbn [bind].
  rewrite (@get_underscore v "___type___" eq_refl Hv).
  destruct v as [| |b|n|s|bs|t items|cls ps|name src]; try reflexivity;
    try (cbn [bind value_eqb_string]; unfold _dictToFrame, dictToFrame_with;
         rewrite (@get_underscore _ "___frame___" eq_refl Hv); reflexivity).
Qed.

Lemma non_object_payload_null_witness :
  deserialize (VStr "[1,2]") = Resolved (Raw VNull).
Proof.
  apply (@non_object_payload_null (VStr "[1,2]") (VArr false [num 1; num 2])).
  - vm_compute. reflexivity.
  - intros cls ps. discriminate.
Defined.

Lemma value_eqb_string_eq (v : value) (s : string) :
  value_eqb_string v s = true -> v = VStr s.
Proof.
  destruct v; try discriminate. cbn. intros H.
  apply String.eqb_eq in H. subst. reflexivity.
Qed.

(** The tag of a result says where it came from.  A [message] result is
    only ever made from a payload whose discriminator is ["message"], and
    carries the [message] property of that payload; an [audio] result is
    only ever made from a payload whose discriminator is ["audio"] and
    whose [audio] property is base64 text of an even number of octets, and
    carries those octets as 16-bit samples. *)
Theorem result_tags_sound (data : value) :
  (forall m, deserialize data = Resolved (Message m) ->
     exists d, payload_of data = Ok d
               /\ get d "___type___" = Ok (VStr "message")
               /\ get d "message" = Ok m)
  /\ (forall samples, deserialize data = Resolved (Audio samples) ->
        exists d a b, payload_of data = Ok d
                      /\ get d "___type___" = Ok (VStr "audio")
                      /\ get d "audio" = Ok a
                      /\ atob a = Ok b
                      /\ Int16Array (charCodes b) = Ok samples).
Proof.
  unfold deserialize, deserialize_try.
  destruct (payload_of data) as [d|e]; cbn [bind try_catch new_Promise];
    [|split; intros ? H; discriminate H].
  destruct (get d "___type___") as [ty|e] eqn:Et;
    cbn [bind try_catch new_Promise]; [|split; intros ? H; discriminate H].
  destruct (value_eqb_string ty "audio") eqn:Ea.
  - apply value_eqb_string_eq in Ea. subst ty. split.
    + intros m H. destruct (_deserializeAudio d); discriminate H.
    + intros samples H. unfold _deserializeAudio in H.
      destruct (get d "audio") as [a|] eqn:E1; [|discriminate H].
      cbn [bind] in H.
      destruct (atob a) as [b|] eqn:E2; [|discriminate H]. cbn [bind] in H.
      destruct (Int16Array (charCodes b)) as [xs|] eqn:E3; [|discriminate H].
      cbn [bind] in H.
      destruct (get d "sampleRate"); [|discriminate H]. cbn [bind] in H.
      destruct (get d "numChannels"); [|discriminate H].
      cbn [bind try_catch new_Promise audio] in H. injection H as <-.
      exists d, a, b. auto.
  - destruct (value_eqb_string ty "message") eqn:Em.
    + apply value_eqb_string_eq in Em. subst ty. split.
      * intros m H. destruct (get d "message") as [x|] eqn:E1;
          [|discriminate H].
        cbn [bind try_catch new_Promise] in H. injection H as <-.
        exists d. auto.
      * intros samples H. destruct (get d "message"); discriminate H.
    + split; intros ? H; destruct (_dictToFrame d); discriminate H.
Qed.

(** [deserialize] takes a payload as text or already parsed: on a value
    that JSON text carries as it is, and that is not itself a string, the
    result is the same either way. *)
Theorem deserialize_text_or_parsed (data : value) :
  json_compatible data = true ->
  (forall s, data <> VStr s) ->
  deserialize (JSON.stringify data) = deserialize data.
Proof.
  intros Hc Hs.
  assert (Hj : JSONImage.has_json data = true)
    by (destruct data; try discriminate Hc; reflexivity).
  rewrite JSONFacts.has_json_stringify in Hj. unfold JSON.stringify.
  destruct (JSON.stringify_value data) as [t|] eqn:Et; [|discriminate Hj].
  assert (Hp := JSONFacts.parse_stringify _ Et).
  rewrite JSONFacts.jsonify_compatible in Hp by exact Hc.
  unfold deserialize, deserialize_try.
  replace (payload_of (VStr t)) with (Ok data) by (symmetry; exact Hp).
  replace (payload_of data) with (Ok data); [reflexivity|].
  destruct data; try reflexivity. destruct (Hs s eq_refl).
Qed.

Lemma deserialize_text_or_parsed_witness :
  deserialize (JSON.stringify
                 (plain [("___type___", VStr "message"); ("message", num 7)]))
  = deserialize (plain [("___type___", VStr "message"); ("message", num 7)]).
Proof.
  apply (@deserialize_text_or_parsed
           (plain [("___type___", VStr "message"); ("message", num 7)])).
  - reflexivity.
  - intros s. discriminate.
Defined.

(** ** The payload of a frame *)

Lemma inherited_cases (x : string) :
  mem_string x Object_prototype_keys = true ->
  In x Object_prototype_keys.
Proof.
  unfold mem_string. rewrite existsb_exists. intros (y & Hy & E).
  apply String.eqb_eq in E. subst y. exact Hy.
Qed.

Lemma marker_not_inherited (k x : string) :
  mem_string x Object_prototype_keys = true ->
  bytes_marker k <> x /\ tuple_marker k <> x.
Proof.
  intros Hx. apply inherited_cases in Hx. cbn [Object_prototype_keys In] in Hx.
  repeat (destruct Hx as [<-|Hx]); try (destruct Hx);
    try (apply marker_not_short; cbn; lia);
    (split; intros H; unfold bytes_marker, tuple_marker in H;
     cbn [append] in H; try discriminate H; injection H as H;
     assert (Hl := f_equal String.length H); rewrite length_append in Hl;
     cbn [String.length] in Hl;
     destruct k as [|a [|b [|c [|d k]]]]; cbn [String.length] in Hl;
     try lia; cbn [append] in H; discriminate H).
Qed.

Lemma has_key_assign_other (ps : props) (k k' : string) (v : value) :
  k <> k' -> has_key (assign ps k v) k' = has_key ps k'.
Proof.
  intros H. unfold assign. destruct (String.eqb k "__proto__"); [reflexivity|].
  rewrite has_key_obj_set.
  destruct (String.eqb_spec k k') as [E|_]; [destruct (H E) | reflexivity].
Qed.

Lemma has_key_assign_proto (ps : props) (k : string) (v : value) :
  has_key (assign ps k v) "__proto__" = has_key ps "__proto__".
Proof.
  unfold assign. destruct (String.eqb_spec k "__proto__") as [->|H];
    [reflexivity|].
  rewrite has_key_obj_set.
  destruct (String.eqb_spec k "__proto__") as [E|_];
    [destruct (H E) | reflexivity].
Qed.

Lemma frameToDict_fields_inherited (ser : value -> result value) (k : string) :
  mem_string k Object_prototype_keys = true ->
  forall qs d d',
    frameToDict_fields ser qs d = Ok d' -> has_key d' k = has_key d k.
Proof.
  intros Hk. induction qs as [|[key v] qs IH]; intros d d' H.
  - injection H as <-. reflexivity.
  - cbn [frameToDict_fields] in H. unfold frameToDict_field in H.
    destruct (in_plain key d || startsWith key "___" || startsWith key "__")
      eqn:Es; cbn [bind] in H.
    + apply (IH _ _ H).
    + destruct (ser v) as [sv|]; [|discriminate H]. cbn [bind] in H.
      rewrite (IH _ _ H).
      apply orb_false_elim in Es as [Es _]. apply orb_false_elim in Es as [Es _].
      unfold in_plain in Es. apply orb_false_elim in Es as [_ Es].
      destruct (@marker_not_inherited key k Hk) as [Hb Ht].
      rewrite has_key_assign_other by (intros ->; congruence).
      destruct (is_tuple_array v), (is_Uint8Array v);
        rewrite ?has_key_assign_other by assumption; reflexivity.
Qed.

Lemma copy_own_inherited (frame : value) (b k : string) (d d' : props) :
  mem_string b base_fields = true ->
  mem_string k Object_prototype_keys = true ->
  copy_own frame b d = Ok d' -> has_key d' k = has_key d k.
Proof.
  intros Hb Hk H. unfold copy_own in H.
  destruct (hasOwnProperty frame b); [|injection H as <-; reflexivity].
  destruct (get frame b) as [x|]; [|discriminate H]. cbn [bind] in H.
  injection H as <-. apply has_key_assign_other. intros ->.
  apply inherited_cases in Hk. cbn [Object_prototype_keys In] in Hk.
  repeat (destruct Hk as [<-|Hk]); try (destruct Hk); discriminate Hb.
Qed.

Lemma frameToDict_inherited (frame : value) (d : props) (k : string) :
  _frameToDict frame = Ok (plain d) ->
  mem_string k Object_prototype_keys = true ->
  has_key d k = false.
Proof.
  intros H Hk. unfold _frameToDict, frameToDict_with in H.
  destruct (constructor_name frame) as [name|]; [|discriminate H].
  cbn [bind] in H.
  destruct (copy_own frame "id" [("___frame___", name)]) as [d1|] eqn:E1;
    [|discriminate H]. cbn [bind] in H.
  destruct (copy_own frame "name" d1) as [d2|] eqn:E2; [|discriminate H].
  cbn [bind] in H.
  destruct (copy_own frame "pts" d2) as [d3|] eqn:E3; [|discriminate H].
  cbn [bind] in H.
  destruct (copy_own frame "metadata" d3) as [d4|] eqn:E4; [|discriminate H].
  cbn [bind] in H.
  destruct (copy_own frame "transport_source" d4) as [d5|] eqn:E5;
    [|discriminate H]. cbn [bind] in H.
  destruct (copy_own frame "transport_destination" d5) as [d6|] eqn:E6;
    [|discriminate H]. cbn [bind] in H.
  destruct (frameToDict_fields _serializeValue (own_enumerable frame) d6)
    as [d7|] eqn:E7; [|discriminate H]. cbn [bind] in H.
  injection H as <-.
  rewrite (@frameToDict_fields_inherited _ k Hk _ _ _ E7).
  rewrite (@copy_own_inherited frame "transport_destination" k _ _ eq_refl Hk E6).
  rewrite (@copy_own_inherited frame "transport_source" k _ _ eq_refl Hk E5).
  rewrite (@copy_own_inherited frame "metadata" k _ _ eq_refl Hk E4).
  rewrite (@copy_own_inherited frame "pts" k _ _ eq_refl Hk E3).
  rewrite (@copy_own_inherited frame "name" k _ _ eq_refl Hk E2).
  rewrite (@copy_own_inherited frame "id" k _ _ eq_refl Hk E1).
  apply inherited_cases in Hk. cbn [Object_prototype_keys In] in Hk.
  repeat (destruct Hk as [<-|Hk]); try (destruct Hk); reflexivity.
Qed.

Lemma serialize_string (frame : value) (text : string) :
  serialize frame = Ok (VStr text) ->
  exists d, _frameToDict frame = Ok (plain d)
            /\ JSON.stringify (plain d) = VStr text
            /\ JSON.parse text = Ok (JSONImage.jsonify (plain d)).
Proof.
  intros H. unfold serialize in H.
  assert (G : try_catch
                (frameData <- _frameToDict frame ;; Ok (JSON.stringify frameData))
                (fun _ => name <- constructor_name frame ;;
                          _ <- ToString name ;; Ok VNull)
              = Ok (VStr text))
    by (destruct frame; try exact H; discriminate H).
  clear H. destruct (_frameToDict frame) as [fd|] eqn:Ed; cbn [bind try_catch] in G.
  - destruct (frameToDict_plain _ _ Ed) as [d ->]. exists d.
    destruct (stringify_plain d) as (t & Et & Hp). rewrite Et in G.
    injection G as <-. auto.
  - destruct (constructor_name frame) as [nm|]; cbn [bind] in G;
      [destruct (ToString nm)|]; discriminate G.
Qed.

(** Whatever the frame, a payload that [serialize] returns is the JSON text
    of an object: [JSON.parse] accepts it, so decoding it never takes the
    syntax-error path. *)
Theorem serialize_payload_parses (frame : value) (text : string) :
  serialize frame = Ok (VStr text) ->
  exists d, JSON.parse text = Ok (plain d).
Proof.
  intros H. destruct (@serialize_string _ _ H) as (d & _ & _ & Hp).
  unfold plain in Hp at 1. rewrite JSONFacts.jsonify_object in Hp.
  eexists. exact Hp.
Qed.

(** A field whose name is one that plain objects inherit ([constructor],
    [toString], [valueOf], [hasOwnProperty], ...) is never written: the
    test [key in frameDict] finds the inherited property and skips the
    field, so the payload has no such key. *)
Theorem inherited_names_not_serialized
        (cls : option string) (ps : props) (text : string) :
  serialize (VObj cls ps) = Ok (VStr text) ->
  exists d, JSON.parse text = Ok (plain d)
            /\ forall k, mem_string k Object_prototype_keys = true ->
                         lookup d k = None.
Proof.
  intros H. destruct (@serialize_string _ _ H) as (d & Hd & _ & Hp).
  destruct (frameToDict_keys _ _ Hd) as [Hn _].
  destruct (JSONFacts.jsonify_plain d Hn) as (d' & Ej & _ & Hl).
  exists d'. split; [rewrite Hp, Ej; reflexivity|].
  intros k Hk. rewrite Hl.
  assert (E := @frameToDict_inherited _ d k Hd Hk). unfold has_key in E.
  destruct (lookup d k); [discriminate E | reflexivity].
Qed.

Lemma serialize_payload_lookup (cls : option string) (ps : props) (name : value) :
  nodup_keys ps = true ->
  constructor_name (VObj cls ps) = Ok name ->
  all_values constructible ps = true ->
  all_values within_limit ps = true ->
  exists text d,
    serialize (VObj cls ps) = Ok (VStr text)
    /\ JSON.parse text = Ok (plain d)
    /\ nodup_keys d = true
    /\ forall k, lookup d k
                 = match lookup (encoded_frame name ps) k with
                   | Some x => if JSONImage.has_json x
                               then Some (JSONImage.jsonify x) else None
                   | None => None
                   end.
Proof.
  intros Hn Hc Ha Hlim.
  assert (Hser : forall k v, In (k, v) ps -> serial_key k = true ->
                             exists x, _serializeValue v = Ok x).
  { intros k' v' Hin _. apply serializeValue_total.
    - apply (In_all_values _ _ _ _ Ha Hin).
    - apply (In_all_values _ _ _ _ Hlim Hin). }
  destruct (serialize_encoded cls ps Hn Hc Hser) as (text & H1 & H2).
  assert (Hnd : NoDup (keys ps)) by (apply nodup_keys_NoDup; exact Hn).
  assert (HnD : nodup_keys (encoded_frame name ps) = true)
    by (apply nodup_keys_NoDup; apply NoDup_encoded_frame; exact Hnd).
  destruct (JSONFacts.jsonify_plain _ HnD) as (d & Ej & Hd & Hl).
  exists text, d. split; [exact H1|]. split; [rewrite H2, Ej; reflexivity|].
  split; [exact Hd | exact Hl].
Qed.

Lemma serial_key_not_dunder (k : string) :
  serial_key k = true -> startsWith k "__" = false.
Proof. intros H. apply serial_key_parts in H. tauto. Qed.

Lemma lookup_markers (name : value) (ps : props) (k : string) :
  NoDup (keys ps) ->
  lookup (encoded_frame name ps) (bytes_marker k)
  = match lookup ps k with
    | Some v => if serial_key k && is_Uint8Array v then Some (VBool true)
                else None
    | None => None
    end
  /\ lookup (encoded_frame name ps) (tuple_marker k)
     = match lookup ps k with
       | Some v => if serial_key k && is_tuple_array v then Some (VBool true)
                   else None
       | None => None
       end.
Proof.
  intros Hnd.
  assert (Absent : forall x y,
             In (x, y) (encoded_frame name ps) -> slot x k -> x <> k ->
             exists v, lookup ps k = Some v /\ serial_key k = true
                       /\ ((x = bytes_marker k /\ is_Uint8Array v = true)
                           \/ (x = tuple_marker k /\ is_tuple_array v = true))).
  { intros x y Hin Hs Hx.
    assert (Hd : startsWith x "__" = true)
      by (destruct Hs as [->|[->| ->]]; [destruct (Hx eq_refl)| |];
          apply marker_dunder).
    assert (Hlen : (13 <= String.length x)%nat)
      by (destruct Hs as [->|[->| ->]]; [destruct (Hx eq_refl)| |];
          apply marker_length).
    destruct (In_encoded_frame name ps x y Hnd Hin)
      as [[-> _]|[[Hb _]|(k' & v & Hin' & Hs' & He)]].
    - cbn in Hlen. lia.
    - rewrite (dunder_not_base x Hd) in Hb. discriminate Hb.
    - assert (Hk' := serial_key_not_dunder _ Hs').
      apply In_encode_entry in He.
      destruct He as [(-> & _ & Hv)|[(-> & _ & Hv)| [-> _]]].
      + destruct Hs as [E|[E|E]].
        * destruct (Hx E).
        * apply bytes_marker_inj in E. subst k'.
          exists v. rewrite (lookup_In _ _ _ Hnd Hin'). auto.
        * destruct (@bytes_marker_not_tuple _ _ E).
      + destruct Hs as [E|[E|E]].
        * destruct (Hx E).
        * symmetry in E. destruct (@bytes_marker_not_tuple _ _ E).
        * apply tuple_marker_inj in E. subst k'.
          exists v. rewrite (lookup_In _ _ _ Hnd Hin'). auto.
      + congruence. }
  assert (Hbk : bytes_marker k <> k).
  { intros E. assert (Hl := f_equal String.length E).
    unfold bytes_marker in Hl. rewrite !length_append in Hl. cbn in Hl. lia. }
  assert (Htk : tuple_marker k <> k).
  { intros E. assert (Hl := f_equal String.length E).
    unfold tuple_marker in Hl. rewrite !length_append in Hl. cbn in Hl. lia. }
  split.
  - destruct (lookup (encoded_frame name ps) (bytes_marker k)) as [y|] eqn:E.
    + apply lookup_Some_In in E.
      assert (Hy : y = VBool true).
      { destruct (In_encoded_frame name ps _ y Hnd E)
          as [[E' _]|[[Hb _]|(k' & v & _ & Hs' & He)]].
        - destruct (marker_not_short k "___frame___" ltac:(cbn; lia)) as [H _].
          destruct (H E').
        - rewrite dunder_not_base in Hb by apply marker_dunder.
          discriminate Hb.
        - apply In_encode_entry in He.
          destruct He as [(_ & -> & _)|[(_ & -> & _)|[E' _]]];
            try reflexivity.
          apply serial_key_not_dunder in Hs'. rewrite <- E' in Hs'.
          discriminate Hs'. }
      subst y.
      destruct (Absent _ _ E (or_intror (or_introl eq_refl)) Hbk)
        as (v & -> & -> & [[_ ->]|[Ec _]]); [reflexivity|].
      destruct (@bytes_marker_not_tuple _ _ Ec).
    + destruct (lookup ps k) as [v|] eqn:El; [|reflexivity].
      destruct (serial_key k) eqn:Es; [|reflexivity].
      destruct (is_Uint8Array v) eqn:Ev; [|reflexivity].
      apply lookup_Some_In in El.
      destruct (@lookup_encoded_frame name ps Hnd) as (_ & _ & _ & L & _).
      destruct (L k v El Es) as (_ & Lb & _). rewrite Ev in Lb. congruence.
  - destruct (lookup (encoded_frame name ps) (tuple_marker k)) as [y|] eqn:E.
    + apply lookup_Some_In in E.
      assert (Hy : y = VBool true).
      { destruct (In_encoded_frame name ps _ y Hnd E)
          as [[E' _]|[[Hb _]|(k' & v & _ & Hs' & He)]].
        - destruct (marker_not_short k "___frame___" ltac:(cbn; lia)) as [_ H].
          destruct (H E').
        - rewrite dunder_not_base in Hb by apply marker_dunder.
          discriminate Hb.
        - apply In_encode_entry in He.
          destruct He as [(_ & -> & _)|[(_ & -> & _)|[E' _]]];
            try reflexivity.
          apply serial_key_not_dunder in Hs'. rewrite <- E' in Hs'.
          discriminate Hs'. }
      subst y.
      destruct (Absent _ _ E (or_intror (or_intror eq_refl)) Htk)
        as (v & -> & -> & [[Ec _]|[_ ->]]); [|reflexivity].
      symmetry in Ec. destruct (@bytes_marker_not_tuple _ _ Ec).
    + destruct (lookup ps k) as [v|] eqn:El; [|reflexivity].
      destruct (serial_key k) eqn:Es; [|reflexivity].
      destruct (is_tuple_array v) eqn:Ev; [|reflexivity].
      apply lookup_Some_In in El.
      destruct (@lookup_encoded_frame name ps Hnd) as (_ & _ & _ & L & _).
      destruct (L k v El Es) as (_ & _ & Lt). rewrite Ev in Lt. congruence.
Qed.

(** Take a frame whose constructor name can be read, whose values hold no
    frame-shaped object without one and whose blobs the engine can spread.
    The markers of its payload tell the types of the fields exactly: the
    payload has the bytes marker of a name if and only if the frame has a
    serialized field of that name holding a [Uint8Array], and the tuple
    marker if and only if it holds a tuple-flagged array; a marker, when
    present, is [true]. *)
Theorem markers_match_field_types (cls : option string) (ps : props) :
  nodup_keys ps = true ->
  readable_constructor cls ps = true ->
  all_values constructible ps = true ->
  all_values within_limit ps = true ->
  exists text d,
    serialize (VObj cls ps) = Ok (VStr text)
    /\ JSON.parse text = Ok (plain d)
    /\ forall k,
         lookup d (bytes_marker k)
         = match lookup ps k with
           | Some v => if serial_key k && is_Uint8Array v then Some (VBool true)
                       else None
           | None => None
           end
         /\ lookup d (tuple_marker k)
            = match lookup ps k with
              | Some v => if serial_key k && is_tuple_array v
                          then Some (VBool true) else None
              | None => None
              end.
Proof.
  intros Hn Hr Ha Hlim.
  destruct (readable_constructor_name _ _ Hr) as [name Hc].
  destruct (serialize_payload_lookup cls ps Hn Hc Ha Hlim)
    as (text & d & H1 & H2 & _ & Hl).
  exists text, d. split; [exact H1|]. split; [exact H2|].
  assert (Hnd : NoDup (keys ps)) by (apply nodup_keys_NoDup; exact Hn).
  intros k. rewrite !Hl.
  destruct (@lookup_markers name ps k Hnd) as [-> ->].
  destruct (lookup ps k) as [v|]; [|split; reflexivity].
  destruct (serial_key k), (is_Uint8Array v), (is_tuple_array v);
    split; reflexivity.
Qed.

(** A number that JSON text cannot carry is written as [null]: in a frame
    whose constructor name can be read, whose values hold no frame-shaped
    object without one and whose blobs the engine can spread, a field that
    is written at all and holds NaN or an infinity is [null] in the
    payload. *)
Theorem non_finite_numbers_null
        (cls : option string) (ps : props) (k : string) (n : number) :
  nodup_keys ps = true ->
  readable_constructor cls ps = true ->
  all_values constructible ps = true ->
  all_values within_limit ps = true ->
  lookup ps k = Some (VNum n) ->
  startsWith k "__" = false ->
  mem_string k Object_prototype_keys = false ->
  (forall z, n <> Finite z) ->
  exists text d,
    serialize (VObj cls ps) = Ok (VStr text)
    /\ JSON.parse text = Ok (plain d)
    /\ lookup d k = Some VNull.
Proof.
  intros Hn Hr Ha Hlim Hk Hd Hi Hz.
  destruct (readable_constructor_name _ _ Hr) as [name Hc].
  destruct (serialize_payload_lookup cls ps Hn Hc Ha Hlim)
    as (text & d & H1 & H2 & _ & Hl).
  exists text, d. split; [exact H1|]. split; [exact H2|].
  assert (Hnd : NoDup (keys ps)) by (apply nodup_keys_NoDup; exact Hn).
  rewrite Hl.
  destruct (@lookup_encoded_frame name ps Hnd) as (_ & _ & Lb & L & _).
  assert (E : lookup (encoded_frame name ps) k = Some (VNum n)).
  { destruct (mem_string k base_fields) eqn:Eb.
    - rewrite (Lb k Eb). exact Hk.
    - destruct (L k (VNum n) (@lookup_Some_In ps k _ Hk)) as [-> _];
        [|reflexivity].
      unfold serial_key. rewrite Hd, Hi, Eb. reflexivity. }
  rewrite E. destruct n as [z| |neg]; [destruct (Hz z eq_refl)| |]; reflexivity.
Qed.

(** The frame of a class without a name (an anonymous class), with no own
    [constructor] property, no frame-shaped value without a readable
    constructor and no blob too long for the engine to spread, is written,
    but the empty frame-type tag makes the payload undecodable: it decodes
    to a [raw] result with a null message. *)
Theorem anonymous_class_frame_null (ps : props) :
  nodup_keys ps = true ->
  lookup ps "constructor" = None ->
  all_values constructible ps = true ->
  all_values within_limit ps = true ->
  exists text,
    serialize (VObj (Some "") ps) = Ok (VStr text)
    /\ deserialize (VStr text) = Resolved (Raw VNull).
Proof.
  intros Hn Hc Ha Hlim.
  assert (Hname : constructor_name (VObj (Some "") ps) = Ok (VStr "")).
  { unfold constructor_name. rewrite get_constructor, Hc. reflexivity. }
  destruct (serialize_payload_lookup (Some "") ps Hn Hname Ha Hlim)
    as (text & d & H1 & H2 & _ & Hl).
  exists text. split; [exact H1|].
  assert (Hnd : NoDup (keys ps)) by (apply nodup_keys_NoDup; exact Hn).
  destruct (@lookup_encoded_frame (VStr "") ps Hnd) as (Lf & Lt & _).
  unfold deserialize, deserialize_try, payload_of. rewrite H2. cbn [bind].
  unfold plain. rewrite get_obj by reflexivity. unfold field at 1.
  rewrite Hl, Lt. cbn [bind value_eqb_string].
  unfold _dictToFrame, dictToFrame_with. rewrite get_obj by reflexivity.
  unfold field. rewrite Hl, Lf. reflexivity.
Qed.

(** ** When [_dictToFrame] gives up *)

Lemma dictToFrame_field_obj (cls : option string) (ps args : props)
      (key : string) (v : value) :
  dictToFrame_field _deserializeValue (VObj cls ps) args key v
  = if reserved_key key then Ok args
    else x <- decode_field ps key v ;; Ok (assign args key x).
Proof.
  unfold dictToFrame_field, reserved_key. rewrite startsWith_3_2.
  destruct (startsWith key "__"); [reflexivity|]. cbn [orb].
  destruct (mem_string key base_fields); [reflexivity|].
  rewrite !get_obj by apply marker_not_constructor. reflexivity.
Qed.

Lemma dictToFrame_fields_throw (cls : option string) (ps : props) :
  forall qs,
    (exists k v e, In (k, v) qs /\ reserved_key k = false
                   /\ decode_field ps k v = Throw e) ->
    forall args, exists e,
      dictToFrame_fields _deserializeValue (VObj cls ps) qs args = Throw e.
Proof.
  induction qs as [|[key x] qs IH]; intros (k & v & e & Hin & Hr & He) args.
  - destruct Hin.
  - cbn [dictToFrame_fields]. rewrite dictToFrame_field_obj.
    destruct Hin as [Hin|Hin].
    + injection Hin as -> ->. rewrite Hr, He. exists e. reflexivity.
    + destruct (reserved_key key); cbn [bind].
      * apply IH. exists k, v, e. auto.
      * destruct (decode_field ps key x) as [y|e']; cbn [bind].
        -- apply IH. exists k, v, e. auto.
        -- exists e'. reflexivity.
Qed.

Lemma forallb_false (A : Type) (f : A -> bool) (l : list A) :
  forallb f l = false -> exists a, In a l /\ f a = false.
Proof.
  induction l as [|a l IH]; [discriminate|]. cbn [forallb].
  destruct (f a) eqn:E; cbn [andb]; intros H.
  - destruct (IH H) as (b & Hb & Eb). exists b. split; [right|]; assumption.
  - exists a. split; [left; reflexivity | exact E].
Qed.

Lemma not_well_marked (ps : props) :
  well_marked ps = false ->
  exists k s e, In (k, VStr s) ps /\ reserved_key k = false
                /\ decode_field ps k (VStr s) = Throw e.
Proof.
  unfold well_marked. intros H.
  apply forallb_false in H. destruct H as ([k v] & Hin & G).
  cbn [fst snd] in G. destruct v; try discriminate G.
  apply orb_false_elim in G as [G G3]. apply orb_false_elim in G as [G1 G2].
  apply negb_false_iff in G2.
  destruct (Base64.atob s) as [b|e] eqn:Ea; [discriminate G3|].
  exists k, s, e. split; [exact Hin|]. split; [exact G1|].
  unfold decode_field. rewrite G2. cbn [_deserializeValue]. unfold atob.
  cbn [ToString text_of bind]. rewrite Ea. reflexivity.
Qed.

(** On an object whose frame-type tags, its own and those of the objects
    inside it, are printable, [_dictToFrame] never throws, and it returns
    null in exactly two cases: the frame-type key is missing or holds a
    falsy value, or some field that carries a truthy bytes marker holds a
    string that is not base64.  One such field makes the whole frame
    null. *)
Theorem dictToFrame_null_iff (cls : option string) (ps : props) :
  nodup_keys ps = true ->
  tags_printable (VObj cls ps) = true ->
  (exists m, _dictToFrame (VObj cls ps) = Ok m)
  /\ (_dictToFrame (VObj cls ps) = Ok VNull
      <-> truthy (field ps "___frame___") = false \/ well_marked ps = false).
Proof.
  intros Hn Hq. cbn [tags_printable] in Hq. apply andb_prop in Hq.
  destruct Hq as [Htag Hq].
  split; [apply dictToFrame_total; exact Htag|]. split.
  - intros H. destruct (truthy (field ps "___frame___")) eqn:Et; [|auto].
    destruct (well_marked ps) eqn:Ew; [|auto].
    rewrite (dictToFrame_obj cls ps Hn Et Ew) in H; [discriminate H|].
    intros k v Hin _. apply (In_all_values _ _ _ _ Hq Hin).
  - intros [Ht|Hw]; unfold _dictToFrame, dictToFrame_with;
      rewrite get_obj by reflexivity; cbn [bind].
    + rewrite Ht. reflexivity.
    + destruct (truthy (field ps "___frame___")); [|reflexivity].
      cbn [negb own_enumerable].
      destruct (not_well_marked ps Hw) as (k & s & e & Hin & Hr & He).
      destruct (@dictToFrame_fields_throw cls ps ps
                  (ex_intro _ k (ex_intro _ (VStr s) (ex_intro _ e
                     (conj Hin (conj Hr He))))) []) as [e' ->].
      cbn [bind try_catch]. unfold printable in Htag.
      destruct (ToString (field ps "___frame___")); [|discriminate Htag].
      reflexivity.
Qed.

(** ** Wire values *)

Lemma plain_data_limit (v : value) :
  plain_data v = true -> within_limit v = true.
Proof.
  induction v as [| |b|n|s|bs|tf items IH|cls ps IH|name src]
    using value_ind2; intros H; try discriminate H; try reflexivity.
  - cbn [plain_data] in H. apply andb_prop in H. destruct H as [_ Hi].
    cbn [within_limit].
    induction IH as [|i items Hx _ IHl]; [reflexivity|].
    cbn [forallb] in *. apply andb_prop in Hi. destruct Hi as [H1 H2].
    rewrite (Hx H1), (IHl H2). reflexivity.
  - cbn [plain_data] in H. apply andb_prop in H. destruct H as [_ Ha].
    cbn [within_limit].
    induction IH as [|[k x] ps Hx _ IHl]; [reflexivity|].
    cbn [all_values] in *. apply andb_prop in Ha. destruct Ha as [H1 H2].
    cbn [snd] in Hx. rewrite (Hx H1), (IHl H2). reflexivity.
Qed.

(** Serializing is idempotent on the supported values, and what it
    returns is left as it is by deserializing without markers: the wire
    form of a value is a fixed point of both directions. *)
Theorem wire_values_fixed (v x : value) :
  supported v = true ->
  _serializeValue v = Ok x ->
  _serializeValue x = Ok x /\ _deserializeValue x false false = Ok x.
Proof.
  intros Hs H. assert (Hl := @serializeValue_within_limit v Hs x H).
  rewrite (serializeValue_supported v Hs Hl) in H. injection H as <-.
  assert (Hp := flatten_plain_data v Hs). split.
  - rewrite (serializeValue_supported _ (plain_data_supported _ Hp)
               (plain_data_limit _ Hp)).
    rewrite (flatten_plain _ Hp). reflexivity.
  - apply deserializeValue_plain. exact Hp.
Qed.

(** ** The decoded frame, explicitly *)

Lemma filter_nil (A : Type) (f : A -> bool) (l : list A) :
  (forall a, In a l -> f a = false) -> List.filter f l = [].
Proof.
  induction l as [|a l IH]; intros H; [reflexivity|]. cbn [List.filter].
  rewrite (H a (or_introl eq_refl)). apply IH. intros b Hb. apply H.
  right. exact Hb.
Qed.

Lemma filter_idem (A : Type) (f : A -> bool) (l : list A) :
  List.filter f (List.filter f l) = List.filter f l.
Proof.
  induction l as [|a l IH]; [reflexivity|]. cbn [List.filter].
  destruct (f a) eqn:E; [|exact IH]. cbn [List.filter]. rewrite E, IH.
  reflexivity.
Qed.

Lemma map_id_in (A : Type) (f : A -> A) (l : list A) :
  (forall a, In a l -> f a = a) -> map f l = l.
Proof.
  induction l as [|a l IH]; intros H; [reflexivity|]. cbn [map].
  rewrite (H a (or_introl eq_refl)), IH; [reflexivity|].
  intros b Hb. apply H. right. exact Hb.
Qed.

Lemma serial_not_reserved (k : string) :
  serial_key k = true -> reserved_key k = false.
Proof.
  intros H. destruct (serial_key_parts _ H) as (H1 & _ & H3).
  unfold reserved_key. rewrite H1, H3. reflexivity.
Qed.

Lemma filter_encode_entry (k : string) (v : value) :
  serial_key k = true ->
  List.filter (fun kv => negb (reserved_key (fst kv))) (encode_entry (k, v))
  = [(k, unwrap (_serializeValue v))].
Proof.
  intros H. unfold encode_entry. cbn [fst snd]. rewrite !filter_app.
  assert (Hb : reserved_key (bytes_marker k) = true) by reflexivity.
  assert (Ht : reserved_key (tuple_marker k) = true) by reflexivity.
  destruct (is_Uint8Array v), (is_tuple_array v); cbn [List.filter fst];
    rewrite ?Hb, ?Ht, (serial_not_reserved _ H); reflexivity.
Qed.

Lemma filter_encoded_fields (qs : props) :
  List.filter (fun kv => negb (reserved_key (fst kv))) (encoded_fields qs)
  = map (fun kv => (fst kv, unwrap (_serializeValue (snd kv))))
        (List.filter (fun kv => serial_key (fst kv)) qs).
Proof.
  induction qs as [|[k v] qs IH]; [reflexivity|].
  rewrite encoded_fields_cons. cbn [List.filter fst].
  destruct (serial_key k) eqn:E; [|exact IH].
  rewrite filter_app, filter_encode_entry by exact E. rewrite IH. reflexivity.
Qed.

Lemma filter_envelope_head (name : value) (ps : props) :
  List.filter (fun kv => negb (reserved_key (fst kv))) (envelope_head name ps)
  = [].
Proof.
  apply filter_nil. intros [x y] Hin. cbn [fst].
  assert (Hk : In x (keys (envelope_head name ps)))
    by (apply (in_map fst) in Hin; exact Hin).
  apply keys_envelope_head in Hk. destruct Hk as [->|[Hb _]]; [reflexivity|].
  unfold reserved_key. rewrite Hb, orb_true_r. reflexivity.
Qed.

Lemma fold_copy_base_ext (ps qs : props) (bs : list string) :
  (forall b, In b bs -> lookup ps b = lookup qs b) ->
  forall d, fold_left (copy_base ps) bs d = fold_left (copy_base qs) bs d.
Proof.
  induction bs as [|b bs IH]; intros H d; [reflexivity|]. cbn [fold_left].
  rewrite IH by (intros b' Hb'; apply H; right; exact Hb').
  unfold copy_base, has_key, field. rewrite (H b (or_introl eq_refl)).
  reflexivity.
Qed.

Lemma fold_copy_base_fresh (ps : props) (bs : list string) :
  NoDup bs ->
  forall d, (forall b, In b bs -> has_key d b = false) ->
    fold_left (copy_base ps) bs d
    = (d ++ flat_map (fun b => match lookup ps b with
                               | Some v => [(b, v)]
                               | None => []
                               end) bs)%list.
Proof.
  induction 1 as [|b bs Hb Hnd IH]; intros d Hd.
  - cbn. rewrite app_nil_r. reflexivity.
  - cbn [fold_left flat_map]. unfold copy_base at 2, has_key, field.
    destruct (lookup ps b) as [v|] eqn:E.
    + rewrite obj_set_fresh by (apply Hd; left; reflexivity).
      rewrite IH.
      * rewrite <- app_assoc. reflexivity.
      * intros b' Hb'. rewrite has_key_app, (Hd b' (or_intror Hb')).
        cbn [orb]. unfold has_key. cbn [lookup].
        destruct (String.eqb_spec b b') as [->|_]; [destruct (Hb Hb')|].
        reflexivity.
    + apply IH. intros b' Hb'. apply Hd. right. exact Hb'.
Qed.

Lemma NoDup_base_fields : NoDup base_fields.
Proof.
  unfold base_fields.
  repeat (constructor; [cbn [In]; intros H;
                        repeat (destruct H as [H|H]; [discriminate H|]);
                        exact H|]).
  constructor.
Qed.

Lemma has_key_filter_false (f : string -> bool) (ps : props) (k : string) :
  f k = false -> has_key (List.filter (fun kv => f (fst kv)) ps) k = false.
Proof.
  intros H. induction ps as [|[x y] ps IH]; [reflexivity|].
  cbn [List.filter fst]. destruct (f x) eqn:E; [|exact IH].
  rewrite has_key_cons, IH.
  destruct (String.eqb_spec x k) as [->|_]; [congruence | reflexivity].
Qed.

Lemma base_not_serial (b : string) :
  mem_string b base_fields = true -> serial_key b = false.
Proof.
  intros H. unfold serial_key. rewrite H. cbn [negb].
  apply andb_false_r.
Qed.

Lemma well_known_not_serial (ps : props) :
  List.filter (fun kv => serial_key (fst kv)) (well_known_fields ps) = [].
Proof.
  apply filter_nil. intros [x y] Hin. cbn [fst].
  unfold well_known_fields in Hin. apply in_flat_map in Hin.
  destruct Hin as (b & Hb & Hin). apply base_not_serial.
  destruct (lookup ps b); [|destruct Hin].
  destruct Hin as [E|[]]. injection E as <- _.
  unfold mem_string. apply existsb_exists. exists b.
  split; [exact Hb | apply String.eqb_refl].
Qed.

Lemma NoDup_keys_filter (f : string -> bool) (qs : props) :
  NoDup (keys qs) -> NoDup (keys (List.filter (fun kv => f (fst kv)) qs)).
Proof.
  induction qs as [|[k v] qs IH]; intros Hnd; [constructor|].
  cbn [keys map fst] in Hnd. inversion Hnd as [|? ? Hk Hq]; subst.
  cbn [List.filter fst]. destruct (f k); [|apply IH; exact Hq].
  cbn [keys map fst]. constructor; [|apply IH; exact Hq].
  intros Hin. apply Hk. apply in_map_iff in Hin.
  destruct Hin as ([x y] & E & Hin). cbn [fst] in E. subst x.
  apply filter_In in Hin. destruct Hin as [Hin _].
  apply (in_map fst) in Hin. exact Hin.
Qed.

Section RoundTrip.

Variable T : string.
Variable ps : props.
Hypothesis HT : String.eqb T "" = false.
Hypothesis Hn : nodup_keys ps = true.
Hypothesis Hok : frame_fields_ok ps = true.
Hypothesis Hlim : all_values within_limit ps = true.

Let D := encoded_frame (VStr T) ps.

Lemma round_trip_serial (k : string) (v : value) :
  In (k, v) ps -> serial_key k = true ->
  _serializeValue v = Ok (flatten v) /\ supported v = true /\ restore v = v.
Proof.
  intros Hin Hs.
  destruct (frame_fields_ok_In ps k v Hok Hin) as [[Hb _]|(_ & _ & Hf)].
  - destruct (serial_key_parts _ Hs) as (_ & _ & Hb'). congruence.
  - destruct (faithful_restore _ Hf) as [Hsup Hres].
    split; [|auto]. apply serializeValue_supported; [exact Hsup|].
    apply (In_all_values _ _ _ _ Hlim Hin).
Qed.

Lemma round_trip_no_constructor : lookup ps "constructor" = None.
Proof.
  destruct (lookup ps "constructor") as [c|] eqn:E; [|reflexivity].
  apply lookup_Some_In in E.
  destruct (frame_fields_ok_In ps _ _ Hok E) as [[Hb _]|(_ & Hs & _)];
    discriminate.
Qed.

Lemma round_trip_name : constructor_name (VObj (Some T) ps) = Ok (VStr T).
Proof.
  unfold constructor_name.
  rewrite get_constructor, round_trip_no_constructor. reflexivity.
Qed.

Lemma round_trip_frameToDict : _frameToDict (VObj (Some T) ps) = Ok (plain D).
Proof.
  apply (frameToDict_encoded (Some T) ps Hn round_trip_name).
  intros k v Hin Hs. exists (flatten v). apply (round_trip_serial k v Hin Hs).
Qed.

Lemma round_trip_regular :
  List.filter (fun kv => serial_key (fst kv)) ps = regular_fields ps.
Proof.
  unfold regular_fields. apply filter_ext_in. intros [k v] Hin. cbn [fst].
  destruct (frame_fields_ok_In ps k v Hok Hin) as [[Hb _]|(Hb & Hs & _)].
  - rewrite Hb. apply base_not_serial. exact Hb.
  - rewrite Hb, Hs. reflexivity.
Qed.

Lemma round_trip_decoded_fields : decoded_fields D D = regular_fields ps.
Proof.
  assert (Hnd : NoDup (keys ps)) by (apply nodup_keys_NoDup; exact Hn).
  destruct (@lookup_encoded_frame (VStr T) ps Hnd) as (_ & _ & _ & L3 & _).
  fold D in L3.
  assert (Hf : List.filter (fun kv => negb (reserved_key (fst kv))) D
               = map (fun kv => (fst kv, unwrap (_serializeValue (snd kv))))
                     (List.filter (fun kv => serial_key (fst kv)) ps)).
  { unfold D, encoded_frame. fold (envelope_head (VStr T) ps).
    rewrite filter_app, filter_envelope_head, filter_encoded_fields.
    reflexivity. }
  unfold decoded_fields. rewrite Hf, map_map. cbn [fst snd].
  rewrite <- round_trip_regular. apply map_id_in. intros [k v] Hin.
  apply filter_In in Hin. destruct Hin as [Hin Hs]. cbn [fst snd] in *.
  destruct (round_trip_serial k v Hin Hs) as (Es & Hsup & Hres).
  destruct (L3 k v Hin Hs) as (_ & Lb & Lt).
  rewrite Es. cbn [unwrap]. unfold decode_field, field. rewrite Lb, Lt.
  replace (truthy match (if is_Uint8Array v then Some (VBool true) else None) with
                  | Some x => x
                  | None => VUndefined
                  end)
    with (is_Uint8Array v) by (destruct (is_Uint8Array v); reflexivity).
  replace (truthy match (if is_tuple_array v then Some (VBool true) else None) with
                  | Some x => x
                  | None => VUndefined
                  end)
    with (is_tuple_array v) by (destruct (is_tuple_array v); reflexivity).
  rewrite (deserialize_flatten v Hsup). cbn [unwrap]. rewrite Hres.
  reflexivity.
Qed.

Lemma round_trip_layout : decoded_frame D = decoded_layout T ps.
Proof.
  assert (Hnd : NoDup (keys ps)) by (apply nodup_keys_NoDup; exact Hn).
  destruct (@lookup_encoded_frame (VStr T) ps Hnd) as (L0 & _ & L2 & _).
  fold D in L0, L2.
  unfold decoded_frame. rewrite round_trip_decoded_fields.
  unfold field at 1. rewrite L0.
  assert (Hreg : forall k, mem_string k base_fields = true
                           \/ k = "constructor" ->
                           has_key (regular_fields ps) k = false).
  { intros k Hk. rewrite <- round_trip_regular. apply has_key_filter_false.
    destruct Hk as [Hb| ->]; [apply base_not_serial; exact Hb | reflexivity]. }
  rewrite obj_set_fresh by (apply Hreg; right; reflexivity).
  rewrite (@fold_copy_base_ext D ps base_fields).
  - rewrite fold_copy_base_fresh.
    + unfold decoded_layout, well_known_fields. rewrite <- app_assoc.
      reflexivity.
    + apply NoDup_base_fields.
    + intros b Hb.
      assert (Hm : mem_string b base_fields = true).
      { unfold mem_string. apply existsb_exists. exists b.
        split; [exact Hb | apply String.eqb_refl]. }
      rewrite has_key_app, (Hreg b (or_introl Hm)). cbn [orb].
      unfold has_key. cbn [lookup].
      destruct (String.eqb_spec "constructor" b) as [<-|_];
        [discriminate Hm | reflexivity].
  - intros b Hb. apply L2. unfold mem_string. apply existsb_exists.
    exists b. split; [exact Hb | apply String.eqb_refl].
Qed.

Lemma round_trip_decodes (text : string) :
  JSON.stringify (plain D) = VStr text ->
  deserialize (VStr text) = Resolved (Raw (plain (decoded_frame D))).
Proof.
  intros Htext.
  assert (Hnd : NoDup (keys ps)) by (apply nodup_keys_NoDup; exact Hn).
  assert (HnD : nodup_keys D = true)
    by (apply nodup_keys_NoDup; apply NoDup_encoded_frame; exact Hnd).
  destruct (@lookup_encoded_frame (VStr T) ps Hnd) as (L0 & L1 & L2 & L3 & L4).
  fold D in L0, L1, L2, L3, L4.
  assert (Hentry : forall x y k v, In (k, v) ps -> serial_key k = true ->
             In (x, y) (encode_entry (k, v)) ->
             y = VBool true \/ (x = k /\ y = flatten v)).
  { intros x y k v Hin Hs He. apply In_encode_entry in He.
    destruct He as [(_ & -> & _)|[(_ & -> & _)|(-> & ->)]]; auto.
    right. split; [reflexivity|].
    destruct (round_trip_serial k v Hin Hs) as [-> _]. reflexivity. }
  assert (Hcompat : json_compatible (plain D) = true).
  { apply json_compatible_plain; [exact HnD|].
    intros x y Hin. apply In_encoded_frame in Hin; [|exact Hnd].
    destruct Hin as [[_ ->]|[[Hb Hin]|(k & v & Hin & Hs & He)]].
    - reflexivity.
    - destruct (frame_fields_ok_In ps _ _ Hok Hin) as [[_ Hj]|[Hb' _]];
        [exact Hj | congruence].
    - destruct (Hentry _ _ _ _ Hin Hs He) as [->|[_ ->]]; [reflexivity|].
      apply plain_data_compatible. apply flatten_plain_data.
      apply (round_trip_serial k v Hin Hs). }
  assert (Hparse : JSON.parse text = Ok (plain D)).
  { destruct (stringify_plain D) as (t & Et & Hp). rewrite Htext in Et.
    injection Et as <-.
    rewrite JSONFacts.jsonify_compatible in Hp by exact Hcompat. exact Hp. }
  assert (Hwm : well_marked D = true).
  { unfold well_marked. apply forallb_forall. intros [x y] Hin. cbn [fst snd].
    destruct y; try reflexivity.
    apply In_encoded_frame in Hin; [|exact Hnd].
    destruct Hin as [[-> _]|[[Hb _]|(k & v & Hin & Hs & He)]].
    - reflexivity.
    - unfold reserved_key. rewrite Hb, orb_true_r. reflexivity.
    - destruct (Hentry _ _ _ _ Hin Hs He) as [E|[-> E]]; [discriminate E|].
      destruct (L3 k v Hin Hs) as (_ & Lb & _). unfold field. rewrite Lb.
      destruct (is_Uint8Array v) eqn:Eb.
      + destruct v; try discriminate Eb.
        cbn [flatten] in E. injection E as ->.
        unfold btoa. rewrite Base64Facts.atob_btoa. apply orb_true_r.
      + cbn [truthy negb]. rewrite orb_true_r. reflexivity. }
  apply (@deserialize_raw (VStr text) (Some "Object") D).
  - exact Hparse.
  - unfold field. rewrite L1. reflexivity.
  - unfold field. rewrite L1. reflexivity.
  - apply dictToFrame_obj; [exact HnD | | exact Hwm |].
    + unfold field. rewrite L0. cbn [truthy]. rewrite HT. reflexivity.
    + intros x y Hin Hr. apply In_encoded_frame in Hin; [|exact Hnd].
      destruct Hin as [[-> _]|[[Hb _]|(k & v & Hin & Hs & He)]].
      * discriminate Hr.
      * unfold reserved_key in Hr. rewrite Hb, orb_true_r in Hr.
        discriminate Hr.
      * destruct (Hentry _ _ _ _ Hin Hs He) as [->|[_ ->]]; [reflexivity|].
        apply plain_data_tags. apply flatten_plain_data.
        apply (round_trip_serial k v Hin Hs).
Qed.

Lemma round_trip_reencoded :
  _frameToDict (plain (decoded_layout T ps)) = Ok (plain D).
Proof.
  assert (Hnd : NoDup (keys ps)) by (apply nodup_keys_NoDup; exact Hn).
  assert (Hfil : List.filter (fun kv => serial_key (fst kv)) (decoded_layout T ps)
                 = regular_fields ps).
  { unfold decoded_layout. rewrite !filter_app, well_known_not_serial.
    rewrite <- round_trip_regular at 1. rewrite filter_idem.
    cbn [List.filter fst]. change (serial_key "constructor") with false.
    cbn [app]. rewrite app_nil_r. apply round_trip_regular. }
  destruct (decoded_frame_fields D) as (F1 & _ & F3 & _).
  destruct (@lookup_encoded_frame (VStr T) ps Hnd) as (L0 & _ & L2 & _).
  fold D in L0, L2. rewrite round_trip_layout in F1, F3.
  assert (Hname : constructor_name (plain (decoded_layout T ps)) = Ok (VStr T)).
  { unfold constructor_name, plain. rewrite get_constructor, F1.
    unfold field. rewrite L0. reflexivity. }
  assert (HnL : nodup_keys (decoded_layout T ps) = true).
  { rewrite <- round_trip_layout. unfold decoded_frame.
    assert (G : forall bs d, nodup_keys d = true ->
                  nodup_keys (fold_left (copy_base D) bs d) = true).
    { induction bs as [|b bs IH]; intros d Hd; [exact Hd|].
      cbn [fold_left]. apply IH. unfold copy_base.
      destruct (has_key D b); [apply nodup_obj_set|]; exact Hd. }
    apply G. apply nodup_obj_set. rewrite round_trip_decoded_fields.
    apply nodup_keys_NoDup. rewrite <- round_trip_regular.
    apply NoDup_keys_filter. exact Hnd. }
  unfold plain at 1.
  rewrite (@frameToDict_encoded (Some "Object") (decoded_layout T ps) (VStr T)
             HnL Hname).
  - unfold D, encoded_frame, encoded_fields. rewrite Hfil.
    rewrite <- round_trip_regular.
    rewrite (@fold_copy_base_ext (decoded_layout T ps) ps base_fields);
      [reflexivity|].
    intros b Hb. rewrite F3, L2; [reflexivity| |];
      unfold mem_string; apply existsb_exists; exists b;
      (split; [exact Hb | apply String.eqb_refl]).
  - intros k v Hin Hs.
    assert (Hin' : In (k, v) (List.filter (fun kv => serial_key (fst kv))
                                (decoded_layout T ps)))
      by (apply filter_In; auto).
    rewrite Hfil, <- round_trip_regular in Hin'. apply filter_In in Hin'.
    exists (flatten v). apply (round_trip_serial k v (proj1 Hin') Hs).
Qed.

End RoundTrip.

(** The decoded frame has a fixed layout: the fields of the frame other
    than the well-known ones, in their order; then the [constructor]
    property that carries the type tag; then the well-known fields the
    frame has, in the order [id], [name], [pts], [metadata],
    [transport_source], [transport_destination].  The frames are those that
    come back field by field, with blobs that the engine can spread and no
    field named like an array index (JavaScript lists such keys first,
    which property lists do not show). *)
Theorem decoded_frame_layout (T : string) (ps : props) :
  String.eqb T "" = false ->
  nodup_keys ps = true ->
  named_fields ps = true ->
  frame_fields_ok ps = true ->
  all_values within_limit ps = true ->
  round_trip (VObj (Some T) ps)
  = Resolved (Raw (plain (decoded_layout T ps))).
Proof.
  intros HT Hn _ Hok Hlim. unfold round_trip, serialize.
  rewrite (round_trip_frameToDict T ps Hn Hok Hlim). cbn [bind try_catch].
  destruct (stringify_plain (encoded_frame (VStr T) ps)) as (t & Et & _).
  rewrite Et, (@round_trip_decodes T ps HT Hn Hok Hlim t Et).
  rewrite (round_trip_layout T ps Hn Hok Hlim). reflexivity.
Qed.

(** Serializing, decoding and serializing again gives the same text: the
    decoded frame is written exactly as the frame it came from (same
    frames as above). *)
Theorem reserialize_stable (T : string) (ps : props) :
  String.eqb T "" = false ->
  nodup_keys ps = true ->
  named_fields ps = true ->
  frame_fields_ok ps = true ->
  all_values within_limit ps = true ->
  exists text frame,
    serialize (VObj (Some T) ps) = Ok (VStr text)
    /\ deserialize (VStr text) = Resolved (Raw frame)
    /\ serialize frame = Ok (VStr text).
Proof.
  intros HT Hn _ Hok Hlim.
  destruct (stringify_plain (encoded_frame (VStr T) ps)) as (t & Et & _).
  exists t, (plain (decoded_layout T ps)). split; [|split].
  - unfold serialize. rewrite (round_trip_frameToDict T ps Hn Hok Hlim).
    cbn [bind try_catch]. rewrite Et. reflexivity.
  - rewrite (@round_trip_decodes T ps HT Hn Hok Hlim t Et).
    rewrite (round_trip_layout T ps Hn Hok Hlim). reflexivity.
  - unfold serialize, plain. fold (plain (decoded_layout T ps)).
    rewrite (round_trip_reencoded T ps Hn Hok Hlim).
    cbn [bind try_catch]. rewrite Et. reflexivity.
Qed.

(** A decoded frame is not an envelope: it has no frame-type key, so
    passing the message of a [raw] result to [deserialize] again gives a
    [raw] result with a null message. *)
Theorem decoding_twice_null (data : value) (frame : props) :
  deserialize data = Resolved (Raw (plain frame)) ->
  deserialize (plain frame) = Resolved (Raw VNull).
Proof.
  intros H.
  assert (G : exists d, _dictToFrame d = Ok (plain frame)).
  { unfold deserialize, deserialize_try in H.
    destruct (payload_of data) as [d|]; [|discriminate H]. cbn [bind] in H.
    destruct (get d "___type___") as [ty|]; [|discriminate H].
    cbn [bind] in H.
    destruct (value_eqb_string ty "audio").
    { destruct (_deserializeAudio d); discriminate H. }
    destruct (value_eqb_string ty "message").
    { destruct (get d "message"); discriminate H. }
    destruct (_dictToFrame d) as [m|] eqn:E; [|discriminate H].
    cbn [bind try_catch new_Promise] in H. injection H as ->.
    exists d. exact E. }
  destruct G as [d Hd].
  assert (Hnone : forall k, startsWith k "__" = true -> lookup frame k = None).
  { destruct d as [| |b|n|s|bs|t items|cls ps|name src];
      try (unfold _dictToFrame, dictToFrame_with in Hd;
           rewrite (@get_underscore _ "___frame___" eq_refl) in Hd
             by (intros; discriminate);
           discriminate Hd).
    destruct (dictToFrame_no_dunder cls ps Hd) as [E|(fr & E & Hfr)];
      [discriminate E|].
    injection E as ->. exact Hfr. }
  unfold deserialize, deserialize_try, payload_of, plain. cbn [bind].
  rewrite get_obj by reflexivity. unfold field at 1.
  rewrite (Hnone "___type___" eq_refl). cbn [bind value_eqb_string].
  unfold _dictToFrame, dictToFrame_with. rewrite get_obj by reflexivity.
  unfold field. rewrite (Hnone "___frame___" eq_refl). reflexivity.
Qed.

Lemma decoding_twice_null_witness :
  deserialize
    (plain [("text", VStr "hi");
            ("constructor", plain [("name", VStr "TextFrame")]);
            ("id", num 3)])
  = Resolved (Raw VNull).
Proof.
  apply (@decoding_twice_null (plain text_envelope)). reflexivity.
Defined.

Lemma dictToFrame_null_iff_witness :
  (exists m, _dictToFrame (plain broken_envelope) = Ok m)
  /\ (_dictToFrame (plain broken_envelope) = Ok VNull
      <-> truthy (field broken_envelope "___frame___") = false
          \/ well_marked broken_envelope = false).
Proof.
  apply (@dictToFrame_null_iff (Some "Object") broken_envelope); reflexivity.
Defined.

(** ** The discriminator *)

(** The discriminator comes first.  A payload object whose discriminator
    is ["message"] resolves to a [message] result carrying its [message]
    property, [undefined] when it has none; one whose discriminator is
    ["audio"] resolves to the samples of its [audio] property, and to a
    [raw] result with a null message when that property is not base64 text
    of an even number of octets.  No other key of the payload matters, a
    frame-type key included. *)
Theorem discriminator_first (data : value) (cls : option string) (ps : props) :
  payload_of data = Ok (VObj cls ps) ->
  (field ps "___type___" = VStr "message" ->
   deserialize data = Resolved (Message (field ps "message")))
  /\ (field ps "___type___" = VStr "audio" ->
      deserialize data
      = Resolved match atob (field ps "audio") with
                 | Ok b => match Int16Array (charCodes b) with
                           | Ok samples => Audio samples
                           | Throw _ => Raw VNull
                           end
                 | Throw _ => Raw VNull
                 end).
Proof.
  intros Hp. unfold deserialize, deserialize_try. rewrite Hp. cbn [bind].
  rewrite get_obj by reflexivity. cbn [bind]. split; intros ->.
  - cbn [value_eqb_string String.eqb Ascii.eqb Bool.eqb].
    rewrite get_obj by reflexivity. reflexivity.
  - cbn [value_eqb_string String.eqb Ascii.eqb Bool.eqb].
    unfold _deserializeAudio. rewrite !get_obj by reflexivity. cbn [bind].
    destruct (atob (field ps "audio")) as [b|]; [|reflexivity]. cbn [bind].
    destruct (Int16Array (charCodes b)); reflexivity.
Qed.

Lemma discriminator_first_witness :
  (field audio_envelope "___type___" = VStr "message" ->
   deserialize (plain audio_envelope)
   = Resolved (Message (field audio_envelope "message")))
  /\ (field audio_envelope "___type___" = VStr "audio" ->
      deserialize (plain audio_envelope)
      = Resolved match atob (field audio_envelope "audio") with
                 | Ok b => match Int16Array (charCodes b) with
                           | Ok samples => Audio samples
                           | Throw _ => Raw VNull
                           end
                 | Throw _ => Raw VNull
                 end).
Proof.
  apply (@discriminator_first (plain audio_envelope) (Some "Object")
           audio_envelope).
  reflexivity.
Defined.

(** ** When [serialize] gives up *)

Lemma frameToDict_fields_app (ser : value -> result value) (a b : props) :
  forall d,
    frameToDict_fields ser (a ++ b)%list d
    = (d' <- frameToDict_fields ser a d ;; frameToDict_fields ser b d').
Proof.
  induction a as [|[k v] a IH]; intros d; [reflexivity|].
  cbn [app frameToDict_fields].
  destruct (frameToDict_field ser d k v); cbn [bind]; [apply IH | reflexivity].
Qed.

Lemma frameToDict_fields_throw (name : value) (ps : props)
      (k : string) (v : value) (e : error) :
  nodup_keys ps = true ->
  In (k, v) ps -> serial_key k = true -> _serializeValue v = Throw e ->
  exists e', frameToDict_fields _serializeValue ps (envelope_head name ps)
             = Throw e'.
Proof.
  intros Hn Hin Hs He.
  apply nodup_keys_NoDup in Hn.
  destruct (serial_key_parts _ Hs) as (Hd & Hi & Hb).
  destruct (in_split _ _ Hin) as (pre & post & E).
  remember (envelope_head name ps) as h eqn:Eh.
  replace (frameToDict_fields _serializeValue ps h)
    with (frameToDict_fields _serializeValue (pre ++ (k, v) :: post)%list h)
    by (rewrite <- E; reflexivity).
  rewrite frameToDict_fields_app.
  destruct (frameToDict_fields _serializeValue pre h)
    as [d'|e'] eqn:Ed; cbn [bind]; [|exists e'; reflexivity].
  assert (Hk : has_key d' k = false).
  { destruct (has_key d' k) eqn:Ek; [|reflexivity]. exfalso.
    destruct (@frameToDict_fields_keys _serializeValue pre pre _ d'
                (fun k v H => In_has_key _ _ _ H) Ed) as [_ Ho].
    destruct (Ho k Ek) as [H|(key & H1 & H2 & [H|[H|H]])].
    - apply has_key_In in H. rewrite Eh in H. apply keys_envelope_head in H.
      destruct H as [->|[H _]]; [discriminate Hd | congruence].
    - subst key. apply has_key_In in H1.
      rewrite E, keys_app in Hn. cbn [keys map fst] in Hn.
      apply NoDup_remove_2 in Hn. apply Hn. apply in_or_app. left. exact H1.
    - subst k. destruct (marker_dunder key) as [M _]. congruence.
    - subst k. destruct (marker_dunder key) as [_ M]. congruence. }
  cbn [frameToDict_fields]. unfold frameToDict_field at 1. unfold in_plain.
  rewrite Hk, Hi, Hd, (startsWith_3 _ Hd). cbn [orb]. rewrite He.
  exists e. reflexivity.
Qed.

Lemma serializable_or_not (qs : props) :
  (forall k v, In (k, v) qs -> serial_key k = true ->
               exists x, _serializeValue v = Ok x)
  \/ (exists k v e, In (k, v) qs /\ serial_key k = true
                    /\ _serializeValue v = Throw e).
Proof.
  induction qs as [|[k v] qs [IH|(k' & v' & e & Hin & Hs & He)]].
  - left. intros k v [].
  - destruct (serial_key k) eqn:Es.
    + destruct (_serializeValue v) as [x|e] eqn:Ev.
      * left. intros k' v' [H|H] Hs'; [|apply (IH k' v' H Hs')].
        injection H as <- <-. exists x. exact Ev.
      * right. exists k, v, e. split; [left; reflexivity | auto].
    + left. intros k' v' [H|H] Hs'; [|apply (IH k' v' H Hs')].
      injection H as <- <-. congruence.
  - right. exists k', v', e. split; [right; exact Hin | auto].
Qed.

(** For a frame whose constructor name can be read and printed,
    [serialize] returns null in exactly one case: a field that it
    serializes holds a value on which [_serializeValue] throws (a
    frame-shaped object whose own constructor name cannot be read, or a
    blob that the engine cannot spread).  Otherwise it returns text. *)
Theorem serialize_null_iff (cls : option string) (ps : props) :
  nodup_keys ps = true ->
  loggable (VObj cls ps) = true ->
  (serialize (VObj cls ps) = Ok VNull
   <-> exists k v e, In (k, v) ps /\ serial_key k = true
                     /\ _serializeValue v = Throw e)
  /\ (serialize (VObj cls ps) = Ok VNull
      \/ exists text, serialize (VObj cls ps) = Ok (VStr text)).
Proof.
  intros Hn Hr. unfold loggable in Hr.
  destruct (constructor_name (VObj cls ps)) as [name|] eqn:Hc;
    [|discriminate Hr].
  assert (Hbad : (exists k v e, In (k, v) ps /\ serial_key k = true
                                /\ _serializeValue v = Throw e) ->
                 serialize (VObj cls ps) = Ok VNull).
  { intros (k & v & e & Hin & Hs & He).
    unfold serialize, _frameToDict. rewrite frameToDict_obj, Hc. cbn [bind].
    destruct (@frameToDict_fields_throw name ps k v e Hn Hin Hs He)
      as [e' ->].
    cbn [bind try_catch]. unfold printable in Hr.
    destruct (ToString name); [reflexivity | discriminate Hr]. }
  destruct (serializable_or_not ps) as [Hall|Hex].
  - destruct (serialize_encoded cls ps Hn Hc Hall) as (text & H1 & _).
    split; [|right; exists text; exact H1].
    split; [rewrite H1; discriminate | exact Hbad].
  - split; [|left; apply Hbad; exact Hex].
    split; [intros _; exact Hex | exact Hbad].
Qed.

(** ** Where the two value functions can fail *)

(** On a value whose nested envelope tags can all be printed (so that the
    [catch] handler of [_dictToFrame] can build its message),
    [_deserializeValue] throws in one case only: the value is a string,
    the bytes marker is set, and the string is not base64.  Lists, maps
    and nested envelopes with such tags never make it throw. *)
Theorem deserializeValue_throws_only_on_base64
        (v : value) (isBytes isTuple : bool) (e : error) :
  tags_printable v = true ->
  _deserializeValue v isBytes isTuple = Throw e ->
  exists s, v = VStr s /\ isBytes = true /\ Base64.atob s = Throw e.
Proof.
  intros Ht H.
  destruct v as [| |b|n|s|bs|t items|cls ps|name src];
    try (match type of H with
         | _deserializeValue ?w _ _ = _ =>
             assert (G : exists x, _deserializeValue w isBytes isTuple = Ok x)
               by (apply deserializeValue_total;
                   [exact Ht | intros; discriminate])
         end;
         destruct G as [x Hx]; rewrite Hx in H; discriminate H).
  exists s. cbn [_deserializeValue] in H.
  destruct isBytes; [|discriminate H]. unfold atob in H.
  cbn [ToString text_of bind] in H.
  destruct (Base64.atob s) as [b|e'] eqn:E; [discriminate H|].
  cbn [bind] in H. injection H as <-. auto.
Qed.

Lemma deserializeValue_throws_only_on_base64_witness :
  exists s, VStr "!!" = VStr s /\ true = true
            /\ Base64.atob s = Throw InvalidCharacterError.
Proof.
  apply (@deserializeValue_throws_only_on_base64 (VStr "!!") true false
           InvalidCharacterError); reflexivity.
Defined.

(** [_serializeValue] throws only on a value that holds a frame-shaped
    object (one with a [___frame___] property) whose constructor name
    cannot be read, or a blob with more bytes than the engine accepts as
    arguments of one call. *)
Theorem serializeValue_throws_only_on_bare_frames (v : value) (e : error) :
  _serializeValue v = Throw e ->
  constructible v = false \/ within_limit v = false.
Proof.
  intros H. destruct (constructible v) eqn:E; [|left; reflexivity].
  destruct (within_limit v) eqn:L; [|right; reflexivity].
  destruct (serializeValue_total v E L) as [x Hx]. rewrite Hx in H.
  discriminate H.
Qed.

(** ** Class instances inside a frame *)

Lemma serialize_props_keys (ser : value -> result value) (ps : props) :
  forall acc r,
    serialize_props ser ps acc = Ok r ->
    forall k, has_key r k = true -> has_key acc k = true \/ has_key ps k = true.
Proof.
  induction ps as [|[key v] ps IH]; intros acc r H k Hk.
  - injection H as <-. left. exact Hk.
  - cbn [serialize_props] in H. destruct (ser v) as [sv|]; [|discriminate H].
    cbn [bind] in H. rewrite has_key_cons.
    destruct (IH _ _ H k Hk) as [Ha|Hp].
    + apply has_key_assign in Ha. destruct Ha as [->|Ha]; [|left; exact Ha].
      right. rewrite String.eqb_refl. reflexivity.
    + right. rewrite Hp. apply orb_true_r.
Qed.

(** Only the frame itself carries a type tag.  An instance of a class held
    by a field, not marked with a [___frame___] property of its own, is
    written as a plain map of its fields: no frame-type key, so nothing of
    its class reaches the payload. *)
Theorem nested_instances_untagged (T : string) (ps : props) (x : value) :
  has_key ps "___frame___" = false ->
  _serializeValue (VObj (Some T) ps) = Ok x ->
  exists r, x = plain r
            /\ lookup r "___frame___" = None
            /\ forall k, has_key r k = true -> has_key ps k = true.
Proof.
  intros Hf H. cbn [_serializeValue js_in bind] in H.
  rewrite Hf in H. cbn [orb mem_string existsb Object_prototype_keys] in H.
  change (("___frame___" =? "constructor") || _) with false in H.
  destruct (serialize_props _serializeValue ps []) as [r|] eqn:E;
    [|discriminate H].
  cbn [bind] in H. injection H as <-. exists r. split; [reflexivity|].
  assert (Hk : forall k, has_key r k = true -> has_key ps k = true).
  { intros k Hk. destruct (serialize_props_keys _ _ _ E k Hk) as [Ha|Hp];
      [discriminate Ha | exact Hp]. }
  split; [|exact Hk].
  destruct (lookup r "___frame___") eqn:El; [|reflexivity].
  assert (Hc : has_key r "___frame___" = true)
    by (unfold has_key; rewrite El; reflexivity).
  rewrite (Hk _ Hc) in Hf. discriminate Hf.
Qed.

End Codec.

(** * Examples

    The statements above hold for every engine.  The examples below run
    the code on an engine that accepts 65535 arguments in one call. *)

#[local] Existing Instance reference_engine.

Lemma audio_round_trip_witness :
  exists text samples,
    serializeAudio [x01; x02; xff; xff] (Finite 16000) (Finite 1)
    = Ok (VStr text)
    /\ JSON.parse text
       = Ok (plain [("___type___", VStr "audio");
                    ("audio", VStr (btoa (binary_string [x01; x02; xff; xff])));
                    ("sample_rate", JSONImage.jsonify (VNum (Finite 16000)));
                    ("num_channels", JSONImage.jsonify (VNum (Finite 1)))])
    /\ Int16Array [x01; x02; xff; xff] = Ok samples
    /\ deserialize (VStr text) = Resolved (Audio samples).
Proof.
  apply (@audio_round_trip reference_engine [x01; x02; xff; xff]
           (Finite 16000) (Finite 1)); reflexivity.
Defined.

(** C3 (counterexample).  Two envelopes that differ in sample rate and
    channel count decode to the same result, so neither number is in the
    decoded result; the helper reads the keys [sampleRate] and
    [numChannels], which the envelope does not have; a buffer of odd
    length does not decode to an [audio] result at all; and a buffer of
    more octets than the engine accepts as arguments is not serialized:
    [serializeAudio] throws. *)
Lemma audio_result_drops_rate :
  decode (serializeAudio [x01; x02] (Finite 16000) (Finite 1))
  = Resolved (Audio [513%Z])
  /\ decode (serializeAudio [x01; x02] (Finite 8000) (Finite 2))
     = Resolved (Audio [513%Z])
  /\ _deserializeAudio
       (plain [("___type___", VStr "audio"); ("audio", VStr "AQI=");
               ("sample_rate", num 16000); ("num_channels", num 1)])
     = Ok {| audio := [513%Z]; sampleRate := VUndefined;
             numChannels := VUndefined |}
  /\ decode (serializeAudio [x01; x02; x03] (Finite 16000) (Finite 1))
     = Resolved (Raw VNull)
  /\ serializeAudio long_blob (Finite 16000) (Finite 1)
     = Throw RangeError.
Proof. repeat split; vm_compute; reflexivity. Qed.

Lemma type_shape_of_fields_witness :
  exists text,
    _serializeValue (VArr true [VBytes [x01]; num 2])
    = Ok (flatten (VArr true [VBytes [x01]; num 2]))
    /\ JSON.stringify (flatten (VArr true [VBytes [x01]; num 2])) = VStr text
    /\ JSON.parse text = Ok (flatten (VArr true [VBytes [x01]; num 2]))
    /\ _deserializeValue (flatten (VArr true [VBytes [x01]; num 2]))
         (is_Uint8Array (VArr true [VBytes [x01]; num 2]))
         (is_tuple_array (VArr true [VBytes [x01]; num 2]))
       = Ok (restore (VArr true [VBytes [x01]; num 2]))
    /\ is_Uint8Array (restore (VArr true [VBytes [x01]; num 2]))
       = is_Uint8Array (VArr true [VBytes [x01]; num 2])
    /\ is_tuple_array (restore (VArr true [VBytes [x01]; num 2]))
       = is_tuple_array (VArr true [VBytes [x01]; num 2]).
Proof.
  apply (@type_shape_of_fields reference_engine
           (VArr true [VBytes [x01]; num 2])); reflexivity.
Defined.

(** C2 (counterexample).  A blob inside a list comes back as its base64
    string, and a tuple-flagged sequence inside a plain map comes back
    without its flag, both from the two helpers and from a whole round
    trip of a frame; and on a blob of more octets than the engine accepts
    as arguments [_serializeValue] throws. *)
Lemma nested_shapes_lost :
  _serializeValue (VArr false [VBytes [x01; x02]])
  = Ok (VArr false [VStr "AQI="])
  /\ _deserializeValue (VArr false [VStr "AQI="]) false false
     = Ok (VArr false [VStr "AQI="])
  /\ _serializeValue (plain [("pair", VArr true [num 1; num 2])])
     = Ok (plain [("pair", VArr false [num 1; num 2])])
  /\ _deserializeValue (plain [("pair", VArr false [num 1; num 2])]) false false
     = Ok (plain [("pair", VArr false [num 1; num 2])])
  /\ round_trip (VObj (Some "DataFrame")
                   [("box", plain [("pair", VArr true [num 1; num 2]);
                                   ("raw", VBytes [x01; x02])])])
     = Resolved
         (Raw (plain [("box", plain [("pair", VArr false [num 1; num 2]);
                                     ("raw", VStr "AQI=")]);
                      ("constructor", plain [("name", VStr "DataFrame")])]))
  /\ _serializeValue (VBytes long_blob) = Throw RangeError.
Proof. repeat split; vm_compute; reflexivity. Qed.

Lemma unsupported_values_degrade_witness :
  exists text d,
    serialize (VObj (Some "TextFrame") callback_frame) = Ok (VStr text)
    /\ JSON.parse text = Ok (plain d)
    /\ (forall k v, lookup callback_frame k = Some v -> serial_key k = true ->
                    unsupported v = true ->
                    exists s, ToString v = Ok s /\ lookup d k = Some (VStr s))
    /\ (forall b v, lookup callback_frame b = Some v ->
                    mem_string b base_fields = true ->
                    lookup d b = if JSONImage.has_json v
                                 then Some (JSONImage.jsonify v) else None)
    /\ (forall b v, lookup callback_frame b = Some v ->
                    mem_string b base_fields = true ->
                    unsupported v = true -> lookup d b = None).
Proof.
  apply (@unsupported_values_degrade reference_engine (Some "TextFrame")
           callback_frame); reflexivity.
Defined.

(** C9 (counterexample).  A function held by a well-known field, or
    inside one, is copied to the envelope as it is and left out of the
    payload by [JSON.stringify]; a function held by a field named like a
    method of plain objects is skipped.  No string stands for it. *)
Lemma unsupported_value_left_out :
  match serialize (VObj (Some "TextFrame")
                     [("text", VStr "hi"); ("name", VFun "done" "() => 1")]) with
  | Ok (VStr t) => JSON.parse t
  | _ => Throw TypeError
  end = Ok (plain [("___frame___", VStr "TextFrame"); ("text", VStr "hi")])
  /\ match serialize (VObj (Some "TextFrame")
                        [("metadata", plain [("cb", VFun "done" "() => 1")])]) with
     | Ok (VStr t) => JSON.parse t
     | _ => Throw TypeError
     end = Ok (plain [("___frame___", VStr "TextFrame"); ("metadata", plain [])])
  /\ match serialize (VObj (Some "TextFrame")
                        [("toString", VFun "done" "() => 1")]) with
     | Ok (VStr t) => JSON.parse t
     | _ => Throw TypeError
     end = Ok (plain [("___frame___", VStr "TextFrame")]).
Proof. repeat split; vm_compute; reflexivity. Qed.

Lemma frame_round_trip_witness :
  exists text frame,
    serialize (VObj (Some "TranscriptFrame") transcript_frame) = Ok (VStr text)
    /\ deserialize (VStr text) = Resolved (Raw (plain frame))
    /\ constructor_name (plain frame) = Ok (VStr "TranscriptFrame")
    /\ forall k, k <> "constructor" ->
                 lookup frame k = lookup transcript_frame k.
Proof.
  apply (@frame_round_trip reference_engine "TranscriptFrame"
           transcript_frame); reflexivity.
Defined.

(** C1 (counterexample).  Five frames whose field values are in the set of
    the claim and do not come back equal: a blob inside a list comes back
    as a string; a nested frame comes back without its discriminator key
    and with an own [constructor] property; the number NaN comes back as
    null; a blob held by the well-known field [id] comes back as a map from
    indices to numbers; and a frame that holds a blob of more octets than
    the engine accepts as arguments is serialized to null. *)
Lemma frame_round_trip_fails :
  round_trip (VObj (Some "DataFrame") [("chunks", VArr false [VBytes [x01; x02]])])
  = Resolved
      (Raw (plain [("chunks", VArr false [VStr "AQI="]);
                   ("constructor", plain [("name", VStr "DataFrame")])]))
  /\ round_trip
       (VObj (Some "Outer")
          [("inner", VObj (Some "TextFrame")
                       [("___frame___", VStr "TextFrame"); ("text", VStr "hi")])])
     = Resolved
         (Raw (plain [("inner",
                       plain [("text", VStr "hi");
                              ("constructor", plain [("name", VStr "TextFrame")])]);
                      ("constructor", plain [("name", VStr "Outer")])]))
  /\ round_trip (VObj (Some "Level") [("gain", VNum NaN)])
     = Resolved
         (Raw (plain [("gain", VNull);
                      ("constructor", plain [("name", VStr "Level")])]))
  /\ round_trip (VObj (Some "DataFrame") [("id", VBytes [x01; x02])])
     = Resolved
         (Raw (plain [("constructor", plain [("name", VStr "DataFrame")]);
                      ("id", plain [("0", num 1); ("1", num 2)])]))
  /\ serialize (VObj (Some "DataFrame")
                  [("data", VBytes long_blob)])
     = Ok VNull.
Proof. repeat split; vm_compute; reflexivity. Qed.

Lemma audio_odd_buffer_null_witness :
  exists payload,
    serializeAudio [x10; x20; x30] (Finite 16000) (Finite 1) = Ok payload
    /\ deserialize payload = Resolved (Raw VNull).
Proof.
  exact (proj1 (@audio_odd_buffer_null reference_engine [x10; x20; x30]
                  (Finite 16000) (Finite 1) eq_refl) eq_refl).
Defined.

Lemma audio_samples_determine_buffer_witness :
  decode (serializeAudio [x01; x80] (Finite 16000) (Finite 1))
  = Resolved (Audio [(-32767)%Z])
  /\ [x01; x80] = [x01; x80].
Proof.
  split; [vm_compute; reflexivity|].
  eapply (@audio_samples_determine_buffer reference_engine
            [x01; x80] [x01; x80]
            (Finite 16000) (Finite 1) (Finite 8000) (Finite 2));
    vm_compute; reflexivity.
Defined.

Lemma audio_sample_count_witness :
  List.length [xff; x7f; x00; x80] = (2 * List.length [32767%Z; (-32768)%Z])%nat
  /\ Forall (fun x => (-32768 <= x <= 32767)%Z) [32767%Z; (-32768)%Z].
Proof.
  eapply (@audio_sample_count reference_engine [xff; x7f; x00; x80]
            (Finite 48000) (Finite 2));
    vm_compute; reflexivity.
Defined.

Lemma serialize_payload_parses_witness :
  exists d,
    JSON.parse (payload_text (serialize (VArr true [num 1; VStr "a"])))
    = Ok (plain d).
Proof.
  apply (@serialize_payload_parses reference_engine
           (VArr true [num 1; VStr "a"])).
  vm_compute. reflexivity.
Defined.

Lemma inherited_names_not_serialized_witness :
  exists d,
    JSON.parse (payload_text (serialize (VObj (Some "TextFrame") shadowed_frame)))
    = Ok (plain d)
    /\ forall k, mem_string k Object_prototype_keys = true -> lookup d k = None.
Proof.
  apply (@inherited_names_not_serialized reference_engine (Some "TextFrame")
           shadowed_frame).
  vm_compute. reflexivity.
Defined.

Lemma markers_match_field_types_witness :
  exists text d,
    serialize (VObj (Some "CaptionFrame") caption_frame) = Ok (VStr text)
    /\ JSON.parse text = Ok (plain d)
    /\ forall k,
         lookup d (bytes_marker k)
         = match lookup caption_frame k with
           | Some v => if serial_key k && is_Uint8Array v then Some (VBool true)
                       else None
           | None => None
           end
         /\ lookup d (tuple_marker k)
            = match lookup caption_frame k with
              | Some v => if serial_key k && is_tuple_array v
                          then Some (VBool true) else None
              | None => None
              end.
Proof.
  apply (@markers_match_field_types reference_engine (Some "CaptionFrame")
           caption_frame); reflexivity.
Defined.

Lemma non_finite_numbers_null_witness :
  exists text d,
    serialize (VObj (Some "LevelFrame") level_frame) = Ok (VStr text)
    /\ JSON.parse text = Ok (plain d)
    /\ lookup d "peak" = Some VNull.
Proof.
  apply (@non_finite_numbers_null reference_engine (Some "LevelFrame")
           level_frame "peak" (Infinity false)); try reflexivity.
  intros z. discriminate.
Defined.

Lemma anonymous_class_frame_null_witness :
  exists text,
    serialize (VObj (Some "") caption_frame) = Ok (VStr text)
    /\ deserialize (VStr text) = Resolved (Raw VNull).
Proof.
  apply (@anonymous_class_frame_null reference_engine caption_frame);
    reflexivity.
Defined.

Lemma wire_values_fixed_witness :
  _serializeValue (VArr false [VStr "AQ=="; num 2])
  = Ok (VArr false [VStr "AQ=="; num 2])
  /\ _deserializeValue (VArr false [VStr "AQ=="; num 2]) false false
     = Ok (VArr false [VStr "AQ=="; num 2]).
Proof.
  apply (@wire_values_fixed reference_engine
           (VArr true [VBytes [x01]; num 2])
           (VArr false [VStr "AQ=="; num 2])); reflexivity.
Defined.

Lemma decoded_frame_layout_witness :
  round_trip (VObj (Some "CaptionFrame") caption_frame)
  = Resolved (Raw (plain (decoded_layout "CaptionFrame" caption_frame))).
Proof.
  apply (@decoded_frame_layout reference_engine "CaptionFrame"
           caption_frame); reflexivity.
Defined.

Lemma reserialize_stable_witness :
  exists text frame,
    serialize (VObj (Some "CaptionFrame") caption_frame) = Ok (VStr text)
    /\ deserialize (VStr text) = Resolved (Raw frame)
    /\ serialize frame = Ok (VStr text).
Proof.
  apply (@reserialize_stable reference_engine "CaptionFrame" caption_frame);
    reflexivity.
Defined.

Lemma serialize_null_iff_witness :
  (serialize (VObj (Some "OuterFrame") nested_bare_frame) = Ok VNull
   <-> exists k v e, In (k, v) nested_bare_frame /\ serial_key k = true
                     /\ _serializeValue v = Throw e)
  /\ (serialize (VObj (Some "OuterFrame") nested_bare_frame) = Ok VNull
      \/ exists text,
           serialize (VObj (Some "OuterFrame") nested_bare_frame)
           = Ok (VStr text)).
Proof.
  apply (@serialize_null_iff reference_engine (Some "OuterFrame")
           nested_bare_frame); reflexivity.
Defined.

Lemma serializeValue_throws_only_on_bare_frames_witness :
  constructible (VArr false [VObj None [("___frame___", VStr "TextFrame")]])
  = false
  \/ within_limit (VArr false [VObj None [("___frame___", VStr "TextFrame")]])
     = false.
Proof.
  apply (@serializeValue_throws_only_on_bare_frames reference_engine
           (VArr false [VObj None [("___frame___", VStr "TextFrame")]])
           TypeError).
  reflexivity.
Defined.

Lemma nested_instances_untagged_witness :
  exists r, plain session_instance = plain r
            /\ lookup r "___frame___" = None
            /\ forall k, has_key r k = true ->
                         has_key session_instance k = true.
Proof.
  apply (@nested_instances_untagged reference_engine "Session"
           session_instance (plain session_instance)); reflexivity.
Defined.
